(** * dob: time inference for new facts (dob/helpers/fix_times.py)

    A shallow embedding of [must_complete_times] and of the closures it
    is made of, followed by the properties of the resolver.

    Conventions of the embedding.
    - A [datetime] is the number of seconds since 2020-01-01 00:00, a
      [Z]; [timedelta(minutes=m)] is [60 * m] seconds.  The arithmetic
      of the delta pass is checked as Python checks it: a [timedelta]
      beyond 999999999 days, or a sum outside [datetime.min] ..
      [datetime.max], raises [OverflowError].
    - The value of a fact's [start] / [end] attribute is a [TimeVal]:
      [None], a [datetime], or a text (the source tells them apart with
      [is None], [isinstance(_, datetime)] and truthiness).
    - The new facts are Python objects shared by [new_facts],
      [later_facts] and the conflict tuples.  The batch is kept in the
      state and a new fact is named by its position in [new_facts];
      [setattr] rewrites the state, so every alias sees the update.
    - Exceptions carry the state they were raised in: nothing is rolled
      back when Python unwinds.
    - [progress] only prints; it is left out. *)

From Stdlib Require Import ZArith String Ascii List Lia Bool.
From Stdlib Require Import DecimalString.
From stdpp Require Import base list.
Import ListNotations.
Local Open Scope string_scope.
Local Open Scope list_scope.
Local Open Scope Z_scope.

(** ** Data model *)

Inductive TimeVal : Type :=
| Absent
| Datetime (t : Z)
| Text (s : string).

(** Python truthiness of an attribute value: [None] and the empty text
    are false, a [datetime] is always true. *)
Definition truthy (v : TimeVal) : bool :=
  match v with
  | Absent => false
  | Datetime _ => true
  | Text s => negb (String.eqb s EmptyString)
  end.

Definition isinstance_datetime (v : TimeVal) : bool :=
  match v with Datetime _ => true | _ => false end.

Record Fact : Type := mkFact {
  fact_pk : option Z;
  fact_start : TimeVal;
  fact_end : TimeVal
}.

(** A fact returned by the store: it has a primary key, and its times
    are timestamps or missing. *)
Record StoredFact : Type := mkStored {
  stored_pk : Z;
  stored_start : option Z;
  stored_end : option Z
}.

Definition timeval_of (o : option Z) : TimeVal :=
  match o with Some t => Datetime t | None => Absent end.

Definition fact_of_stored (f : StoredFact) : Fact :=
  mkFact (Some (stored_pk f)) (timeval_of (stored_start f)) (timeval_of (stored_end f)).

(** The attribute names ['start'] and ['end']. *)
Inductive Which : Type := WStart | WEnd.

Definition getattr (f : Fact) (which : Which) : TimeVal :=
  match which with WStart => fact_start f | WEnd => fact_end f end.

Definition with_attr (f : Fact) (which : Which) (v : TimeVal) : Fact :=
  match which with
  | WStart => mkFact (fact_pk f) v (fact_end f)
  | WEnd => mkFact (fact_pk f) (fact_start f) v
  end.

(** A reference to a fact object: the i-th new fact, or a stored fact
    handed out by the store. *)
Inductive FactRef : Type :=
| RNew (i : nat)
| RStored (f : StoredFact).

(** [hh, mm, ss] as parsed from a clock-time text. *)
Definition ClockTime : Type := (Z * Z * Z)%type.

(** The [msg_content] of a conflict, with the values it is formatted from. *)
Inductive Reason : Type :=
| CouldNotDecipherClock (clock_time : ClockTime) (which : Which)
| CouldNotInferDelta (delta_mins : Z) (which : Which)
| CouldNotTranslate (dt_fact : TimeVal) (which : Which)
| CouldNotInferBlank (which : Which)
| StartsBeforePreviousEnds
| EndsAfterNextStarts
| StartsAfterItEnds.

(** The tuple [(fact, other, conflict_msg)]; [fact] is always a new fact. *)
Record Conflict : Type := mkConflict {
  c_fact : nat;
  c_other : option FactRef;
  c_reason : Reason
}.

(** What the resolver asks of the controller. *)
Inductive StoreCall : Type :=
| CallAntecedent (ref_time : Z)
| CallSubsequent (ref_time : Z)
| CallNow.

Record Controller : Type := mkController {
  antecedent : Z -> option StoredFact;
  subsequent : Z -> option StoredFact;
  now : Z
}.

(** The helpers imported from [nark.helpers.dated].  A [None] from the
    [datetime_from_clock_*] functions stands for a raised exception;
    [parse_relative_minutes] returns the pair [(delta_mins, delta_minus)]. *)
Record Dated : Type := mkDated {
  parse_clock_time : string -> option ClockTime;
  parse_relative_minutes : string -> option Z * option bool;
  datetime_from_clock_after : Z -> ClockTime -> option Z;
  datetime_from_clock_prior : Z -> ClockTime -> option Z
}.

(** ** State and exceptions *)

Record State : Type := mkState {
  new_facts : list Fact;
  conflicts : list Conflict;
  store_calls : list StoreCall
}.

Inductive Exn : Type :=
| AssertionError
| IndexError
| SystemExit
| OverflowError.

Inductive Outcome (A : Type) : Type :=
| Returned (a : A) (st : State)
| Raised (e : Exn) (st : State).
Arguments Returned {A} a st.
Arguments Raised {A} e st.

Definition M (A : Type) : Type := State -> Outcome A.

Definition ret {A} (a : A) : M A := fun st => Returned a st.

Definition bind {A B} (m : M A) (k : A -> M B) : M B :=
  fun st =>
    match m st with
    | Returned a st' => k a st'
    | Raised e st' => Raised e st'
    end.

Definition raise {A} (e : Exn) : M A := fun st => Raised e st.

Notation "'let*' x ':=' m 'in' k" := (bind m (fun x => k))
  (at level 10, x name, m at level 100, k at level 200, only parsing).
Notation "m ';;;' k" := (bind m (fun _ => k))
  (at level 100, k at level 200, right associativity, only parsing).

Definition py_assert (b : bool) : M unit :=
  if b then ret tt else raise AssertionError.

(** [datetime] arithmetic.  A [datetime] lies between [datetime.min],
    0001-01-01 00:00:00, and [datetime.max], the end of year 9999; in
    seconds since 2020-01-01 00:00 these are the two bounds below.
    [timedelta(minutes=m)] raises [OverflowError] when its days exceed
    999999999 in magnitude, and [dt + delta] raises [OverflowError] when
    the sum leaves the range of [datetime]. *)
Definition datetime_min : Z := -63713433600.

Definition datetime_max : Z := 251824463999.

Definition timedelta_max_days : Z := 999999999.

Definition timedelta_minutes (minutes : Z) : M Z :=
  let seconds := 60 * minutes in
  if Z.abs (seconds / 86400) <=? timedelta_max_days
  then ret seconds else raise OverflowError.

Definition datetime_add (dt delta : Z) : M Z :=
  let sum := dt + delta in
  if (datetime_min <=? sum) && (sum <=? datetime_max)
  then ret sum else raise OverflowError.

(** [dt + timedelta(minutes=delta_mins)]. *)
Definition plus_minutes (dt delta_mins : Z) : M Z :=
  let* delta := timedelta_minutes delta_mins in
  datetime_add dt delta.

Definition gets {A} (f : State -> A) : M A := fun st => Returned (f st) st.

(** [getattr(fact, which)] on the i-th new fact. *)
Definition read_attr (i : nat) (which : Which) : M TimeVal :=
  fun st =>
    match new_facts st !! i with
    | Some f => Returned (getattr f which) st
    | None => Raised IndexError st
    end.

(** [setattr(fact, which, dt_suss)] on the i-th new fact. *)
Definition setattr (i : nat) (which : Which) (t : Z) : M unit :=
  fun st =>
    match new_facts st !! i with
    | Some f =>
        Returned tt (mkState (<[i := with_attr f which (Datetime t)]> (new_facts st))
                             (conflicts st) (store_calls st))
    | None => Raised IndexError st
    end.

(** [conflicts.append((fact, other, prepare_log_msg(fact, msg_content)))]. *)
Definition conflicts_append (i : nat) (other : option FactRef) (r : Reason) : M unit :=
  fun st =>
    Returned tt (mkState (new_facts st) (conflicts st ++ [mkConflict i other r])
                         (store_calls st)).

Definition log_call (c : StoreCall) : M unit :=
  fun st =>
    Returned tt (mkState (new_facts st) (conflicts st) (store_calls st ++ [c])).

Definition deref (facts : list Fact) (r : FactRef) : option Fact :=
  match r with
  | RNew i => facts !! i
  | RStored f => Some (fact_of_stored f)
  end.

(** [fact is other], for a new fact on the left. *)
Definition is_same (i : nat) (r : FactRef) : bool :=
  match r with RNew j => Nat.eqb i j | RStored _ => false end.

(** ** The resolver

    The closures of [must_complete_times], over the controller, the
    imported helpers and the [ongoing_okay] argument they capture. *)

Section Resolver.

Variable nark : Dated.
Variable controller : Controller.
Variable ongoing_okay : bool.

Fixpoint antecedent_fact_from (facts : list Fact) : M (option StoredFact) :=
  match facts with
  | [] => ret None
  | fact :: rest =>
      match fact_start fact with
      | Datetime t =>
          log_call (CallAntecedent t) ;;; ret (antecedent controller t)
      | _ =>
          match fact_end fact with
          | Datetime t =>
              log_call (CallAntecedent t) ;;; ret (antecedent controller t)
          | _ => antecedent_fact_from rest
          end
      end
  end.

Definition antecedent_fact : M (option StoredFact) :=
  let* facts := gets new_facts in antecedent_fact_from facts.

Fixpoint subsequent_fact_from (reversed : list Fact) : M (option StoredFact) :=
  match reversed with
  | [] => ret None
  | fact :: rest =>
      match fact_end fact with
      | Datetime t =>
          log_call (CallSubsequent t) ;;; ret (subsequent controller t)
      | _ =>
          match fact_start fact with
          | Datetime t =>
              log_call (CallSubsequent t) ;;; ret (subsequent controller t)
          | _ => subsequent_fact_from rest
          end
      end
  end.

Definition subsequent_fact : M (option StoredFact) :=
  let* facts := gets new_facts in subsequent_fact_from (rev facts).

Definition is_none {A} (o : option A) : bool :=
  match o with None => true | Some _ => false end.

(** [later_facts = new_facts[0:]], as references. *)
Definition all_new (n : nat) : list FactRef := map RNew (seq 0 n).

Definition prev_and_later (ante_fact seqt_fact : option StoredFact)
  : M (option Z * list FactRef) :=
  let* n := gets (fun st => length (new_facts st)) in
  let* prev_time :=
    match ante_fact with
    | Some ante =>
        match stored_end ante with
        | Some t => ret (Some t)
        | None =>
            if negb ongoing_okay && Nat.eqb n 1 && is_none seqt_fact
            then raise AssertionError
            else ret None
        end
    | None => ret None
    end in
  match seqt_fact with
  | Some seqt =>
      match stored_start seqt with
      | None => raise AssertionError
      | Some _ => ret (prev_time, all_new n ++ [RStored seqt])
      end
  | None => ret (prev_time, all_new n)
  end.

Fixpoint find_next_datetime (facts : list Fact) (later_facts : list FactRef)
  : option (Z * FactRef) :=
  match later_facts with
  | [] => None
  | r :: rest =>
      match deref facts r with
      | Some fact =>
          match fact_start fact with
          | Datetime t => Some (t, r)
          | _ =>
              match fact_end fact with
              | Datetime t => Some (t, r)
              | _ => find_next_datetime facts rest
              end
          end
      | None => find_next_datetime facts rest
      end
  end.

Definition next_datetime (later_facts : list FactRef) : M (option (Z * FactRef)) :=
  gets (fun st => find_next_datetime (new_facts st) later_facts).

(** The loop shared by the four passes:
    [for fact in new_facts: assert fact is later_facts[0]; later_facts.pop(0); body].
    [s] holds the variables the body carries from one fact to the next. *)
Fixpoint for_each_fact {S : Type} (body : nat -> list FactRef -> S -> M S)
    (idxs : list nat) (later_facts : list FactRef) (s : S) : M S :=
  match idxs with
  | [] => ret s
  | fact :: idxs' =>
      match later_facts with
      | [] => raise IndexError
      | head :: later_facts' =>
          py_assert (is_same fact head) ;;;
          let* s' := body fact later_facts' s in
          for_each_fact body idxs' later_facts' s'
      end
  end.

Definition for_new_facts {S : Type} (body : nat -> list FactRef -> S -> M S)
    (later_facts : list FactRef) (s : S) : M S :=
  let* n := gets (fun st => length (new_facts st)) in
  for_each_fact body (seq 0 n) later_facts s.

(** *** Pass 1: clock times *)

Definition opposite (which : Which) : Which :=
  match which with WStart => WEnd | WEnd => WStart end.

Definition infer_from_clock_prior (dt_oppo : Z) (clock_time : ClockTime) : option Z :=
  datetime_from_clock_prior nark dt_oppo clock_time.

Definition infer_from_clock_after (dt_oppo : Z) (clock_time : ClockTime) : option Z :=
  datetime_from_clock_after nark dt_oppo clock_time.

Definition infer_datetime_from_clock (clock_time : ClockTime) (fact : nat)
    (which : Which) (prev_time : option Z) (later_facts : list FactRef)
  : M (option Z) :=
  let* dt_oppo := read_attr fact (opposite which) in
  let* dt_suss :=
    match dt_oppo with
    | Datetime oppo =>
        match which with
        | WStart => ret (infer_from_clock_prior oppo clock_time)
        | WEnd => ret (infer_from_clock_after oppo clock_time)
        end
    | _ =>
        match prev_time with
        | Some prev => ret (infer_from_clock_after prev clock_time)
        | None =>
            let* next := next_datetime later_facts in
            match next with
            | Some (next_time, _) => ret (infer_from_clock_prior next_time clock_time)
            | None => ret None
            end
        end
    end in
  match dt_suss with
  | Some dt => setattr fact which dt ;;; ret (Some dt)
  | None =>
      conflicts_append fact None (CouldNotDecipherClock clock_time which) ;;;
      ret prev_time
  end.

Definition fix_clock_time_relative (fact : nat) (which : Which)
    (prev_time : option Z) (later_facts : list FactRef) : M (option Z) :=
  let* dt_fact := read_attr fact which in
  match dt_fact with
  | Absent => ret prev_time
  | Datetime t => ret (Some t)
  | Text s =>
      match parse_clock_time nark s with
      | Some clock_time =>
          infer_datetime_from_clock clock_time fact which prev_time later_facts
      | None => ret prev_time
      end
  end.

Definition fix_clock_times_relative (ante_fact seqt_fact : option StoredFact) : M unit :=
  let* pl := prev_and_later ante_fact seqt_fact in
  for_new_facts
    (fun fact later_facts prev_time =>
       let* prev_time := fix_clock_time_relative fact WStart prev_time later_facts in
       fix_clock_time_relative fact WEnd prev_time later_facts)
    (snd pl) (fst pl) ;;;
  ret tt.

(** *** Pass 2: relative minutes *)

Definition infer_datetime_from_delta (delta_mins : Z) (delta_minus : option bool)
    (fact : nat) (which : Which) (prev_time : option Z) (later_facts : list FactRef)
  : M (option Z) :=
  let from_next : M (option Z) :=
    let* next := next_datetime later_facts in
    match next with
    | Some (next_time, _) =>
        let* dt_suss := plus_minutes next_time delta_mins in ret (Some dt_suss)
    | None => ret None
    end in
  let* dt_suss :=
    match delta_minus with
    | Some false =>
        match prev_time with
        | Some prev =>
            let* dt_suss := plus_minutes prev delta_mins in ret (Some dt_suss)
        | None => ret None
        end
    | _ =>
        match which with
        | WStart =>
            let* fact_end := read_attr fact WEnd in
            match fact_end with
            | Datetime e =>
                let* dt_suss := plus_minutes e delta_mins in ret (Some dt_suss)
            | _ => from_next
            end
        | WEnd => from_next
        end
    end in
  match dt_suss with
  | Some dt => setattr fact which dt ;;; ret (Some dt)
  | None =>
      conflicts_append fact None (CouldNotInferDelta delta_mins which) ;;;
      ret prev_time
  end.

Definition fix_delta_time_relative (fact : nat) (which : Which)
    (prev_time : option Z) (later_facts : list FactRef) : M (option Z) :=
  let* dt_fact := read_attr fact which in
  match dt_fact with
  | Absent => ret prev_time
  | Datetime t => ret (Some t)
  | Text s =>
      match parse_relative_minutes nark s with
      | (Some delta_mins, delta_minus) =>
          infer_datetime_from_delta delta_mins delta_minus fact which
            prev_time later_facts
      | (None, _) => ret prev_time
      end
  end.

Definition fix_delta_times_relative (ante_fact seqt_fact : option StoredFact) : M unit :=
  let* pl := prev_and_later ante_fact seqt_fact in
  for_new_facts
    (fun fact later_facts prev_time =>
       let* prev_time := fix_delta_time_relative fact WStart prev_time later_facts in
       fix_delta_time_relative fact WEnd prev_time later_facts)
    (snd pl) (fst pl) ;;;
  ret tt.

(** *** Pass 3: blanks *)

Definition fix_blank_time_relative (fact : nat) (which : Which)
    (prev_time : option Z) (later_facts : list FactRef) : M (option Z) :=
  let* dt_fact := read_attr fact which in
  match dt_fact with
  | Datetime t => ret (Some t)
  | _ =>
      if truthy dt_fact then
        conflicts_append fact None (CouldNotTranslate dt_fact which) ;;;
        ret prev_time
      else
        let* dt_suss :=
          match which with
          | WStart => ret prev_time
          | WEnd =>
              let* next := next_datetime later_facts in
              match next with
              | Some (next_time, _) => ret (Some next_time)
              | None => log_call CallNow ;;; ret (Some (now controller))
              end
          end in
        match dt_suss with
        | Some dt => setattr fact which dt ;;; ret (Some dt)
        | None =>
            conflicts_append fact None (CouldNotInferBlank which) ;;;
            ret prev_time
        end
  end.

Definition fix_blank_times_relative (ante_fact seqt_fact : option StoredFact) : M unit :=
  let* pl := prev_and_later ante_fact seqt_fact in
  for_new_facts
    (fun fact later_facts prev_time =>
       let* fact_start := read_attr fact WStart in
       let* fact_end := read_attr fact WEnd in
       py_assert (truthy fact_start || truthy fact_end) ;;;
       let* prev_time := fix_blank_time_relative fact WStart prev_time later_facts in
       fix_blank_time_relative fact WEnd prev_time later_facts)
    (snd pl) (fst pl) ;;;
  ret tt.

(** *** Pass 4: sanity *)

Definition verify_datetimes_missing_already_caught (fact : nat) : M unit :=
  let* cs := gets conflicts in
  let found_it := List.filter (fun conflict => Nat.eqb fact (c_fact conflict)) cs in
  py_assert (Nat.ltb 0 (length found_it)).

(** The body of the loop of [verify_datetimes_sanity]; the loop carries
    [prev_time] and [prev_fact].  Nothing is assigned between the reads
    of [fact.start] and [fact.end], so the last test reuses them. *)
Definition verify_fact_sanity (fact : nat) (later_facts : list FactRef)
    (s : option Z * option FactRef) : M (option Z * option FactRef) :=
  let prev_time := fst s in
  let prev_fact := snd s in
  let* fact_start := read_attr fact WStart in
  let* r1 :=
    if negb (truthy fact_start) then
      verify_datetimes_missing_already_caught fact ;;; ret (prev_time, 0%nat)
    else
      match fact_start with
      | Datetime t =>
          match prev_time with
          | Some prev =>
              if t <? prev
              then conflicts_append fact prev_fact StartsBeforePreviousEnds
              else ret tt
          | None => ret tt
          end ;;;
          ret (Some t, 1%nat)
      | _ => ret (prev_time, 0%nat)
      end in
  let* fact_end := read_attr fact WEnd in
  let* r2 :=
    if negb (truthy fact_end) then
      verify_datetimes_missing_already_caught fact ;;; ret r1
    else
      match fact_end with
      | Datetime t =>
          let* next := next_datetime later_facts in
          match next with
          | Some (next_time, next_fact) =>
              if t >? next_time
              then conflicts_append fact (Some next_fact) EndsAfterNextStarts
              else ret tt
          | None => ret tt
          end ;;;
          ret (Some t, S (snd r1))
      | _ => ret r1
      end in
  match fact_start, fact_end with
  | Datetime t_start, Datetime t_end =>
      if Nat.eqb (snd r2) 2 && (t_start >? t_end)
      then conflicts_append fact None StartsAfterItEnds
      else ret tt
  | _, _ => ret tt
  end ;;;
  ret (fst r2, Some (RNew fact)).

Definition verify_datetimes_sanity (ante_fact seqt_fact : option StoredFact) : M unit :=
  let* pl := prev_and_later ante_fact seqt_fact in
  let prev_fact := option_map RStored ante_fact in
  for_new_facts verify_fact_sanity (snd pl) (fst pl, prev_fact) ;;;
  ret tt.

(** *** The whole resolver *)

(** Modelled from the spec: [barf_and_exit] of dob/cmd_common.py, which
    is not among the sources.  The resolver "fails by raising a
    structured, user-reportable error enumerating all conflicts", and the
    operation ends "with a non-zero exit status": the printing is left
    out and the exit is the exception [SystemExit], raised with the
    conflict list in the state. *)
Definition barf_and_exit : M unit := raise SystemExit.

Definition barf_on_overlapping_facts_new : M unit :=
  let* cs := gets conflicts in
  match cs with
  | [] => ret tt
  | _ :: _ => barf_and_exit
  end.

(** The four passes, lines 60 to 69 of the source. *)
Definition four_passes (ante_fact seqt_fact : option StoredFact) : M unit :=
  fix_clock_times_relative ante_fact seqt_fact ;;;
  fix_delta_times_relative ante_fact seqt_fact ;;;
  fix_blank_times_relative ante_fact seqt_fact ;;;
  verify_datetimes_sanity ante_fact seqt_fact.

Definition _must_complete_times : M unit :=
  let* facts := gets new_facts in
  match facts with
  | [] => ret tt
  | _ :: _ =>
      let* ante_fact := antecedent_fact in
      let* seqt_fact := subsequent_fact in
      four_passes ante_fact seqt_fact ;;;
      barf_on_overlapping_facts_new
  end.

(** [must_complete_times(controller, new_facts, ongoing_okay=...)]: the
    conflict list starts empty and no store call has been made. *)
Definition must_complete_times (facts : list Fact) : Outcome unit :=
  _must_complete_times (mkState facts [] []).

End Resolver.

(** ** A model of the imported helpers, for the scenarios *)

Module NarkModel.

Definition digit_of (c : ascii) : option Z :=
  let n := nat_of_ascii c in
  if (Nat.leb 48 n && Nat.leb n 57)%bool then Some (Z.of_nat (n - 48)) else None.

Fixpoint digits_value (s : string) (acc : Z) : option Z :=
  match s with
  | EmptyString => Some acc
  | String c rest =>
      match digit_of c with
      | Some d => digits_value rest (10 * acc + d)
      | None => None
      end
  end.

Definition number_of (s : string) : option Z :=
  match s with
  | EmptyString => None
  | _ => digits_value s 0
  end.

(** Modelled from the spec: [parse_clock_time] of nark.helpers.dated.  A
    clock-time expression is "a bare time-of-day string (e.g. "14:30")":
    one or two digits of hours, a colon, two digits of minutes. *)
Definition parse_clock_time (s : string) : option ClockTime :=
  let hm (h m : string) : option ClockTime :=
    match number_of h, number_of m with
    | Some hh, Some mm => Some (hh, mm, 0)
    | _, _ => None
    end in
  match s with
  | String h1 (String ":" (String m1 (String m2 EmptyString))) =>
      hm (String h1 EmptyString) (String m1 (String m2 EmptyString))
  | String h1 (String h2 (String ":" (String m1 (String m2 EmptyString)))) =>
      hm (String h1 (String h2 EmptyString)) (String m1 (String m2 EmptyString))
  | _ => None
  end.

(** Modelled from the spec: [parse_relative_minutes] of
    nark.helpers.dated.  A relative-delta expression is "a signed
    minute-offset string (e.g. "-15")", as in "-15" and "+30"; the result
    is the signed number of minutes and whether the sign was a minus. *)
Definition parse_relative_minutes (s : string) : option Z * option bool :=
  match s with
  | String "-" digits =>
      match number_of digits with
      | Some n => (Some (- n), Some true)
      | None => (None, None)
      end
  | String "+" digits =>
      match number_of digits with
      | Some n => (Some n, Some false)
      | None => (None, None)
      end
  | _ => (None, None)
  end.

Definition valid_clock (clock_time : ClockTime) : bool :=
  let '(hh, mm, ss) := clock_time in
  (0 <=? hh) && (hh <? 24) && (0 <=? mm) && (mm <? 60) && (0 <=? ss) && (ss <? 60).

(** The clock time put on the day of [dt_relative]. *)
Definition replace_clock (dt_relative : Z) (clock_time : ClockTime) : Z :=
  let '(hh, mm, ss) := clock_time in
  86400 * (dt_relative / 86400) + 3600 * hh + 60 * mm + ss.

(** Modelled from the spec: [datetime_from_clock_after] of
    nark.helpers.dated, "the next occurrence at or after" the reference
    time; a clock time that is no time of day raises. *)
Definition datetime_from_clock_after (dt_relative : Z) (clock_time : ClockTime)
  : option Z :=
  if valid_clock clock_time then
    let new_dt := replace_clock dt_relative clock_time in
    Some (if new_dt <? dt_relative then new_dt + 86400 else new_dt)
  else None.

(** Modelled from the spec: [datetime_from_clock_prior] of
    nark.helpers.dated, the clock time resolved "backward from" the
    reference time: its last occurrence at or before it. *)
Definition datetime_from_clock_prior (dt_relative : Z) (clock_time : ClockTime)
  : option Z :=
  if valid_clock clock_time then
    let new_dt := replace_clock dt_relative clock_time in
    Some (if new_dt >? dt_relative then new_dt - 86400 else new_dt)
  else None.

Definition dated : Dated :=
  mkDated parse_clock_time parse_relative_minutes
          datetime_from_clock_after datetime_from_clock_prior.

End NarkModel.

(** Timestamps of the scenarios: [hh:mm] on 2020-01-01. *)
Definition on_2020_01_01 (hh mm : Z) : Z := 3600 * hh + 60 * mm.

(** A store that answers every query with the same neighbours. *)
Definition fixed_store (ante seqt : option StoredFact) (now_ : Z) : Controller :=
  mkController (fun _ => ante) (fun _ => seqt) now_.

Definition new_fact (start end_ : TimeVal) : Fact := mkFact None start end_.

(** ** The clock-time rule in the words of the specification

    The anchor a clock time is resolved against, in priority order: the
    fact's own opposite field when it is a timestamp, else the running
    [prev_time], else the nearest later timestamp, else nothing. *)

Inductive Anchor : Type :=
| OwnOpposite (t : Z)
| RunningPrev (t : Z)
| NearestLater (t : Z)
| NoAnchor.

Definition clock_anchor (dt_oppo : TimeVal) (prev_time next_time : option Z) : Anchor :=
  match dt_oppo, prev_time, next_time with
  | Datetime t, _, _ => OwnOpposite t
  | _, Some t, _ => RunningPrev t
  | _, None, Some t => NearestLater t
  | _, None, None => NoAnchor
  end.

(** A start is resolved backward from its own end and an end forward
    from its own start; [prev_time] is resolved forward; a later
    timestamp is resolved backward.  [None]: the attempt raised, or
    there was no anchor. *)
Definition clock_resolution (nark : Dated) (which : Which) (a : Anchor)
    (clock_time : ClockTime) : option Z :=
  match a with
  | OwnOpposite t =>
      match which with
      | WStart => datetime_from_clock_prior nark t clock_time
      | WEnd => datetime_from_clock_after nark t clock_time
      end
  | RunningPrev t => datetime_from_clock_after nark t clock_time
  | NearestLater t => datetime_from_clock_prior nark t clock_time
  | NoAnchor => None
  end.

(** ** Definitions for the properties *)

(** *** States written as values *)

Definition set_fact (st : State) (i : nat) (f : Fact) : State :=
  mkState (<[i := f]> (new_facts st)) (conflicts st) (store_calls st).

Definition add_conflict (st : State) (c : Conflict) : State :=
  mkState (new_facts st) (conflicts st ++ [c]) (store_calls st).

Definition add_conflicts (st : State) (cs : list Conflict) : State :=
  mkState (new_facts st) (conflicts st ++ cs) (store_calls st).

Definition add_call (st : State) (c : StoreCall) : State :=
  mkState (new_facts st) (conflicts st) (store_calls st ++ [c]).

Definition add_calls (st : State) (calls : list StoreCall) : State :=
  mkState (new_facts st) (conflicts st) (store_calls st ++ calls).

(** *** Outcomes *)

(** Outcome predicate: [Q] on a normal return, [E] on an exception. *)
Definition wp {A} (m : M A) (st : State)
    (Q : A -> State -> Prop) (E : Exn -> State -> Prop) : Prop :=
  match m st with
  | Returned a st' => Q a st'
  | Raised e st' => E e st'
  end.

Definition no_raise : Exn -> State -> Prop := fun _ _ => False.

Definition may_raise : Exn -> State -> Prop := fun _ _ => True.

Definition only_assert : Exn -> State -> Prop := fun e _ => e = AssertionError.

Definition assert_or_overflow : Exn -> State -> Prop :=
  fun e _ => e = AssertionError \/ e = OverflowError.

Definition same_length (n : nat) : State -> Prop :=
  fun st => length (new_facts st) = n.

Ltac mrun :=
  repeat (unfold bind, ret, raise, gets, conflicts_append, read_attr, py_assert;
          cbn [fst snd new_facts conflicts store_calls getattr
               fact_start fact_end truthy negb Nat.eqb andb]).

(** *** What [prev_and_later] returns *)

(** The seed of [prev_time]: the end of the antecedent, if any. *)
Definition prev_seed (ante_fact : option StoredFact) : option Z :=
  match ante_fact with Some ante => stored_end ante | None => None end.

(** What follows the new facts in [later_facts]. *)
Definition seqt_tail (seqt_fact : option StoredFact) : list FactRef :=
  match seqt_fact with Some seqt => [RStored seqt] | None => [] end.

(** [later_facts] once the facts before [k] have been popped. *)
Definition later_from (k n : nat) (tail : list FactRef) : list FactRef :=
  map RNew (seq k (n - k)) ++ tail.

(** *** Field steps *)

(** The timestamp a delta is counted from: a delta that is not a minus
    counts from [prev_time]; a minus on a start with a known end counts
    from that end; any other minus counts from the next timestamp. *)
Definition delta_anchor (which : Which) (delta_minus : option bool)
    (fact_end : TimeVal) (prev_time next_time : option Z) : option Z :=
  match delta_minus with
  | Some false => prev_time
  | _ =>
      match which, fact_end with
      | WStart, Datetime e => Some e
      | _, _ => next_time
      end
  end.

(** [dt + timedelta(minutes=delta_mins)] as a value; [None] when it
    raises [OverflowError]. *)
Definition minutes_after (dt delta_mins : Z) : option Z :=
  if (Z.abs (60 * delta_mins / 86400) <=? timedelta_max_days)
     && ((datetime_min <=? dt + 60 * delta_mins)
         && (dt + 60 * delta_mins <=? datetime_max))
  then Some (dt + 60 * delta_mins) else None.

(** The field a conflict of the first three passes is about. *)
Definition reason_field (r : Reason) : option Which :=
  match r with
  | CouldNotDecipherClock _ w | CouldNotInferDelta _ w
  | CouldNotTranslate _ w | CouldNotInferBlank w => Some w
  | _ => None
  end.

(** A field step on fact [i]: the fact [f] becomes [f'], the conflicts
    [cs] are appended; only the field [which] may change, and only from
    something that is no timestamp into a timestamp; the conflicts name
    the fact and the field. *)
Definition step_summary (i : nat) (which : Which) (f : Fact) (st st' : State)
    (f' : Fact) (cs : list Conflict) : Prop :=
  new_facts st' = <[i := f']> (new_facts st) /\
  conflicts st' = conflicts st ++ cs /\
  fact_pk f' = fact_pk f /\
  getattr f' (opposite which) = getattr f (opposite which) /\
  (getattr f' which = getattr f which \/
   (exists t, getattr f' which = Datetime t) /\
   isinstance_datetime (getattr f which) = false) /\
  Forall (fun c => c_fact c = i /\ c_other c = None /\
                   reason_field (c_reason c) = Some which) cs.

(** A field step that always returns, as [step_summary] has it. *)
Definition returning
    (op : nat -> Which -> option Z -> list FactRef -> M (option Z)) : Prop :=
  forall st j f which prev_time later_facts, new_facts st !! j = Some f ->
    exists prev' st' f' cs,
      op j which prev_time later_facts st = Returned prev' st' /\
      step_summary j which f st st' f' cs.

(** A field step that returns as [step_summary] has it, or raises
    [OverflowError] and leaves the state as it found it. *)
Definition summarised
    (op : nat -> Which -> option Z -> list FactRef -> M (option Z)) : Prop :=
  forall st j f which prev_time later_facts, new_facts st !! j = Some f ->
    (exists prev' st' f' cs,
       op j which prev_time later_facts st = Returned prev' st' /\
       step_summary j which f st st' f' cs) \/
    op j which prev_time later_facts st = Raised OverflowError st.

(** *** Resolved facts and timelines *)

Definition two_timestamps (f : Fact) (s e : Z) : Prop :=
  fact_start f = Datetime s /\ fact_end f = Datetime e.

Definition all_resolved (facts : list Fact) : Prop :=
  forall i f, facts !! i = Some f -> exists s e, two_timestamps f s e.

(** Every fact has its two timestamps, starts no later than it ends, and
    ends no later than the next fact starts. *)
Definition resolved_in_order (facts : list Fact) : Prop :=
  (forall i f, facts !! i = Some f -> exists s e, two_timestamps f s e /\ s <= e) /\
  (forall i f g e s, facts !! i = Some f -> facts !! Datatypes.S i = Some g ->
     fact_end f = Datetime e -> fact_start g = Datetime s -> e <= s).

(** An executable test of [resolved_in_order], given the end before. *)
Fixpoint in_orderb (prev : option Z) (facts : list Fact) : bool :=
  match facts with
  | [] => true
  | f :: rest =>
      match fact_start f, fact_end f with
      | Datetime s, Datetime e =>
          match prev with Some p => p <=? s | None => true end
          && (s <=? e) && in_orderb (Some e) rest
      | _, _ => false
      end
  end.

(** The timeline of the batch between its stored neighbours: the facts
    are resolved and in order, the antecedent's end (when it has one)
    does not pass the first start, and the last end does not pass the
    subsequent fact's start. *)
Definition timeline_in_order (ante_fact seqt_fact : option StoredFact)
    (facts : list Fact) : Prop :=
  resolved_in_order facts /\
  (forall ante e f s, ante_fact = Some ante -> stored_end ante = Some e ->
     facts !! 0%nat = Some f -> fact_start f = Datetime s -> e <= s) /\
  (forall seqt f e, seqt_fact = Some seqt -> last facts = Some f ->
     fact_end f = Datetime e ->
     exists s, stored_start seqt = Some s /\ e <= s).

(** *** The blank-fill pass *)

(** Fact [k] has been through the blank-fill pass: its end is not empty,
    and a field that is not a timestamp has a conflict for its fact. *)
Definition blank_done (st : State) (k : nat) : Prop :=
  exists f, new_facts st !! k = Some f /\
    truthy (fact_end f) = true /\
    (isinstance_datetime (fact_start f) = false \/
     isinstance_datetime (fact_end f) = false ->
     exists c, In c (conflicts st) /\ c_fact c = k).

(** *** The sanity pass *)

(** The conflicts the sanity pass appends for a fact that has its two
    timestamps, in the order of its three tests. *)
Definition starts_before_conflict (i : nat) (prev_time : option Z)
    (prev_fact : option FactRef) (s : Z) : list Conflict :=
  match prev_time with
  | Some prev =>
      if s <? prev then [mkConflict i prev_fact StartsBeforePreviousEnds] else []
  | None => []
  end.

Definition ends_after_conflict (i : nat) (next : option (Z * FactRef)) (e : Z)
  : list Conflict :=
  match next with
  | Some (next_time, next_fact) =>
      if e >? next_time then [mkConflict i (Some next_fact) EndsAfterNextStarts] else []
  | None => []
  end.

Definition starts_after_conflict (i : nat) (s e : Z) : list Conflict :=
  if s >? e then [mkConflict i None StartsAfterItEnds] else [].

(** A conflict of the sanity pass: an ordering conflict, and one about
    the start only when the start of its fact is a timestamp. *)
Definition sanity_conflict (facts : list Fact) (c : Conflict) : Prop :=
  reason_field (c_reason c) = None /\
  (c_reason c = EndsAfterNextStarts \/
   exists f, facts !! c_fact c = Some f /\ isinstance_datetime (fact_start f) = true).

Definition ordering_conflicts (i : nat) (f : Fact) (cs : list Conflict) : Prop :=
  Forall (fun c => c_fact c = i /\ reason_field (c_reason c) = None /\
                   (c_reason c = EndsAfterNextStarts \/
                    isinstance_datetime (fact_start f) = true)) cs.

(** The value of [prev_time] when the sanity pass reaches fact [k]. *)
Definition prev_at (ante_fact : option StoredFact) (facts : list Fact) (k : nat)
  : option Z :=
  match k with
  | O => prev_seed ante_fact
  | Datatypes.S k' =>
      match facts !! k' with
      | Some f => match fact_end f with Datetime e => Some e | _ => None end
      | None => None
      end
  end.

(** What the sanity pass has checked once [j] facts went through
    without a conflict. *)
Definition checked_upto (ante_fact seqt_fact : option StoredFact)
    (facts : list Fact) (j : nat) : Prop :=
  forall k f s e, (k < j)%nat -> facts !! k = Some f -> two_timestamps f s e ->
    s <= e /\
    (forall prev, prev_at ante_fact facts k = Some prev -> prev <= s) /\
    (forall seqt t, Datatypes.S k = length facts -> seqt_fact = Some seqt ->
       stored_start seqt = Some t -> e <= t).

(** *** Conflicts about a start *)

(** The conflicts that concern the start of a fact. *)
Definition start_reason (r : Reason) : bool :=
  match r with
  | CouldNotDecipherClock _ WStart | CouldNotInferDelta _ WStart
  | CouldNotTranslate _ WStart | CouldNotInferBlank WStart
  | StartsBeforePreviousEnds | StartsAfterItEnds => true
  | _ => false
  end.

Definition about_start (i : nat) (c : Conflict) : bool :=
  Nat.eqb (c_fact c) i && start_reason (c_reason c).

Definition could_not_translate_start (i : nat) (s : string) : Conflict :=
  mkConflict i None (CouldNotTranslate (Text s) WStart).

(** The start of fact [i] is still the text [s], and [X] lists the
    conflicts recorded about it. *)
Definition tracked (i : nat) (s : string) (X : list Conflict) (st : State) : Prop :=
  (exists f, new_facts st !! i = Some f /\ fact_start f = Text s) /\
  List.filter (about_start i) (conflicts st) = X.

(** ** Scenarios *)

Definition no_neighbours : Controller :=
  fixed_store None None (on_2020_01_01 15 0).

(** A batch between two stored facts: a clock time, a delta and blanks. *)
Definition scenario_c1_ante : StoredFact :=
  mkStored 1 (Some (on_2020_01_01 0 0)) (Some (on_2020_01_01 0 30)).

Definition scenario_c1_seqt : StoredFact :=
  mkStored 2 (Some (on_2020_01_01 23 30)) (Some (on_2020_01_01 23 45)).

Definition scenario_c1_store : Controller :=
  fixed_store (Some scenario_c1_ante) (Some scenario_c1_seqt) (on_2020_01_01 23 50).

Definition scenario_c1_facts : list Fact :=
  [new_fact (Datetime (on_2020_01_01 1 0)) (Text "10:00");
   new_fact (Text "+30") Absent;
   new_fact Absent (Datetime (on_2020_01_01 23 0))].

Definition scenario_c1_st1 : State :=
  mkState scenario_c1_facts [] [CallAntecedent (on_2020_01_01 1 0)].

Definition scenario_c1_st2 : State :=
  mkState scenario_c1_facts []
    [CallAntecedent (on_2020_01_01 1 0); CallSubsequent (on_2020_01_01 23 0)].

Definition scenario_c1_final : State :=
  mkState
    [new_fact (Datetime (on_2020_01_01 1 0)) (Datetime (on_2020_01_01 10 0));
     new_fact (Datetime (on_2020_01_01 10 30)) (Datetime (on_2020_01_01 23 0));
     new_fact (Datetime (on_2020_01_01 23 0)) (Datetime (on_2020_01_01 23 0))]
    []
    [CallAntecedent (on_2020_01_01 1 0); CallSubsequent (on_2020_01_01 23 0)].

(** A batch that fails: the second fact has an unparsed start, and the
    end of the first, the delta "+30", has been overwritten with the
    resolved 10:30 all the same. *)
Definition scenario_c2_facts : list Fact :=
  [new_fact (Datetime (on_2020_01_01 10 0)) (Text "+30");
   new_fact (Text "garbage") (Datetime (on_2020_01_01 12 0))].



(** The stores of the two single-fact scenarios: an antecedent ending at
    09:00 with the clock at 09:30, and one ending at 12:00 with the
    clock at 15:00. *)
Definition scenario_c4_store : Controller :=
  fixed_store (Some (mkStored 1 (Some (on_2020_01_01 8 0)) (Some (on_2020_01_01 9 0))))
              None (on_2020_01_01 9 30).

Definition scenario_c5_store : Controller :=
  fixed_store (Some (mkStored 1 (Some (on_2020_01_01 11 0)) (Some (on_2020_01_01 12 0))))
              None (on_2020_01_01 15 0).

Definition scenario_c6_facts : list Fact :=
  [new_fact (Datetime (on_2020_01_01 9 0)) (Datetime (on_2020_01_01 10 0));
   new_fact (Datetime (on_2020_01_01 10 0)) (Datetime (on_2020_01_01 11 30))].

Definition scenario_c7_facts : list Fact :=
  [new_fact (Text "garbage") (Datetime (on_2020_01_01 12 0))].

(** A fact with no start and nothing to take one from. *)
Definition scenario_c8_state : State :=
  mkState [new_fact Absent (Datetime (on_2020_01_01 12 0))] [] [].

Definition scenario_c8_after_blank : State :=
  mkState [new_fact Absent (Datetime (on_2020_01_01 12 0))]
    [mkConflict 0 None (CouldNotInferBlank WStart)] [].

(** A stored fact that is still open, before a single new fact. *)
Definition open_antecedent : StoredFact :=
  mkStored 1 (Some (on_2020_01_01 10 0)) None.

Definition scenario_c9_store : Controller :=
  fixed_store (Some open_antecedent) None (on_2020_01_01 13 0).

Definition scenario_c9_fact : Fact :=
  new_fact (Datetime (on_2020_01_01 11 0)) (Datetime (on_2020_01_01 12 0)).

Definition scenario_c9_st1 : State :=
  mkState [scenario_c9_fact] [] [CallAntecedent (on_2020_01_01 11 0)].

Definition scenario_c9_st2 : State :=
  mkState [scenario_c9_fact] []
    [CallAntecedent (on_2020_01_01 11 0); CallSubsequent (on_2020_01_01 12 0)].

(** ** Definitions for further properties of the resolver *)

(** The state an outcome ends in. *)
Definition final_state {A} (o : Outcome A) : State :=
  match o with Returned _ st | Raised _ st => st end.

(** The batch [facts] still holds what the batch [facts0] came with: as
    many facts, each with its primary key, and every field that was a
    timestamp with that same timestamp. *)
Definition keeps_given (facts0 facts : list Fact) : Prop :=
  length facts = length facts0 /\
  forall i f0, facts0 !! i = Some f0 ->
    exists f, facts !! i = Some f /\
      fact_pk f = fact_pk f0 /\
      forall which t, getattr f0 which = Datetime t -> getattr f which = Datetime t.

(** No field of the batch is a timestamp. *)
Definition no_timestamp (facts : list Fact) : Prop :=
  forall i f, facts !! i = Some f ->
    isinstance_datetime (fact_start f) = false /\
    isinstance_datetime (fact_end f) = false.

Definition is_new_ref (r : FactRef) : Prop :=
  match r with RNew _ => True | RStored _ => False end.

(** The state [st'] is [st] with conflicts appended. *)
Definition conflicts_added (st st' : State) : Prop :=
  exists cs, st' = add_conflicts st cs.

(** The state [st'] is [st] but for calls of [now] added to the log. *)
Definition only_now_called (calls0 : list StoreCall) (st : State) : Prop :=
  exists extra, store_calls st = calls0 ++ extra /\ Forall (fun c => c = CallNow) extra.

(** The first timestamp of the batch, reading each fact's start before
    its end; and the last one, reading from the back and each fact's end
    before its start. *)
Fixpoint first_timestamp (facts : list Fact) : option Z :=
  match facts with
  | [] => None
  | f :: rest =>
      match fact_start f, fact_end f with
      | Datetime t, _ => Some t
      | _, Datetime t => Some t
      | _, _ => first_timestamp rest
      end
  end.

Fixpoint last_timestamp_from (reversed : list Fact) : option Z :=
  match reversed with
  | [] => None
  | f :: rest =>
      match fact_end f, fact_start f with
      | Datetime t, _ => Some t
      | _, Datetime t => Some t
      | _, _ => last_timestamp_from rest
      end
  end.

Definition last_timestamp (facts : list Fact) : option Z :=
  last_timestamp_from (rev facts).

(** The store calls that look up the neighbours of a batch. *)
Definition neighbour_calls (facts : list Fact) : list StoreCall :=
  match first_timestamp facts with Some t => [CallAntecedent t] | None => [] end ++
  match last_timestamp facts with Some t => [CallSubsequent t] | None => [] end.

(** Decidable forms of [no_timestamp] and [timeline_in_order]. *)
Definition no_timestampb (facts : list Fact) : bool :=
  forallb (fun f => negb (isinstance_datetime (fact_start f))
                    && negb (isinstance_datetime (fact_end f))) facts.

Definition timeline_in_orderb (ante_fact seqt_fact : option StoredFact)
    (facts : list Fact) : bool :=
  in_orderb (prev_seed ante_fact) facts &&
  match seqt_fact, last facts with
  | Some seqt, Some f =>
      match fact_end f, stored_start seqt with
      | Datetime e, Some s => e <=? s
      | Datetime _, None => false
      | _, _ => true
      end
  | _, _ => true
  end.

(** A resolved batch between two stored facts. *)
Definition scenario_ordered_ante : StoredFact :=
  mkStored 1 (Some (on_2020_01_01 7 0)) (Some (on_2020_01_01 8 0)).

Definition scenario_ordered_seqt : StoredFact :=
  mkStored 2 (Some (on_2020_01_01 12 0)) None.

Definition scenario_ordered_store : Controller :=
  fixed_store (Some scenario_ordered_ante) (Some scenario_ordered_seqt)
    (on_2020_01_01 13 0).

Definition scenario_ordered_calls : list StoreCall :=
  [CallAntecedent (on_2020_01_01 9 0); CallSubsequent (on_2020_01_01 11 30)].

(** The fact at [i] has neither start nor end. *)
Definition blank_fact_at (i : nat) (st : State) : Prop :=
  exists f, new_facts st !! i = Some f /\ fact_start f = Absent /\ fact_end f = Absent.

(** A fact with a relative end, and one with a relative start. *)
Definition scenario_duration_fact : Fact :=
  new_fact (Datetime (on_2020_01_01 10 0)) (Text "+30").

Definition scenario_duration_final : State :=
  mkState [new_fact (Datetime (on_2020_01_01 10 0)) (Datetime (on_2020_01_01 10 30))] []
    [CallAntecedent (on_2020_01_01 10 0); CallSubsequent (on_2020_01_01 10 0)].

Definition scenario_count_back_fact : Fact :=
  new_fact (Text "-15") (Datetime (on_2020_01_01 10 0)).

Definition scenario_count_back_final : State :=
  mkState [new_fact (Datetime (on_2020_01_01 9 45)) (Datetime (on_2020_01_01 10 0))] []
    [CallAntecedent (on_2020_01_01 10 0); CallSubsequent (on_2020_01_01 10 0)].

(** ** [mend_facts_times]

    The second entry point of [fix_times.py] completes the times of one
    fact from a time hint.  The fact is a reference [fact] into
    [new_facts], as in the resolver.  [controller.facts.insert_forcefully]
    and [time_helpers.validate_start_end_range] are the store's and
    nark's: they are taken as arbitrary computations, which may change
    the state and may raise. *)

(** [fact.end = None] on the i-th new fact. *)
Definition setattr_none (i : nat) (which : Which) : M unit :=
  fun st =>
    match new_facts st !! i with
    | Some f =>
        Returned tt (mkState (<[i := with_attr f which Absent]> (new_facts st))
                             (conflicts st) (store_calls st))
    | None => Raised IndexError st
    end.

Definition new_fact_fill_now (fact : nat) (time_hint : string) (now_ : Z) : M bool :=
  if String.eqb time_hint "verify_none" then
    let* fact_start := read_attr fact WStart in
    py_assert (negb (truthy fact_start)) ;;;
    let* fact_end := read_attr fact WEnd in
    py_assert (negb (truthy fact_end)) ;;;
    setattr fact WStart now_ ;;;
    ret true
  else if String.eqb time_hint "verify_both" then
    let* fact_start := read_attr fact WStart in
    (if truthy fact_start
     then let* fact_end := read_attr fact WEnd in py_assert (truthy fact_end)
     else py_assert false) ;;;
    ret false
  else if String.eqb time_hint "verify_start" then
    let* fact_end := read_attr fact WEnd in
    py_assert (negb (truthy fact_end)) ;;;
    let* fact_start := read_attr fact WStart in
    (if negb (truthy fact_start) then setattr fact WStart now_ else ret tt) ;;;
    ret true
  else if String.eqb time_hint "verify_end" then
    let* fact_start := read_attr fact WStart in
    py_assert (negb (truthy fact_start)) ;;;
    let* fact_end := read_attr fact WEnd in
    (if negb (truthy fact_end) then setattr fact WEnd now_ else ret tt) ;;;
    ret false
  else ret false.

Section Mend.

Variable Conflicts : Type.
Variable controller : Controller.
Variable insert_forcefully : nat -> M Conflicts.
Variable validate_start_end_range : TimeVal * TimeVal -> M unit.

Definition _mend_facts_times (fact : nat) (time_hint : string) : M Conflicts :=
  let* leave_open := new_fact_fill_now fact time_hint (now controller) in
  let* conflicts_ := insert_forcefully fact in
  let* fact_start := read_attr fact WStart in
  let* fact_end := read_attr fact WEnd in
  validate_start_end_range (fact_start, fact_end) ;;;
  (if leave_open : bool then setattr_none fact WEnd else ret tt) ;;;
  ret conflicts_.

Definition mend_facts_times (fact : nat) (time_hint : string) : M Conflicts :=
  _mend_facts_times fact time_hint.

End Mend.

(** The time hints [new_fact_fill_now] knows. *)
Definition known_hints : list string :=
  ["verify_none"; "verify_both"; "verify_start"; "verify_end"].

(** The hints under which the fact is left open. *)
Definition open_hints : list string := ["verify_none"; "verify_start"].

(** A store that accepts every fact as it is, and a range check that
    only refuses a start after the end. *)
Definition accept_forcefully (fact : nat) : M (list Conflict) := ret [].

Definition start_before_end (range : TimeVal * TimeVal) : M unit :=
  match range with
  | (Datetime s, Datetime e) => py_assert (s <=? e)
  | _ => ret tt
  end.

Definition scenario_mend_state : State :=
  mkState [new_fact (Datetime (on_2020_01_01 9 0)) Absent] [] [].

(** ** [ascii_table.py]

    The table helpers work on rows of cells.  The callers put names
    (text, or [None]) and usage counts (integers) in the cells; text is
    taken as ASCII, so that [len] is [String.length].  Exceptions are
    results: nothing here has state but [generate_table]'s display,
    which is the table libraries' and is left out, as is the colouring of
    the headers; [click.get_terminal_size()] is the argument
    [term_width]. *)

Inductive Cell : Type :=
| CNone
| CStr (s : string)
| CInt (n : Z).

Inductive TableExn : Type :=
| TableAssertionError
| TableIndexError
| TableTypeError.

Inductive Result (A : Type) : Type :=
| Ok (a : A)
| Err (e : TableExn).

Arguments Ok {A} a.
Arguments Err {A} e.

(** [str(col)]. *)
Definition str (col : Cell) : string :=
  match col with
  | CNone => "None"
  | CStr s => s
  | CInt n => NilZero.string_of_int (Z.to_int n)
  end.

Definition len (s : string) : Z := Z.of_nat (String.length s).

(** Python truthiness of a cell: [None], the empty text and [0] are
    false. *)
Definition cell_truthy (col : Cell) : bool :=
  match col with
  | CNone => false
  | CStr s => negb (String.eqb s EmptyString)
  | CInt n => negb (n =? 0)
  end.

(** The position [seq[k]] reads and writes in a sequence of length [n]:
    a negative [k] counts from the end, and [None] stands for
    [IndexError]. *)
Definition py_position (n : nat) (k : Z) : option nat :=
  if 0 <=? k then
    if k <? Z.of_nat n then Some (Z.to_nat k) else None
  else
    if - Z.of_nat n <=? k then Some (Z.to_nat (Z.of_nat n + k)) else None.

Definition py_index {A} (l : list A) (k : Z) : option A :=
  match py_position (length l) k with
  | Some i => l !! i
  | None => None
  end.

(** The inner loop of [_generate_table_width_content]:
    [max_widths[idx] = max(max_widths[idx], len(str(col)))] for each
    [idx, col] of [enumerate(row)]. *)
Fixpoint widen_row (max_widths : list Z) (idx : nat) (row : list Cell)
  : Result (list Z) :=
  match row with
  | [] => Ok max_widths
  | col :: rest =>
      match max_widths !! idx with
      | Some width =>
          widen_row (<[idx := Z.max width (len (str col))]> max_widths)
            (Datatypes.S idx) rest
      | None => Err TableIndexError
      end
  end.

Fixpoint widen_rows (max_widths : list Z) (rows : list (list Cell))
  : Result (list Z) :=
  match rows with
  | [] => Ok max_widths
  | row :: rest =>
      match widen_row max_widths 0 row with
      | Ok max_widths' => widen_rows max_widths' rest
      | Err e => Err e
      end
  end.

(** The second loop: the widths of all columns but [trunccol]. *)
Fixpoint width_used (trunccol : Z) (idx : nat) (max_widths : list Z)
    (column_width_used : Z) : Z :=
  match max_widths with
  | [] => column_width_used
  | width :: rest =>
      width_used trunccol (Datatypes.S idx) rest
        (if Z.of_nat idx =? trunccol then column_width_used
         else column_width_used + width)
  end.

Definition _generate_table_width_content (rows : list (list Cell)) (num_cols : nat)
    (trunccol : Z) : Result Z :=
  match widen_rows (replicate num_cols 0) rows with
  | Ok max_widths => Ok (width_used trunccol 0 max_widths 0)
  | Err e => Err e
  end.

Definition _generate_table_width_border (rows : list (list Cell)) (num_cols : nat)
    (table_type : string) : Z :=
  let n_inner_borders := Z.of_nat num_cols - 1 in
  let border_width_used := 2 + n_inner_borders * 5 + 2 in
  let border_width_used :=
    if String.eqb table_type "texttable" || String.eqb table_type "friendly"
    then border_width_used - 2 else border_width_used in
  border_width_used + 1.

Definition _generate_table_max_width (term_width : Z) (rows : list (list Cell))
    (headers : list string) (table_type : string) (truncate : bool)
    (trunccol : option Z) : Result Z :=
  match truncate, rows with
  | false, _ | _, [] => Ok (-1)
  | true, row0 :: _ =>
      let num_cols := length row0 in
      match trunccol with
      | None => Err TableAssertionError
      | Some trunccol =>
          match _generate_table_width_content rows num_cols trunccol with
          | Err e => Err e
          | Ok column_width_used =>
              let border_width_used :=
                _generate_table_width_border rows num_cols table_type in
              let ellipsis_width := 3 in
              let max_width :=
                term_width - (border_width_used + column_width_used + ellipsis_width) in
              match py_index headers trunccol with
              | None => Err TableIndexError
              | Some header =>
                  let min_avail := len header - ellipsis_width in
                  Ok (Z.max 0 (Z.max min_avail max_width))
              end
          end
      end
  end.

(** The body of the loop of [_generate_table_truncate_cell_values], for
    one row. *)
Definition truncate_row (row : list Cell) (trunccol : option Z) (max_width : Z)
  : Result (list Cell) :=
  match trunccol with
  | None => Err TableTypeError
  | Some trunccol =>
      match py_position (length row) trunccol with
      | None => Err TableIndexError
      | Some k =>
          match row !! k with
          | None => Err TableIndexError
          | Some cell =>
              let truncval := if cell_truthy cell then cell else CStr EmptyString in
              if 0 <=? max_width then
                match truncval with
                | CStr s =>
                    if max_width <=? len s
                    then Ok (<[k := CStr (substring 0 (Z.to_nat max_width) s ++ "...")]>
                               row)
                    else Ok row
                | _ => Err TableTypeError
                end
              else Ok row
          end
      end
  end.

Fixpoint _generate_table_truncate_cell_values (rows : list (list Cell))
    (trunccol : option Z) (max_width : Z) : Result (list (list Cell)) :=
  match rows with
  | [] => Ok []
  | row :: rest =>
      match truncate_row row trunccol max_width with
      | Err e => Err e
      | Ok trow =>
          match _generate_table_truncate_cell_values rest trunccol max_width with
          | Err e => Err e
          | Ok trows => Ok (trow :: trows)
          end
      end
  end.

(** [generate_table], up to the rows it hands to
    [_generate_table_display]. *)
Definition generate_table (term_width : Z) (rows : list (list Cell))
    (headers : list string) (table_type : string) (truncate : bool)
    (trunccol : option Z) : Result (list (list Cell)) :=
  match _generate_table_max_width term_width rows headers table_type truncate
          trunccol with
  | Err e => Err e
  | Ok max_width => _generate_table_truncate_cell_values rows trunccol max_width
  end.

(** The text of a cell of the elastic column as the table shows it. *)
Definition shown_len (col : Cell) : Z := len (str col).

(** The width the layout computation counts for a table whose elastic
    column is [w] wide. *)
Definition table_width (rows : list (list Cell)) (num_cols : nat) (table_type : string)
    (column_width_used w : Z) : Z :=
  _generate_table_width_border rows num_cols table_type + column_width_used + w.

Definition scenario_tag_rows : list (list Cell) :=
  [[CStr "a-rather-long-tag-name"; CInt 12]; [CStr "short"; CInt 3]; [CNone; CInt 0]].

Definition scenario_tag_headers : list string := ["Name"; "Uses"].

Definition scenario_tag_truncated : list (list Cell) :=
  [[CStr "a-rather-long-tag..."; CInt 12]; [CStr "short"; CInt 3]; [CNone; CInt 0]].

(** The field [which] of the fact at [i] holds [v]. *)
Definition field_is (i : nat) (which : Which) (v : TimeVal) (st : State) : Prop :=
  exists f, new_facts st !! i = Some f /\ getattr f which = v.

(** Two facts with a blank between them. *)
Definition scenario_gap_end_facts : list Fact :=
  [new_fact (Datetime (on_2020_01_01 9 0)) Absent;
   new_fact (Datetime (on_2020_01_01 10 0)) (Datetime (on_2020_01_01 11 0))].

Definition scenario_gap_end_final : State :=
  mkState
    [new_fact (Datetime (on_2020_01_01 9 0)) (Datetime (on_2020_01_01 10 0));
     new_fact (Datetime (on_2020_01_01 10 0)) (Datetime (on_2020_01_01 11 0))]
    [] [CallAntecedent (on_2020_01_01 9 0); CallSubsequent (on_2020_01_01 11 0)].

Definition scenario_gap_start_facts : list Fact :=
  [new_fact (Datetime (on_2020_01_01 9 0)) (Text "+45");
   new_fact Absent (Datetime (on_2020_01_01 11 0))].

Definition scenario_gap_start_final : State :=
  mkState
    [new_fact (Datetime (on_2020_01_01 9 0)) (Datetime (on_2020_01_01 9 45));
     new_fact (Datetime (on_2020_01_01 9 45)) (Datetime (on_2020_01_01 11 0))]
    [] [CallAntecedent (on_2020_01_01 9 0); CallSubsequent (on_2020_01_01 11 0)].

(** A fact with a clock time for end, and one with a clock time for
    start. *)
Definition scenario_clock_end_fact : Fact :=
  new_fact (Datetime (on_2020_01_01 9 0)) (Text "14:00").

Definition scenario_clock_end_final : State :=
  mkState [new_fact (Datetime (on_2020_01_01 9 0)) (Datetime (on_2020_01_01 14 0))] []
    [CallAntecedent (on_2020_01_01 9 0); CallSubsequent (on_2020_01_01 9 0)].

Definition scenario_clock_start_fact : Fact :=
  new_fact (Text "08:30") (Datetime (on_2020_01_01 9 0)).

Definition scenario_clock_start_final : State :=
  mkState [new_fact (Datetime (on_2020_01_01 8 30)) (Datetime (on_2020_01_01 9 0))] []
    [CallAntecedent (on_2020_01_01 9 0); CallSubsequent (on_2020_01_01 9 0)].

(** A batch whose last fact has no end. *)
Definition scenario_open_end_final : State :=
  mkState [new_fact (Datetime (on_2020_01_01 9 0)) (Datetime (on_2020_01_01 15 0))] []
    [CallAntecedent (on_2020_01_01 9 0); CallSubsequent (on_2020_01_01 9 0); CallNow].

(** ** [hamster_cli.py]: the description [search] looks for

    The [search] command folds its positional [search_term]s into the
    [--description] option before it calls [search_facts]; this is the
    description it hands over ([None] is no description). *)
Definition search_description (description : option string) (search_term : list string)
  : option string :=
  match search_term with
  | [] => description
  | _ =>
      let description :=
        match description with
        | Some s => if String.eqb s EmptyString then EmptyString else s
        | None => EmptyString
        end in
      let description :=
        (description ++
         (if String.eqb description EmptyString then EmptyString else " AND "))%string in
      Some (description ++ String.concat " AND " search_term)%string
  end.

(** The description option as a list of conditions: none when it is
    missing or empty. *)
Definition given_description (description : option string) : list string :=
  match description with
  | Some s => if String.eqb s EmptyString then [] else [s]
  | None => []
  end.

(** ** The clock-time pass, from the spec's words

    What the spec says of the clock-time pass, written as a fold over
    the batch, to be compared with [fix_clock_times_relative].  For each
    fact, for start then end: a field that holds a timestamp advances
    the cursor to it; a field that holds a clock time is resolved
    against the anchor [clock_anchor] chooses among (a) the fact's own
    opposite field, (b) the cursor and (c) the nearest later timestamp,
    and then the field and the cursor take the timestamp, or one conflict
    for the fact and the field is appended and the field is left as it
    is; any other field is passed over.  The cursor starts from the end
    of the antecedent stored fact. *)






(** The timeline as the monotonicity claim words it: every adjacent
    pair, the antecedent and the first fact included, has the earlier
    fact's end no later than the later fact's start; so the antecedent
    has an end. *)
Definition timeline_in_order_as_claimed (ante_fact seqt_fact : option StoredFact)
    (facts : list Fact) : Prop :=
  resolved_in_order facts /\
  (forall ante f s, ante_fact = Some ante ->
     facts !! 0%nat = Some f -> fact_start f = Datetime s ->
     exists e, stored_end ante = Some e /\ e <= s) /\
  (forall seqt f e, seqt_fact = Some seqt -> last facts = Some f ->
     fact_end f = Datetime e ->
     exists s, stored_start seqt = Some s /\ e <= s).

(** ** Reasoning about the monad *)

Lemma bind_returned {A B} (m : M A) (k : A -> M B) st b st' :
  bind m k st = Returned b st' ->
  exists a st1, m st = Returned a st1 /\ k a st1 = Returned b st'.
Proof.
  unfold bind. destruct (m st) as [a st1|e st1]; [eauto | discriminate].
Qed.

Lemma bind_eq {A B} (m : M A) (k : A -> M B) st a st1 :
  m st = Returned a st1 -> bind m k st = k a st1.
Proof. unfold bind. intros ->. reflexivity. Qed.

Lemma bind_assoc {A B C} (m : M A) (k : A -> M B) (k' : B -> M C) st :
  bind (bind m k) k' st = bind m (fun a => bind (k a) k') st.
Proof. unfold bind. destruct (m st); reflexivity. Qed.

(** ** The field steps as values

    Each [fix_*_time_relative] at a fact of the batch, with its attribute
    reads resolved. *)

Lemma read_attr_eq st i f which :
  new_facts st !! i = Some f ->
  read_attr i which st = Returned (getattr f which) st.
Proof. unfold read_attr. intros ->. reflexivity. Qed.

(** ** Outcome predicates and the loop over the batch *)

Lemma wp_bind {A B} (m : M A) (k : A -> M B) st Q E :
  wp m st (fun a st1 => wp (k a) st1 Q E) E -> wp (bind m k) st Q E.
Proof. unfold wp, bind. destruct (m st); auto. Qed.

Lemma wp_mono {A} (m : M A) st (Q Q' : A -> State -> Prop) (E E' : Exn -> State -> Prop) :
  (forall a s, Q a s -> Q' a s) -> (forall e s, E e s -> E' e s) ->
  wp m st Q E -> wp m st Q' E'.
Proof. unfold wp. destruct (m st); auto. Qed.

Lemma wp_returned {A} (m : M A) st Q E a st' :
  wp m st Q E -> m st = Returned a st' -> Q a st'.
Proof. unfold wp. intros H Heq. rewrite Heq in H. exact H. Qed.

Lemma wp_raised {A} (m : M A) st Q E e st' :
  wp m st Q E -> m st = Raised e st' -> E e st'.
Proof. unfold wp. intros H Heq. rewrite Heq in H. exact H. Qed.

Lemma later_from_lt k n tail :
  (k < n)%nat -> later_from k n tail = RNew k :: later_from (S k) n tail.
Proof.
  intros Hk. unfold later_from.
  replace (n - k)%nat with (S (n - S k)) by lia. reflexivity.
Qed.

Lemma later_from_ge k n tail : (n <= k)%nat -> later_from k n tail = tail.
Proof.
  intros Hk. unfold later_from.
  replace (n - k)%nat with 0%nat by lia. reflexivity.
Qed.

Lemma all_new_later_from n tail : all_new n ++ tail = later_from 0 n tail.
Proof. unfold all_new, later_from. rewrite Nat.sub_0_r. reflexivity. Qed.

(** The loop rule: an invariant [I k s st] over the number [k] of facts
    done, the carried variables and the state. *)
Lemma for_each_fact_wp {S : Type} (body : nat -> list FactRef -> S -> M S)
    (tail : list FactRef) (n : nat) (I : nat -> S -> State -> Prop)
    (E : Exn -> State -> Prop) :
  (forall i s st, (i < n)%nat -> I i s st ->
     wp (body i (later_from (Datatypes.S i) n tail) s) st (I (Datatypes.S i)) E) ->
  forall m k s st, (k + m = n)%nat -> I k s st ->
    wp (for_each_fact body (seq k m) (later_from k n tail) s) st (I n) E.
Proof.
  intros Hbody m. induction m as [|m IH]; intros k s st Hk HI.
  - simpl. unfold wp, ret. replace n with k by lia. exact HI.
  - simpl. rewrite later_from_lt by lia.
    unfold is_same. rewrite Nat.eqb_refl. unfold py_assert.
    apply wp_bind. unfold wp at 1, ret.
    apply wp_bind.
    eapply wp_mono; [| | apply Hbody; [lia | exact HI]].
    + intros s' st' HI'. apply IH; [lia | exact HI'].
    + auto.
Qed.

Lemma for_new_facts_wp {S : Type} (body : nat -> list FactRef -> S -> M S)
    (tail : list FactRef) (I : nat -> S -> State -> Prop)
    (E : Exn -> State -> Prop) s st :
  let n := length (new_facts st) in
  (forall i s st, (i < n)%nat -> I i s st ->
     wp (body i (later_from (Datatypes.S i) n tail) s) st (I (Datatypes.S i)) E) ->
  I 0%nat s st ->
  wp (for_new_facts body (all_new n ++ tail) s) st (I n) E.
Proof.
  intros n Hbody HI. unfold for_new_facts.
  apply wp_bind. unfold wp at 1, gets. fold n.
  rewrite all_new_later_from.
  apply (for_each_fact_wp body tail n I E Hbody n 0%nat); [lia | exact HI].
Qed.

(** ** The anchors: [prev_and_later] and the store lookups *)

Lemma prev_and_later_cases ongoing_okay ante_fact seqt_fact st :
  prev_and_later ongoing_okay ante_fact seqt_fact st = Raised AssertionError st \/
  prev_and_later ongoing_okay ante_fact seqt_fact st =
    Returned (prev_seed ante_fact,
              all_new (length (new_facts st)) ++ seqt_tail seqt_fact) st /\
  (forall seqt, seqt_fact = Some seqt -> exists t, stored_start seqt = Some t).
Proof.
  unfold prev_and_later, prev_seed, seqt_tail, bind, gets, ret, raise.
  destruct ante_fact as [ante|]; [destruct (stored_end ante) as [t|] |];
    try destruct (negb ongoing_okay && Nat.eqb (length (new_facts st)) 1
                  && is_none seqt_fact)%bool;
    destruct seqt_fact as [seqt|]; try destruct (stored_start seqt) as [t'|] eqn:Hs;
    auto; right; (split; [try rewrite app_nil_r; reflexivity|]);
    intros q Hq; inversion Hq; subst; eauto; discriminate.
Qed.

Lemma fix_clock_time_relative_eq nark st fact f which prev_time later_facts :
  new_facts st !! fact = Some f ->
  fix_clock_time_relative nark fact which prev_time later_facts st =
    match getattr f which with
    | Absent => Returned prev_time st
    | Datetime t => Returned (Some t) st
    | Text s =>
        match parse_clock_time nark s with
        | None => Returned prev_time st
        | Some clock_time =>
            match clock_resolution nark which
                    (clock_anchor (getattr f (opposite which)) prev_time
                       (fst <$> find_next_datetime (new_facts st) later_facts))
                    clock_time with
            | Some dt =>
                Returned (Some dt) (set_fact st fact (with_attr f which (Datetime dt)))
            | None =>
                Returned prev_time
                  (add_conflict st
                     (mkConflict fact None (CouldNotDecipherClock clock_time which)))
            end
        end
    end.
Proof.
  intros Hf.
  unfold fix_clock_time_relative.
  rewrite (bind_eq _ _ _ _ _ (read_attr_eq st fact f which Hf)).
  destruct (getattr f which) as [|t|s]; try reflexivity.
  destruct (parse_clock_time nark s) as [clock_time|]; try reflexivity.
  unfold infer_datetime_from_clock.
  rewrite (bind_eq _ _ _ _ _ (read_attr_eq st fact f (opposite which) Hf)).
  unfold clock_anchor, clock_resolution, infer_from_clock_prior,
    infer_from_clock_after, next_datetime.
  destruct (find_next_datetime (new_facts st) later_facts)
    as [[next_time next_fact]|] eqn:Hnext;
    destruct (getattr f (opposite which)) as [|oppo|txt];
    destruct which, prev_time as [prev|];
    cbn [fmap option_fmap option_map fst];
    unfold bind, ret, gets, conflicts_append, add_conflict;
    rewrite ?Hnext;
    repeat match goal with
    | |- context [datetime_from_clock_prior nark ?a ?b] =>
        destruct (datetime_from_clock_prior nark a b)
    | |- context [datetime_from_clock_after nark ?a ?b] =>
        destruct (datetime_from_clock_after nark a b)
    end;
    unfold setattr; try rewrite Hf; reflexivity.
Qed.


Lemma plus_minutes_eq dt delta_mins st :
  plus_minutes dt delta_mins st =
    match minutes_after dt delta_mins with
    | Some sum => Returned sum st
    | None => Raised OverflowError st
    end.
Proof.
  unfold plus_minutes, minutes_after, timedelta_minutes, datetime_add, bind, ret, raise.
  cbv zeta.
  destruct (Z.abs (60 * delta_mins / 86400) <=? timedelta_max_days); [|reflexivity].
  cbn [andb].
  destruct ((datetime_min <=? dt + 60 * delta_mins)
            && (dt + 60 * delta_mins <=? datetime_max))%bool; reflexivity.
Qed.

Lemma minutes_after_some dt delta_mins sum :
  minutes_after dt delta_mins = Some sum -> sum = dt + 60 * delta_mins.
Proof.
  unfold minutes_after. destruct (_ && _)%bool; intros H; inversion H; reflexivity.
Qed.

Lemma fix_delta_time_relative_eq nark st fact f which prev_time later_facts :
  new_facts st !! fact = Some f ->
  fix_delta_time_relative nark fact which prev_time later_facts st =
    match getattr f which with
    | Absent => Returned prev_time st
    | Datetime t => Returned (Some t) st
    | Text s =>
        match parse_relative_minutes nark s with
        | (None, _) => Returned prev_time st
        | (Some delta_mins, delta_minus) =>
            match delta_anchor which delta_minus (fact_end f) prev_time
                    (fst <$> find_next_datetime (new_facts st) later_facts) with
            | Some anchor =>
                match minutes_after anchor delta_mins with
                | Some dt =>
                    Returned (Some dt)
                      (set_fact st fact (with_attr f which (Datetime dt)))
                | None => Raised OverflowError st
                end
            | None =>
                Returned prev_time
                  (add_conflict st
                     (mkConflict fact None (CouldNotInferDelta delta_mins which)))
            end
        end
    end.
Proof.
  intros Hf.
  unfold fix_delta_time_relative.
  rewrite (bind_eq _ _ _ _ _ (read_attr_eq st fact f which Hf)).
  destruct (getattr f which) as [|t|s]; try reflexivity.
  destruct (parse_relative_minutes nark s) as [[delta_mins|] delta_minus];
    try reflexivity.
  unfold infer_datetime_from_delta, delta_anchor, next_datetime.
  destruct (find_next_datetime (new_facts st) later_facts)
    as [[next_time next_fact]|] eqn:Hnext;
    destruct delta_minus as [[|]|], which, prev_time as [prev|];
    unfold bind, ret, gets, conflicts_append, add_conflict, read_attr;
    rewrite ?Hf; cbn [getattr];
    try destruct (fact_end f) as [|e|txt];
    cbn [fmap option_fmap option_map fst];
    rewrite ?Hnext, ?plus_minutes_eq;
    repeat match goal with
    | |- context [minutes_after ?a ?b] => destruct (minutes_after a b)
    end;
    unfold setattr; try rewrite Hf; reflexivity.
Qed.

Lemma fix_blank_time_relative_eq controller st fact f which prev_time later_facts :
  new_facts st !! fact = Some f ->
  fix_blank_time_relative controller fact which prev_time later_facts st =
    match getattr f which with
    | Datetime t => Returned (Some t) st
    | v =>
        if truthy v then
          Returned prev_time
            (add_conflict st (mkConflict fact None (CouldNotTranslate v which)))
        else
          match which with
          | WStart =>
              match prev_time with
              | Some dt =>
                  Returned (Some dt)
                    (set_fact st fact (with_attr f WStart (Datetime dt)))
              | None =>
                  Returned None
                    (add_conflict st (mkConflict fact None (CouldNotInferBlank WStart)))
              end
          | WEnd =>
              match find_next_datetime (new_facts st) later_facts with
              | Some (dt, _) =>
                  Returned (Some dt)
                    (set_fact st fact (with_attr f WEnd (Datetime dt)))
              | None =>
                  Returned (Some (now controller))
                    (set_fact (add_call st CallNow) fact
                       (with_attr f WEnd (Datetime (now controller))))
              end
          end
    end.
Proof.
  intros Hf.
  unfold fix_blank_time_relative.
  rewrite (bind_eq _ _ _ _ _ (read_attr_eq st fact f which Hf)).
  destruct (getattr f which) as [|t|s]; try reflexivity;
    destruct (truthy _); try reflexivity;
    destruct which; unfold next_datetime;
    try destruct prev_time as [prev|];
    try (destruct (find_next_datetime (new_facts st) later_facts)
           as [[next_time next_fact]|] eqn:Hnext);
    unfold bind, ret, gets, conflicts_append, add_conflict, log_call, setattr,
      set_fact, add_call;
    rewrite ?Hnext; cbn [new_facts conflicts store_calls]; rewrite ?Hf;
    reflexivity.
Qed.

Lemma add_calls_nil st : add_calls st [] = st.
Proof. unfold add_calls. rewrite app_nil_r. destruct st; reflexivity. Qed.

Lemma antecedent_fact_from_cases controller facts st :
  antecedent_fact_from controller facts st = Returned None st \/
  exists t, antecedent_fact_from controller facts st =
              Returned (antecedent controller t) (add_calls st [CallAntecedent t]).
Proof.
  induction facts as [|f rest IH]; simpl.
  - left. reflexivity.
  - destruct (fact_start f) as [|t|s]; [| right; exists t; reflexivity |];
      (destruct (fact_end f) as [|t|s']; [| right; exists t; reflexivity |]);
      exact IH.
Qed.

Lemma subsequent_fact_from_cases controller facts st :
  subsequent_fact_from controller facts st = Returned None st \/
  exists t, subsequent_fact_from controller facts st =
              Returned (subsequent controller t) (add_calls st [CallSubsequent t]).
Proof.
  induction facts as [|f rest IH]; simpl.
  - left. reflexivity.
  - destruct (fact_end f) as [|t|s]; [| right; exists t; reflexivity |];
      (destruct (fact_start f) as [|t|s']; [| right; exists t; reflexivity |]);
      exact IH.
Qed.

(** Both lookups return, and only add store calls to the state. *)
Lemma antecedent_fact_returns controller st :
  exists ante calls,
    antecedent_fact controller st = Returned ante (add_calls st calls) /\
    (ante = None \/ exists t, ante = antecedent controller t).
Proof.
  unfold antecedent_fact, bind, gets.
  destruct (antecedent_fact_from_cases controller (new_facts st) st) as [H|[t H]];
    rewrite H.
  - exists None, []. rewrite add_calls_nil. auto.
  - eauto 6.
Qed.

Lemma subsequent_fact_returns controller st :
  exists seqt calls,
    subsequent_fact controller st = Returned seqt (add_calls st calls) /\
    (seqt = None \/ exists t, seqt = subsequent controller t).
Proof.
  unfold subsequent_fact, bind, gets.
  destruct (subsequent_fact_from_cases controller (rev (new_facts st)) st) as [H|[t H]];
    rewrite H.
  - exists None, []. rewrite add_calls_nil. auto.
  - eauto 6.
Qed.

(** ** Scanning forward *)

Lemma find_next_datetime_here facts k n tail g s :
  (k < n)%nat -> facts !! k = Some g -> fact_start g = Datetime s ->
  find_next_datetime facts (later_from k n tail) = Some (s, RNew k).
Proof.
  intros Hk Hg Hs. rewrite later_from_lt by exact Hk.
  simpl. rewrite Hg, Hs. reflexivity.
Qed.

Lemma find_next_datetime_tail facts seqt t :
  stored_start seqt = Some t ->
  find_next_datetime facts [RStored seqt] = Some (t, RStored seqt).
Proof. intros Hs. simpl. rewrite Hs. reflexivity. Qed.

Lemma prev_and_later_returned ongoing_okay ante_fact seqt_fact st pl st' :
  prev_and_later ongoing_okay ante_fact seqt_fact st = Returned pl st' ->
  st' = st /\
  pl = (prev_seed ante_fact, all_new (length (new_facts st)) ++ seqt_tail seqt_fact) /\
  (forall seqt, seqt_fact = Some seqt -> exists t, stored_start seqt = Some t).
Proof.
  intros H.
  destruct (prev_and_later_cases ongoing_okay ante_fact seqt_fact st) as [Hc|[Hc Hs]];
    rewrite Hc in H; [discriminate|].
  inversion H; subst. auto.
Qed.

(** ** A pass is its loop *)

(** A pass is its loop once [prev_and_later] has returned. *)
Lemma pass_wp {S : Type} ongoing_okay ante_fact seqt_fact
    (body : nat -> list FactRef -> S -> M S) (init : option Z -> S)
    (I : nat -> S -> State -> Prop) (E : Exn -> State -> Prop)
    (Q : State -> Prop) st pl :
  prev_and_later ongoing_okay ante_fact seqt_fact st = Returned pl st ->
  let n := length (new_facts st) in
  (forall i s st', (i < n)%nat -> I i s st' ->
     wp (body i (later_from (Datatypes.S i) n (seqt_tail seqt_fact)) s) st'
        (I (Datatypes.S i)) E) ->
  I 0%nat (init (prev_seed ante_fact)) st ->
  (forall s st', I n s st' -> Q st') ->
  wp (let* pl := prev_and_later ongoing_okay ante_fact seqt_fact in
      for_new_facts body (snd pl) (init (fst pl)) ;;; ret tt)
     st (fun _ => Q) E.
Proof.
  intros Hpl n Hbody Hinit HQ.
  destruct (prev_and_later_returned _ _ _ _ _ _ Hpl) as (_ & -> & _).
  apply wp_bind. unfold wp at 1. rewrite Hpl. cbn [fst snd].
  apply wp_bind.
  eapply wp_mono; [| | apply (for_new_facts_wp body (seqt_tail seqt_fact) I E);
                        [exact Hbody | exact Hinit]].
  - intros s st' HI. unfold wp, ret. eapply HQ. exact HI.
  - auto.
Qed.

(** ** C6: resolution of an already resolved batch *)

Lemma clock_body_resolved nark st i f s e later_facts prev_time :
  new_facts st !! i = Some f -> two_timestamps f s e ->
  (let* prev_time := fix_clock_time_relative nark i WStart prev_time later_facts in
   fix_clock_time_relative nark i WEnd prev_time later_facts) st = Returned (Some e) st.
Proof.
  intros Hf [Hs He].
  erewrite bind_eq by (rewrite (fix_clock_time_relative_eq _ _ _ _ _ _ _ Hf);
                       cbn [getattr]; rewrite Hs; reflexivity).
  rewrite (fix_clock_time_relative_eq _ _ _ _ _ _ _ Hf). cbn [getattr].
  rewrite He. reflexivity.
Qed.

Lemma delta_body_resolved nark st i f s e later_facts prev_time :
  new_facts st !! i = Some f -> two_timestamps f s e ->
  (let* prev_time := fix_delta_time_relative nark i WStart prev_time later_facts in
   fix_delta_time_relative nark i WEnd prev_time later_facts) st = Returned (Some e) st.
Proof.
  intros Hf [Hs He].
  erewrite bind_eq by (rewrite (fix_delta_time_relative_eq _ _ _ _ _ _ _ Hf);
                       cbn [getattr]; rewrite Hs; reflexivity).
  rewrite (fix_delta_time_relative_eq _ _ _ _ _ _ _ Hf). cbn [getattr].
  rewrite He. reflexivity.
Qed.

Lemma blank_body_resolved controller st i f s e later_facts prev_time :
  new_facts st !! i = Some f -> two_timestamps f s e ->
  (let* fact_start := read_attr i WStart in
   let* fact_end := read_attr i WEnd in
   py_assert (truthy fact_start || truthy fact_end) ;;;
   let* prev_time := fix_blank_time_relative controller i WStart prev_time later_facts in
   fix_blank_time_relative controller i WEnd prev_time later_facts) st
  = Returned (Some e) st.
Proof.
  intros Hf [Hs He].
  rewrite (bind_eq _ _ _ _ _ (read_attr_eq st i f WStart Hf)).
  rewrite (bind_eq _ _ _ _ _ (read_attr_eq st i f WEnd Hf)).
  cbn [getattr]. rewrite Hs, He. cbn [truthy orb py_assert].
  unfold bind at 1, ret at 1.
  erewrite bind_eq by (rewrite (fix_blank_time_relative_eq _ _ _ _ _ _ _ Hf);
                       cbn [getattr]; rewrite Hs; reflexivity).
  rewrite (fix_blank_time_relative_eq _ _ _ _ _ _ _ Hf). cbn [getattr].
  rewrite He. reflexivity.
Qed.

Lemma wp_no_raise {A} (m : M A) st (Q : A -> State -> Prop) :
  wp m st Q no_raise -> exists a st', m st = Returned a st' /\ Q a st'.
Proof. unfold wp, no_raise. destruct (m st); [eauto | tauto]. Qed.

(** A pass whose loop body returns without touching the state does the
    same; [J] follows the variables carried by the loop. *)
Lemma pass_keeps_state {S : Type} ongoing_okay ante_fact seqt_fact
    (body : nat -> list FactRef -> S -> M S) (init : option Z -> S)
    (J : nat -> S -> Prop) st pl :
  prev_and_later ongoing_okay ante_fact seqt_fact st = Returned pl st ->
  let n := length (new_facts st) in
  (forall i s, (i < n)%nat -> J i s ->
     exists s', body i (later_from (Datatypes.S i) n (seqt_tail seqt_fact)) s st
                = Returned s' st /\ J (Datatypes.S i) s') ->
  J 0%nat (init (prev_seed ante_fact)) ->
  (let* pl := prev_and_later ongoing_okay ante_fact seqt_fact in
   for_new_facts body (snd pl) (init (fst pl)) ;;; ret tt) st = Returned tt st.
Proof.
  intros Hpl n Hbody Hinit.
  pose proof (pass_wp ongoing_okay ante_fact seqt_fact body init
    (fun i s st' => st' = st /\ J i s) no_raise (fun st' => st' = st) st pl Hpl)
    as Hwp.
  cbv beta zeta in Hwp.
  assert (Hstep : forall i s st', (i < length (new_facts st))%nat ->
            st' = st /\ J i s ->
            wp (body i (later_from (Datatypes.S i) (length (new_facts st))
                          (seqt_tail seqt_fact)) s) st'
               (fun s' st'' => st'' = st /\ J (Datatypes.S i) s') no_raise).
  { intros i s st' Hi [-> HJ]. destruct (Hbody i s Hi HJ) as (s' & Heq & HJ').
    unfold wp. fold n. rewrite Heq. auto. }
  specialize (Hwp Hstep (conj eq_refl Hinit)).
  destruct (wp_no_raise _ _ _ (Hwp ltac:(intros s st' [-> _]; reflexivity)))
    as ([] & st' & Heq & ->).
  exact Heq.
Qed.

Lemma fix_clock_times_relative_resolved nark ongoing_okay ante_fact seqt_fact st pl :
  all_resolved (new_facts st) ->
  prev_and_later ongoing_okay ante_fact seqt_fact st = Returned pl st ->
  fix_clock_times_relative nark ongoing_okay ante_fact seqt_fact st = Returned tt st.
Proof.
  intros Hres Hpl. unfold fix_clock_times_relative.
  apply (pass_keeps_state _ _ _ _ (fun p => p) (fun _ _ => True) st pl Hpl); [|exact I].
  intros i s Hi _.
  destruct (lookup_lt_is_Some_2 (new_facts st) i Hi) as [f Hf].
  destruct (Hres i f Hf) as (s0 & e0 & Hse).
  rewrite (clock_body_resolved _ _ _ _ _ _ _ _ Hf Hse). eauto.
Qed.

Lemma fix_delta_times_relative_resolved nark ongoing_okay ante_fact seqt_fact st pl :
  all_resolved (new_facts st) ->
  prev_and_later ongoing_okay ante_fact seqt_fact st = Returned pl st ->
  fix_delta_times_relative nark ongoing_okay ante_fact seqt_fact st = Returned tt st.
Proof.
  intros Hres Hpl. unfold fix_delta_times_relative.
  apply (pass_keeps_state _ _ _ _ (fun p => p) (fun _ _ => True) st pl Hpl); [|exact I].
  intros i s Hi _.
  destruct (lookup_lt_is_Some_2 (new_facts st) i Hi) as [f Hf].
  destruct (Hres i f Hf) as (s0 & e0 & Hse).
  rewrite (delta_body_resolved _ _ _ _ _ _ _ _ Hf Hse). eauto.
Qed.

Lemma fix_blank_times_relative_resolved controller ongoing_okay ante_fact seqt_fact st pl :
  all_resolved (new_facts st) ->
  prev_and_later ongoing_okay ante_fact seqt_fact st = Returned pl st ->
  fix_blank_times_relative controller ongoing_okay ante_fact seqt_fact st = Returned tt st.
Proof.
  intros Hres Hpl. unfold fix_blank_times_relative.
  apply (pass_keeps_state _ _ _ _ (fun p => p) (fun _ _ => True) st pl Hpl); [|exact I].
  intros i s Hi _.
  destruct (lookup_lt_is_Some_2 (new_facts st) i Hi) as [f Hf].
  destruct (Hres i f Hf) as (s0 & e0 & Hse).
  rewrite (blank_body_resolved _ _ _ _ _ _ _ _ Hf Hse). eauto.
Qed.

Lemma add_conflicts_nil st : add_conflicts st [] = st.
Proof. unfold add_conflicts. rewrite app_nil_r. destruct st; reflexivity. Qed.

Lemma verify_fact_sanity_resolved st i f s e later_facts prev_time prev_fact :
  new_facts st !! i = Some f -> two_timestamps f s e ->
  verify_fact_sanity i later_facts (prev_time, prev_fact) st =
    Returned (Some e, Some (RNew i))
      (add_conflicts st
         (starts_before_conflict i prev_time prev_fact s ++
          ends_after_conflict i (find_next_datetime (new_facts st) later_facts) e ++
          starts_after_conflict i s e)).
Proof.
  intros Hf [Hs He]. destruct st as [facts cs calls]. cbn [new_facts] in Hf.
  unfold verify_fact_sanity, starts_before_conflict, ends_after_conflict,
    starts_after_conflict, next_datetime, add_conflicts,
    bind, ret, gets, conflicts_append, read_attr.
  cbn [fst snd new_facts conflicts store_calls].
  rewrite Hf. cbn [getattr]. rewrite Hs. cbn [truthy negb].
  destruct (find_next_datetime facts later_facts)
    as [[next_time next_fact]|] eqn:Hnext;
    destruct prev_time as [prev|]; try destruct (s <? prev);
    cbn [new_facts conflicts store_calls]; rewrite Hf; cbn [getattr];
    rewrite He; cbn [truthy negb new_facts]; rewrite Hnext;
    try destruct (e >? next_time);
    cbn [new_facts conflicts store_calls fst snd Nat.eqb andb];
    destruct (s >? e);
    cbn [new_facts conflicts store_calls fst snd app];
    rewrite <- ?app_assoc, ?app_nil_r; reflexivity.
Qed.

Lemma resolved_in_order_all_resolved facts :
  resolved_in_order facts -> all_resolved facts.
Proof.
  intros [H _] i f Hf. destruct (H i f Hf) as (s & e & Hse & _). eauto.
Qed.

Lemma verify_datetimes_sanity_resolved ongoing_okay st :
  resolved_in_order (new_facts st) ->
  verify_datetimes_sanity ongoing_okay None None st = Returned tt st.
Proof.
  intros [Hres Hord]. unfold verify_datetimes_sanity.
  destruct (prev_and_later_cases ongoing_okay None None st) as [Hc|[Hpl _]];
    [discriminate Hc|].
  apply (pass_keeps_state ongoing_okay None None verify_fact_sanity
    (fun p => (p, option_map RStored None))
    (fun j s => forall prev g t, fst s = Some prev -> new_facts st !! j = Some g ->
                  fact_start g = Datetime t -> prev <= t)
    st _ Hpl).
  - intros i [prev_time prev_fact] Hi HJ. cbn [fst] in HJ.
    destruct (lookup_lt_is_Some_2 (new_facts st) i Hi) as [f Hf].
    destruct (Hres i f Hf) as (s & e & Hse & Hle).
    rewrite (verify_fact_sanity_resolved _ _ _ _ _ _ _ _ Hf Hse).
    exists (Some e, Some (RNew i)). split.
    + assert (H1 : starts_before_conflict i prev_time prev_fact s = []).
      { unfold starts_before_conflict. destruct prev_time as [prev|]; [|reflexivity].
        destruct (Z.ltb_spec s prev) as [Hlt|]; [|reflexivity].
        pose proof (HJ prev f s eq_refl Hf (proj1 Hse)). lia. }
      assert (H2 : ends_after_conflict i
                     (find_next_datetime (new_facts st)
                        (later_from (Datatypes.S i) (length (new_facts st))
                           (seqt_tail None))) e = []).
      { destruct (Nat.lt_ge_cases (Datatypes.S i) (length (new_facts st))) as [Hlt|Hge].
        - destruct (lookup_lt_is_Some_2 (new_facts st) _ Hlt) as [g Hg].
          destruct (Hres _ g Hg) as (s' & e' & [Hs' He'] & _).
          rewrite (find_next_datetime_here _ _ _ _ g s' Hlt Hg Hs').
          unfold ends_after_conflict.
          destruct (Z.gtb_spec e s') as [Hgt|]; [|reflexivity].
          pose proof (Hord i f g e s' Hf Hg (proj2 Hse) Hs'). lia.
        - rewrite later_from_ge by exact Hge. reflexivity. }
      assert (H3 : starts_after_conflict i s e = []).
      { unfold starts_after_conflict.
        destruct (Z.gtb_spec s e); [lia | reflexivity]. }
      rewrite H1, H2, H3. cbn [app]. rewrite add_conflicts_nil. reflexivity.
    + cbn [fst]. intros prev g t Hprev Hg Ht. inversion Hprev; subst.
      exact (Hord i f g prev t Hf Hg (proj2 Hse) Ht).
  - cbn. intros prev g t Hprev. discriminate.
Qed.

(** C6. A batch in which every fact already has two timestamps, in
    order within each fact and from each fact to the next, and for which
    the store reports no antecedent and no subsequent fact, goes through
    [must_complete_times] without error and without conflict, and its
    facts are unchanged. *)
Theorem C6_resolved_batch_unchanged (nark : Dated) (controller : Controller)
    (ongoing_okay : bool) (facts : list Fact) :
  resolved_in_order facts ->
  (forall t, antecedent controller t = None) ->
  (forall t, subsequent controller t = None) ->
  exists calls,
    must_complete_times nark controller ongoing_okay facts =
      Returned tt (mkState facts [] calls).
Proof.
  intros Hord Hante Hseqt.
  unfold must_complete_times, _must_complete_times.
  unfold bind at 1, gets at 1. cbn [new_facts].
  destruct facts as [|f0 rest] eqn:Hfacts; [exists []; reflexivity|].
  rewrite <- Hfacts in *. clear Hfacts.
  destruct (antecedent_fact_returns controller (mkState facts [] []))
    as (ante & calls1 & Heq1 & Hante').
  assert (ante = None) as -> by (destruct Hante' as [|[t ->]]; auto).
  rewrite (bind_eq _ _ _ _ _ Heq1).
  destruct (subsequent_fact_returns controller (add_calls (mkState facts [] []) calls1))
    as (seqt & calls2 & Heq2 & Hseqt').
  assert (seqt = None) as -> by (destruct Hseqt' as [|[t ->]]; auto).
  rewrite (bind_eq _ _ _ _ _ Heq2).
  set (st := add_calls _ calls2).
  assert (Hst : new_facts st = facts) by reflexivity.
  assert (Hord' : resolved_in_order (new_facts st)) by (rewrite Hst; exact Hord).
  pose proof (resolved_in_order_all_resolved _ Hord') as Hres.
  destruct (prev_and_later_cases ongoing_okay None None st) as [Hc|[Hpl _]];
    [discriminate Hc|].
  unfold four_passes. rewrite bind_assoc.
  rewrite (bind_eq _ _ _ _ _
             (fix_clock_times_relative_resolved nark _ _ _ _ _ Hres Hpl)).
  rewrite bind_assoc.
  rewrite (bind_eq _ _ _ _ _
             (fix_delta_times_relative_resolved nark _ _ _ _ _ Hres Hpl)).
  rewrite bind_assoc.
  rewrite (bind_eq _ _ _ _ _
             (fix_blank_times_relative_resolved controller _ _ _ _ _ Hres Hpl)).
  rewrite (bind_eq _ _ _ _ _ (verify_datetimes_sanity_resolved _ _ Hord')).
  eexists. unfold barf_on_overlapping_facts_new, bind, gets, ret.
  subst st. cbn. reflexivity.
Qed.

(** ** What a field step may change *)

Lemma step_summary_same i which f st :
  new_facts st !! i = Some f -> step_summary i which f st st f [].
Proof.
  intros Hf. unfold step_summary.
  rewrite list_insert_id by exact Hf. rewrite app_nil_r. auto 10.
Qed.

Lemma step_summary_set i which f st t :
  isinstance_datetime (getattr f which) = false ->
  step_summary i which f st (set_fact st i (with_attr f which (Datetime t)))
    (with_attr f which (Datetime t)) [].
Proof.
  intros Hn. unfold step_summary, set_fact. cbn [new_facts conflicts].
  rewrite app_nil_r. destruct which; cbn; eauto 10.
Qed.

Lemma step_summary_conflict i which f st r :
  new_facts st !! i = Some f -> reason_field r = Some which ->
  step_summary i which f st (add_conflict st (mkConflict i None r)) f
    [mkConflict i None r].
Proof.
  intros Hf Hr. unfold step_summary, add_conflict. cbn [new_facts conflicts].
  rewrite list_insert_id by exact Hf. repeat split; auto.
Qed.

Lemma fix_clock_time_relative_summary nark st i f which prev_time later_facts :
  new_facts st !! i = Some f ->
  exists prev' st' f' cs,
    fix_clock_time_relative nark i which prev_time later_facts st = Returned prev' st' /\
    step_summary i which f st st' f' cs.
Proof.
  intros Hf. rewrite (fix_clock_time_relative_eq _ _ _ _ _ _ _ Hf).
  destruct (getattr f which) as [|t|s] eqn:Hw.
  - eauto 8 using step_summary_same.
  - eauto 8 using step_summary_same.
  - destruct (parse_clock_time nark s) as [clock_time|];
      [|eauto 8 using step_summary_same].
    destruct (clock_resolution _ _ _ _) as [dt|].
    + do 4 eexists. split; [reflexivity|]. apply step_summary_set.
      rewrite Hw. reflexivity.
    + do 4 eexists. split; [reflexivity|]. apply step_summary_conflict; auto.
Qed.

Lemma fix_delta_time_relative_summary nark st i f which prev_time later_facts :
  new_facts st !! i = Some f ->
  (exists prev' st' f' cs,
     fix_delta_time_relative nark i which prev_time later_facts st = Returned prev' st' /\
     step_summary i which f st st' f' cs) \/
  fix_delta_time_relative nark i which prev_time later_facts st = Raised OverflowError st.
Proof.
  intros Hf. rewrite (fix_delta_time_relative_eq _ _ _ _ _ _ _ Hf).
  destruct (getattr f which) as [|t|s] eqn:Hw.
  - left. eauto 8 using step_summary_same.
  - left. eauto 8 using step_summary_same.
  - destruct (parse_relative_minutes nark s) as [[delta_mins|] delta_minus];
      [|left; eauto 8 using step_summary_same].
    destruct (delta_anchor _ _ _ _ _) as [anchor|].
    + destruct (minutes_after anchor delta_mins) as [dt|]; [|right; reflexivity].
      left. do 4 eexists. split; [reflexivity|]. apply step_summary_set.
      rewrite Hw. reflexivity.
    + left. do 4 eexists. split; [reflexivity|]. apply step_summary_conflict; auto.
Qed.

(** The blank step moreover leaves no field unsettled without a
    conflict, and never leaves an end empty. *)
Lemma fix_blank_time_relative_summary controller st i f which prev_time later_facts :
  new_facts st !! i = Some f ->
  exists prev' st' f' cs,
    fix_blank_time_relative controller i which prev_time later_facts st
      = Returned prev' st' /\
    step_summary i which f st st' f' cs /\
    (isinstance_datetime (getattr f' which) = false -> cs <> []) /\
    (which = WEnd -> truthy (getattr f' which) = true) /\
    (forall t, getattr f' which = Datetime t -> prev' = Some t).
Proof.
  intros Hf. rewrite (fix_blank_time_relative_eq _ _ _ _ _ _ _ Hf).
  assert (Hset : forall st0 t,
    new_facts st0 = new_facts st -> conflicts st0 = conflicts st ->
    isinstance_datetime (getattr f which) = false ->
    exists prev' st' f' cs,
      Returned (Some t) (set_fact st0 i (with_attr f which (Datetime t)))
        = Returned prev' st' /\
      step_summary i which f st st' f' cs /\
      (isinstance_datetime (getattr f' which) = false -> cs <> []) /\
      (which = WEnd -> truthy (getattr f' which) = true) /\
      (forall t, getattr f' which = Datetime t -> prev' = Some t)).
  { intros st0 t Hn Hc Hd. do 4 eexists. split; [reflexivity|].
    split; [|split; [|split]].
    - pose proof (step_summary_set i which f st t Hd) as Hs.
      unfold step_summary, set_fact in *. cbn [new_facts conflicts] in *.
      rewrite Hn, Hc. exact Hs.
    - destruct which; cbn; discriminate.
    - destruct which; cbn; reflexivity.
    - destruct which; cbn; congruence. }
  destruct (getattr f which) as [|t|s] eqn:Hw.
  - cbn [truthy]. destruct which.
    + destruct prev_time as [prev|].
      * apply Hset; auto; rewrite Hw; reflexivity.
      * do 4 eexists. split; [reflexivity|].
        split; [apply step_summary_conflict; auto|].
        split; [discriminate|]. split; [discriminate|].
        intros t Ht. cbn [getattr] in *. congruence.
    + destruct (find_next_datetime _ _) as [[next_time next_fact]|].
      * apply Hset; auto; rewrite Hw; reflexivity.
      * apply Hset; auto; rewrite Hw; reflexivity.
  - do 4 eexists. split; [reflexivity|].
    split; [apply step_summary_same; auto|].
    rewrite Hw. split; [discriminate|]. split; [reflexivity|]. congruence.
  - cbv beta iota zeta. destruct (truthy (Text s)) eqn:Ht.
    + do 4 eexists. split; [reflexivity|].
      split; [apply step_summary_conflict; auto|].
      rewrite Hw. split; [discriminate|]. split; [auto|]. congruence.
    + destruct which.
      * destruct prev_time as [prev|].
        -- apply Hset; auto; rewrite Hw; reflexivity.
        -- do 4 eexists. split; [reflexivity|].
           split; [apply step_summary_conflict; auto|].
           split; [discriminate|]. split; [discriminate|].
           intros t Ht'. cbn [getattr] in *. congruence.
      * destruct (find_next_datetime _ _) as [[next_time next_fact]|].
        -- apply Hset; auto; rewrite Hw; reflexivity.
        -- apply Hset; auto; rewrite Hw; reflexivity.
Qed.

Lemma step_summary_length i which f st st' f' cs :
  step_summary i which f st st' f' cs ->
  length (new_facts st') = length (new_facts st).
Proof. intros (Hn & _). rewrite Hn. apply length_insert. Qed.

Lemma step_summary_lookup i which f st st' f' cs :
  step_summary i which f st st' f' cs -> new_facts st !! i = Some f ->
  new_facts st' !! i = Some f'.
Proof.
  intros (Hn & _) Hf. rewrite Hn. apply list_lookup_insert_eq.
  apply lookup_lt_is_Some. eauto.
Qed.

Lemma step_summary_other i which f st st' f' cs k :
  step_summary i which f st st' f' cs -> k <> i ->
  new_facts st' !! k = new_facts st !! k.
Proof. intros (Hn & _) Hk. rewrite Hn. apply list_lookup_insert_ne. auto. Qed.

Lemma step_summary_conflicts i which f st st' f' cs c :
  step_summary i which f st st' f' cs -> In c (conflicts st) -> In c (conflicts st').
Proof. intros (_ & Hc & _) Hin. rewrite Hc. apply in_or_app. auto. Qed.

Lemma step_summary_new_conflict i which f st st' f' cs :
  step_summary i which f st st' f' cs -> cs <> [] ->
  exists c, In c (conflicts st') /\ c_fact c = i.
Proof.
  intros (_ & Hc & _ & _ & _ & Hall) Hne.
  destruct cs as [|c cs']; [congruence|].
  exists c. split.
  - rewrite Hc. apply in_or_app. right. left. reflexivity.
  - apply Forall_cons in Hall. tauto.
Qed.

(** ** After the blank-fill pass *)

Lemma blank_body_done controller st i later_facts prev_time :
  (i < length (new_facts st))%nat ->
  (forall k, (k < i)%nat -> blank_done st k) ->
  wp (let* fact_start := read_attr i WStart in
      let* fact_end := read_attr i WEnd in
      py_assert (truthy fact_start || truthy fact_end) ;;;
      let* prev_time := fix_blank_time_relative controller i WStart prev_time later_facts in
      fix_blank_time_relative controller i WEnd prev_time later_facts) st
     (fun _ st' => length (new_facts st') = length (new_facts st) /\
                   forall k, (k < Datatypes.S i)%nat -> blank_done st' k)
     may_raise.
Proof.
  intros Hi Hdone.
  destruct (lookup_lt_is_Some_2 (new_facts st) i Hi) as [f Hf].
  unfold wp.
  rewrite (bind_eq _ _ _ _ _ (read_attr_eq st i f WStart Hf)).
  rewrite (bind_eq _ _ _ _ _ (read_attr_eq st i f WEnd Hf)).
  destruct (truthy (getattr f WStart) || truthy (getattr f WEnd))%bool;
    [|exact I].
  unfold py_assert. unfold bind at 1, ret at 1.
  destruct (fix_blank_time_relative_summary controller st i f WStart prev_time
              later_facts Hf) as (p1 & st1 & f1 & cs1 & Heq1 & Hs1 & Hne1 & _).
  rewrite (bind_eq _ _ _ _ _ Heq1).
  pose proof (step_summary_lookup _ _ _ _ _ _ _ Hs1 Hf) as Hf1.
  destruct (fix_blank_time_relative_summary controller st1 i f1 WEnd p1
              later_facts Hf1) as (p2 & st2 & f2 & cs2 & Heq2 & Hs2 & Hne2 & Htr & _).
  rewrite Heq2.
  pose proof (step_summary_lookup _ _ _ _ _ _ _ Hs2 Hf1) as Hf2.
  split.
  - rewrite (step_summary_length _ _ _ _ _ _ _ Hs2).
    apply (step_summary_length _ _ _ _ _ _ _ Hs1).
  - intros k Hk. destruct (Nat.eq_dec k i) as [->|Hne].
    + exists f2. split; [exact Hf2|]. split; [apply Htr; reflexivity|].
      intros [Hstart|Hend].
      * assert (Hsame : fact_start f2 = fact_start f1)
          by (destruct Hs2 as (_ & _ & _ & Ho & _); exact Ho).
        rewrite Hsame in Hstart.
        destruct (step_summary_new_conflict _ _ _ _ _ _ _ Hs1 (Hne1 Hstart))
          as (c & Hin & Hc).
        exists c. split; [|exact Hc].
        eapply step_summary_conflicts; eauto.
      * exact (step_summary_new_conflict _ _ _ _ _ _ _ Hs2 (Hne2 Hend)).
    + destruct (Hdone k ltac:(lia)) as (g & Hg & Hgt & Hgc).
      exists g. split; [|split; [exact Hgt|]].
      * rewrite (step_summary_other _ _ _ _ _ _ _ _ Hs2 Hne).
        rewrite (step_summary_other _ _ _ _ _ _ _ _ Hs1 Hne). exact Hg.
      * intros Hnd. destruct (Hgc Hnd) as (c & Hin & Hc).
        exists c. split; [|exact Hc].
        eapply step_summary_conflicts; [exact Hs2|].
        eapply step_summary_conflicts; [exact Hs1|]. exact Hin.
Qed.

Lemma pass_returned_prev_and_later {S : Type} ongoing_okay ante_fact seqt_fact
    (body : nat -> list FactRef -> S -> M S) (init : option Z -> S) st st' :
  (let* pl := prev_and_later ongoing_okay ante_fact seqt_fact in
   for_new_facts body (snd pl) (init (fst pl)) ;;; ret tt) st = Returned tt st' ->
  exists pl, prev_and_later ongoing_okay ante_fact seqt_fact st = Returned pl st.
Proof.
  intros H. apply bind_returned in H. destruct H as (pl & st1 & Hpl & _).
  destruct (prev_and_later_returned _ _ _ _ _ _ Hpl) as (-> & _).
  eauto.
Qed.

(** Invariant reasoning for a pass that returned. *)
Lemma pass_inv {S : Type} ongoing_okay ante_fact seqt_fact
    (body : nat -> list FactRef -> S -> M S) (init : option Z -> S)
    (I : nat -> S -> State -> Prop) (Q : State -> Prop) st st' :
  (let* pl := prev_and_later ongoing_okay ante_fact seqt_fact in
   for_new_facts body (snd pl) (init (fst pl)) ;;; ret tt) st = Returned tt st' ->
  let n := length (new_facts st) in
  (forall i s st1, (i < n)%nat -> I i s st1 ->
     wp (body i (later_from (Datatypes.S i) n (seqt_tail seqt_fact)) s) st1
        (I (Datatypes.S i)) may_raise) ->
  I 0%nat (init (prev_seed ante_fact)) st ->
  (forall s st1, I n s st1 -> Q st1) ->
  Q st'.
Proof.
  intros Hret n Hbody Hinit HQ.
  destruct (pass_returned_prev_and_later _ _ _ _ _ _ _ Hret) as [pl Hpl].
  exact (wp_returned _ _ _ _ _ _
           (pass_wp ongoing_okay ante_fact seqt_fact body init I may_raise Q
              st pl Hpl Hbody Hinit HQ) Hret).
Qed.

Lemma fix_blank_times_relative_done controller ongoing_okay ante_fact seqt_fact st st' :
  fix_blank_times_relative controller ongoing_okay ante_fact seqt_fact st
    = Returned tt st' ->
  length (new_facts st') = length (new_facts st) /\
  forall k, (k < length (new_facts st))%nat -> blank_done st' k.
Proof.
  intros Hret. unfold fix_blank_times_relative in Hret.
  apply (pass_inv _ _ _ _ (fun p => p)
           (fun j _ st1 => length (new_facts st1) = length (new_facts st) /\
                           forall k, (k < j)%nat -> blank_done st1 k)
           (fun st1 => length (new_facts st1) = length (new_facts st) /\
                       forall k, (k < length (new_facts st))%nat -> blank_done st1 k)
           _ _ Hret).
  - intros i s st1 Hi [Hlen Hdone]. cbv beta.
    eapply wp_mono; [| |apply blank_body_done; [rewrite Hlen; exact Hi|exact Hdone]].
    + cbv beta. intros _ st2 [Hlen2 Hdone2]. split; [congruence|exact Hdone2].
    + auto.
  - split; [reflexivity|]. intros k Hk. lia.
  - cbv beta. intros s st1 H. exact H.
Qed.

(** ** C8: the sanity pass finds the missing fields caught *)

Lemma found_it_nonempty (i : nat) (cs extra : list Conflict) :
  (exists c, In c cs /\ c_fact c = i) ->
  Nat.ltb 0 (length (List.filter (fun conflict => Nat.eqb i (c_fact conflict))
                       (cs ++ extra))) = true.
Proof.
  intros (c & Hin & Hc).
  assert (Hin' : In c (List.filter (fun conflict => Nat.eqb i (c_fact conflict))
                         (cs ++ extra))).
  { apply filter_In. split; [apply in_or_app; auto|].
    rewrite Hc. apply Nat.eqb_refl. }
  destruct (List.filter _ _) as [|x l]; [destruct Hin'|reflexivity].
Qed.

(** The sanity check of one fact returns whenever a conflict is on
    record for the fact in case one of its fields is empty; it appends
    ordering conflicts only. *)
Lemma verify_fact_sanity_returns st i f later_facts s :
  new_facts st !! i = Some f ->
  (truthy (fact_start f) = false \/ truthy (fact_end f) = false ->
   exists c, In c (conflicts st) /\ c_fact c = i) ->
  exists s' cs,
    verify_fact_sanity i later_facts s st = Returned s' (add_conflicts st cs) /\
    ordering_conflicts i f cs.
Proof.
  intros Hf Hc. destruct st as [facts cs calls], s as [prev_time prev_fact].
  cbn [new_facts conflicts] in *.
  destruct f as [pk fs fe]. cbn [fact_start fact_end] in Hc.
  unfold verify_fact_sanity, verify_datetimes_missing_already_caught,
    next_datetime, add_conflicts, ordering_conflicts.
  assert (Hfound : forall extra,
            truthy fs = false \/ truthy fe = false ->
            Nat.ltb 0 (length (List.filter (fun conflict => Nat.eqb i (c_fact conflict))
                                 (cs ++ extra))) = true).
  { intros extra H. apply found_it_nonempty. auto. }
  pose proof (Hfound []) as Hfound0. rewrite app_nil_r in Hfound0.
  destruct (find_next_datetime facts later_facts)
    as [[next_time next_fact]|] eqn:Hnext.
  all: destruct fs as [|ts|ss]; cbn [truthy] in *;
    try destruct (String.eqb ss EmptyString) eqn:Hss; cbn [negb] in *.
  all: destruct fe as [|te|se]; cbn [truthy] in *;
    try destruct (String.eqb se EmptyString) eqn:Hse; cbn [negb] in *.
  all: repeat (mrun; rewrite ?Hf, ?Hnext, ?Hss, ?Hse;
               try rewrite Hfound0 by auto; try rewrite Hfound by auto;
               try match goal with
                   | |- context [match ?p with Some _ => _ | None => _ end] =>
                       is_var p; destruct p
                   | |- context [if Z.ltb ?a ?b then _ else _] => destruct (Z.ltb a b)
                   | |- context [if Z.gtb ?a ?b then _ else _] => destruct (Z.gtb a b)
                   end).
  all: do 2 eexists; (split;
    [ rewrite <- ?app_assoc; cbn [app];
      first [reflexivity | rewrite <- (app_nil_r cs) at 1; reflexivity]
    | repeat (apply List.Forall_cons;
              [split; [reflexivity|split; [reflexivity|]];
               first [left; reflexivity | right; reflexivity]|]);
      apply List.Forall_nil ]).
Qed.

Lemma prev_and_later_same_length ongoing_okay ante_fact seqt_fact st st' pl :
  prev_and_later ongoing_okay ante_fact seqt_fact st = Returned pl st ->
  length (new_facts st') = length (new_facts st) ->
  prev_and_later ongoing_okay ante_fact seqt_fact st' = Returned pl st'.
Proof.
  unfold prev_and_later, bind, gets, ret, raise. intros H ->.
  destruct ante_fact as [ante|]; [destruct (stored_end ante) as [t|] |];
    try destruct (negb ongoing_okay && Nat.eqb (length (new_facts st)) 1
                  && is_none seqt_fact)%bool;
    destruct seqt_fact as [seqt|]; try destruct (stored_start seqt) as [t'|];
    try discriminate; inversion H; reflexivity.
Qed.

Lemma add_conflicts_app st cs cs' :
  add_conflicts (add_conflicts st cs) cs' = add_conflicts st (cs ++ cs').
Proof. unfold add_conflicts. cbn. rewrite app_assoc. reflexivity. Qed.

(** After the blank-fill pass the sanity pass returns, and appends
    ordering conflicts only. *)
Lemma verify_datetimes_sanity_returns ongoing_okay ante_fact seqt_fact st pl :
  prev_and_later ongoing_okay ante_fact seqt_fact st = Returned pl st ->
  (forall k, (k < length (new_facts st))%nat -> blank_done st k) ->
  exists cs,
    verify_datetimes_sanity ongoing_okay ante_fact seqt_fact st
      = Returned tt (add_conflicts st cs) /\
    Forall (sanity_conflict (new_facts st)) cs.
Proof.
  intros Hpl Hdone. unfold verify_datetimes_sanity.
  pose proof (pass_wp ongoing_okay ante_fact seqt_fact verify_fact_sanity
    (fun p => (p, option_map RStored ante_fact))
    (fun _ _ st1 => exists cs, st1 = add_conflicts st cs /\
                      Forall (sanity_conflict (new_facts st)) cs)
    no_raise
    (fun st1 => exists cs, st1 = add_conflicts st cs /\
                  Forall (sanity_conflict (new_facts st)) cs)
    st pl Hpl) as Hwp.
  cbv zeta beta in Hwp.
  assert (Hstep : forall i s st', (i < length (new_facts st))%nat ->
    (exists cs, st' = add_conflicts st cs /\
                Forall (sanity_conflict (new_facts st)) cs) ->
    wp (verify_fact_sanity i
          (later_from (Datatypes.S i) (length (new_facts st)) (seqt_tail seqt_fact)) s)
       st'
       (fun _ st1 => exists cs, st1 = add_conflicts st cs /\
                       Forall (sanity_conflict (new_facts st)) cs)
       no_raise).
  { intros i s st' Hi (cs & -> & Hcs).
    destruct (Hdone i Hi) as (f & Hf & Htr & Hconf).
    destruct (verify_fact_sanity_returns (add_conflicts st cs) i f
                (later_from (Datatypes.S i) (length (new_facts st)) (seqt_tail seqt_fact)) s)
      as (s' & cs' & Heq & Hord).
    - exact Hf.
    - intros [Hs|He]; [|congruence].
      assert (Hnd : isinstance_datetime (fact_start f) = false \/
                    isinstance_datetime (fact_end f) = false).
      { left. destruct (fact_start f) as [|t|txt]; [reflexivity|discriminate|reflexivity]. }
      destruct (Hconf Hnd) as (c & Hin & Hc).
      exists c. split; [|exact Hc]. cbn. apply in_or_app. auto.
    - unfold wp. rewrite Heq. exists (cs ++ cs'). split.
      + apply add_conflicts_app.
      + apply Forall_app. split; [exact Hcs|].
        eapply Forall_impl; [exact Hord|]. cbv beta.
        intros c (Hc & Hr & Hk). split; [exact Hr|].
        destruct Hk as [Hk|Hk]; [left; exact Hk|].
        right. exists f. rewrite Hc. auto. }
  specialize (Hwp Hstep).
  destruct (wp_no_raise _ _ _ (Hwp
      ltac:(exists []; split; [symmetry; apply add_conflicts_nil|constructor])
      ltac:(intros s st1 H; exact H)))
    as ([] & st' & Heq & cs & -> & Hcs).
  exists cs. split; [exact Heq|exact Hcs].
Qed.

(** C8. Once the first three passes have returned, a fact whose start or
    end is empty has a conflict on record naming it; hence the sanity
    pass returns, its missing-field assertion holding each time, and the
    conflicts it appends are ordering conflicts, none for a missing
    field. *)
Theorem C8_missing_field_already_caught (nark : Dated) (controller : Controller)
    (ongoing_okay : bool) (ante_fact seqt_fact : option StoredFact)
    (st0 st3 : State) :
  (fix_clock_times_relative nark ongoing_okay ante_fact seqt_fact ;;;
   fix_delta_times_relative nark ongoing_okay ante_fact seqt_fact ;;;
   fix_blank_times_relative controller ongoing_okay ante_fact seqt_fact) st0
    = Returned tt st3 ->
  (forall i f, new_facts st3 !! i = Some f ->
     truthy (fact_start f) = false \/ truthy (fact_end f) = false ->
     exists c, In c (conflicts st3) /\ c_fact c = i) /\
  exists cs,
    verify_datetimes_sanity ongoing_okay ante_fact seqt_fact st3
      = Returned tt (add_conflicts st3 cs) /\
    Forall (fun c => reason_field (c_reason c) = None) cs.
Proof.
  intros Hret.
  apply bind_returned in Hret. destruct Hret as ([] & st1 & _ & Hret).
  apply bind_returned in Hret. destruct Hret as ([] & st2 & _ & Hret).
  destruct (fix_blank_times_relative_done _ _ _ _ _ _ Hret) as [Hlen Hdone].
  rewrite <- Hlen in Hdone.
  split.
  - intros i f Hf Hmissing.
    destruct (Hdone i (proj1 (lookup_lt_is_Some _ _) (ex_intro _ f Hf)))
      as (g & Hg & Htr & Hconf).
    assert (g = f) as -> by congruence.
    apply Hconf. destruct Hmissing as [Hs|He]; [|congruence].
    left. destruct (fact_start f) as [|t|txt]; [reflexivity|discriminate|reflexivity].
  - unfold fix_blank_times_relative in Hret.
    destruct (pass_returned_prev_and_later _ _ _ _ (fun p => p) _ _ Hret) as [pl Hpl].
    destruct (verify_datetimes_sanity_returns ongoing_okay ante_fact seqt_fact st3 pl)
      as (cs & Heq & Hcs);
      [|exact Hdone|].
    { apply (prev_and_later_same_length _ _ _ st2); [exact Hpl|exact Hlen]. }
    exists cs. split; [exact Heq|].
    eapply Forall_impl; [exact Hcs|]. intros c [Hr _]. exact Hr.
Qed.

(** ** C1: a batch resolved without conflict is in chronological order *)

Lemma starts_before_conflict_nil i prev_time prev_fact s :
  starts_before_conflict i prev_time prev_fact s = [] ->
  forall prev, prev_time = Some prev -> prev <= s.
Proof.
  unfold starts_before_conflict. intros H prev ->.
  destruct (Z.ltb_spec s prev); [discriminate | lia].
Qed.

Lemma ends_after_conflict_nil i next e :
  ends_after_conflict i next e = [] ->
  forall next_time next_fact, next = Some (next_time, next_fact) -> e <= next_time.
Proof.
  unfold ends_after_conflict. intros H next_time next_fact ->.
  destruct (Z.gtb_spec e next_time); [discriminate | lia].
Qed.

Lemma starts_after_conflict_nil i s e :
  starts_after_conflict i s e = [] -> s <= e.
Proof.
  unfold starts_after_conflict.
  destruct (Z.gtb_spec s e); [discriminate | lia].
Qed.

Lemma verify_datetimes_sanity_checked ongoing_okay ante_fact seqt_fact st st' :
  all_resolved (new_facts st) ->
  verify_datetimes_sanity ongoing_okay ante_fact seqt_fact st = Returned tt st' ->
  exists cs, st' = add_conflicts st cs /\
    (cs = [] ->
     checked_upto ante_fact seqt_fact (new_facts st) (length (new_facts st))).
Proof.
  intros Hres Hret. unfold verify_datetimes_sanity in Hret.
  apply (pass_inv _ _ _ _ (fun p => (p, option_map RStored ante_fact))
           (fun j s st1 => exists cs, st1 = add_conflicts st cs /\
              (cs = [] -> checked_upto ante_fact seqt_fact (new_facts st) j /\
                          fst s = prev_at ante_fact (new_facts st) j))
           (fun st1 => exists cs, st1 = add_conflicts st cs /\
              (cs = [] -> checked_upto ante_fact seqt_fact (new_facts st)
                            (length (new_facts st))))
           _ _ Hret).
  - intros i [prev_time prev_fact] st1 Hi (cs & -> & Hcs). cbv beta.
    destruct (lookup_lt_is_Some_2 (new_facts st) i Hi) as [f Hf].
    destruct (Hres i f Hf) as (s & e & Hse).
    unfold wp.
    rewrite (verify_fact_sanity_resolved (add_conflicts st cs) i f s e _ _ _ Hf Hse).
    eexists. split; [apply add_conflicts_app|].
    intros Hnil. apply app_eq_nil in Hnil. destruct Hnil as [-> Hnil].
    apply app_eq_nil in Hnil. destruct Hnil as [H1 Hnil].
    apply app_eq_nil in Hnil. destruct Hnil as [H2 H3].
    destruct (Hcs eq_refl) as [Hchk Hprev]. cbn [fst] in Hprev.
    split.
    + intros k g s' e' Hk Hg Hse'.
      destruct (Nat.eq_dec k i) as [->|Hne]; [|apply (Hchk k g s' e'); [lia|auto..]].
      assert (g = f) as -> by congruence.
      destruct Hse as [Hs He], Hse' as [Hs' He'].
      assert (s' = s) as -> by congruence. assert (e' = e) as -> by congruence.
      split; [exact (starts_after_conflict_nil _ _ _ H3)|]. split.
      * intros prev Hp. rewrite <- Hprev in Hp.
        exact (starts_before_conflict_nil _ _ _ _ H1 prev Hp).
      * intros seqt t Hlast -> Hstart.
        cbn [new_facts add_conflicts] in H2.
        rewrite later_from_ge in H2 by lia. cbn [seqt_tail] in H2.
        rewrite (find_next_datetime_tail _ _ _ Hstart) in H2.
        exact (ends_after_conflict_nil _ _ _ H2 _ _ eq_refl).
    + cbn [fst prev_at]. rewrite Hf. destruct Hse as [_ ->]. reflexivity.
  - exists []. split; [symmetry; apply add_conflicts_nil|].
    intros _. split; [|reflexivity]. intros k f s e Hk. lia.
  - cbv beta. intros s st1 (cs & -> & Hcs). exists cs. split; [reflexivity|].
    intros Hnil. apply (Hcs Hnil).
Qed.

Lemma checked_timeline ante_fact seqt_fact facts :
  all_resolved facts ->
  (forall seqt, seqt_fact = Some seqt -> exists t, stored_start seqt = Some t) ->
  checked_upto ante_fact seqt_fact facts (length facts) ->
  timeline_in_order ante_fact seqt_fact facts.
Proof.
  intros Hres Hseqt Hchk.
  assert (Hlt : forall i f, facts !! i = Some f -> (i < length facts)%nat).
  { intros i f Hf. apply lookup_lt_is_Some. eauto. }
  split; [split|split].
  - intros i f Hf. destruct (Hres i f Hf) as (s & e & Hse).
    exists s, e. split; [exact Hse|].
    apply (Hchk i f s e (Hlt i f Hf) Hf Hse).
  - intros i f g e s Hf Hg He Hs.
    destruct (Hres _ g Hg) as (s' & e' & Hse').
    assert (s' = s) as -> by (destruct Hse'; congruence).
    destruct (Hchk _ g s e' (Hlt _ g Hg) Hg Hse') as (_ & Hprev & _).
    apply Hprev. cbn [prev_at]. rewrite Hf, He. reflexivity.
  - intros ante e f s -> Hend Hf Hs.
    destruct (Hres _ f Hf) as (s' & e' & Hse').
    assert (s' = s) as -> by (destruct Hse'; congruence).
    destruct (Hchk _ f s e' (Hlt _ f Hf) Hf Hse') as (_ & Hprev & _).
    apply Hprev. exact Hend.
  - intros seqt f e -> Hlast He.
    destruct (Hseqt seqt eq_refl) as [t Ht]. exists t. split; [exact Ht|].
    rewrite last_lookup in Hlast.
    destruct (Hres _ f Hlast) as (s' & e' & Hse').
    assert (e' = e) as -> by (destruct Hse'; congruence).
    pose proof (Hlt _ f Hlast) as Hlen.
    destruct (Hchk _ f s' e Hlen Hlast Hse') as (_ & _ & Hnext).
    apply (Hnext seqt t); [lia|reflexivity|exact Ht].
Qed.

Lemma blank_done_resolved st :
  conflicts st = [] ->
  (forall k, (k < length (new_facts st))%nat -> blank_done st k) ->
  all_resolved (new_facts st).
Proof.
  intros Hnil Hdone i f Hf.
  destruct (Hdone i (proj1 (lookup_lt_is_Some _ _) (ex_intro _ f Hf)))
    as (g & Hg & _ & Hconf).
  assert (g = f) as -> by congruence.
  rewrite Hnil in Hconf. unfold two_timestamps.
  destruct (fact_start f) as [|s|txt], (fact_end f) as [|e|txt']; eauto;
    destruct Hconf as (c & [] & _); cbn; auto.
Qed.

(** C1, as the code has it. When [must_complete_times] returns (no
    conflict was recorded by the four passes), every fact of the batch
    has a start and an end that are timestamps, and the timeline is
    monotonic: each fact's end is at or before the next fact's start,
    the end of the antecedent the resolver found, when that antecedent
    has an end, is at or before the first start, and the last end is at
    or before the start of the subsequent fact it found.  An antecedent
    without an end is not compared with the batch: [prev_and_later]
    seeds no cursor from it. *)
Theorem C1_resolved_batch_is_monotonic (nark : Dated) (controller : Controller)
    (ongoing_okay : bool) (facts : list Fact)
    (ante_fact seqt_fact : option StoredFact) (st1 st2 st : State) :
  antecedent_fact controller (mkState facts [] []) = Returned ante_fact st1 ->
  subsequent_fact controller st1 = Returned seqt_fact st2 ->
  must_complete_times nark controller ongoing_okay facts = Returned tt st ->
  conflicts st = [] /\
  timeline_in_order ante_fact seqt_fact (new_facts st).
Proof.
  intros Hante Hseqt Hret.
  unfold must_complete_times, _must_complete_times in Hret.
  unfold bind at 1, gets at 1 in Hret. cbn [new_facts] in Hret.
  destruct facts as [|f0 rest] eqn:Hfacts.
  { inversion Hret; subst. cbn. split; [reflexivity|].
    split; [split|split]; intros; cbn in *; discriminate. }
  rewrite <- Hfacts in *. clear Hfacts f0 rest.
  rewrite (bind_eq _ _ _ _ _ Hante), (bind_eq _ _ _ _ _ Hseqt) in Hret.
  apply bind_returned in Hret. destruct Hret as ([] & st4 & Hpasses & Hbarf).
  assert (Hnil : conflicts st4 = [] /\ st = st4).
  { unfold barf_on_overlapping_facts_new, bind, gets, ret, barf_and_exit, raise in Hbarf.
    destruct (conflicts st4); [inversion Hbarf; auto|discriminate]. }
  destruct Hnil as [Hnil ->]. split; [exact Hnil|].
  unfold four_passes in Hpasses.
  apply bind_returned in Hpasses. destruct Hpasses as ([] & sta & _ & Hpasses).
  apply bind_returned in Hpasses. destruct Hpasses as ([] & stb & _ & Hpasses).
  apply bind_returned in Hpasses. destruct Hpasses as ([] & stc & Hblank & Hsanity).
  destruct (fix_blank_times_relative_done _ _ _ _ _ _ Hblank) as [Hlen Hdone].
  rewrite <- Hlen in Hdone.
  unfold fix_blank_times_relative in Hblank.
  destruct (pass_returned_prev_and_later _ _ _ _ (fun p => p) _ _ Hblank) as [pl Hpl].
  pose proof (prev_and_later_same_length _ _ _ _ stc _ Hpl Hlen) as Hpl'.
  destruct (verify_datetimes_sanity_returns _ _ _ _ _ Hpl' Hdone)
    as (cs & Heq & _).
  rewrite Heq in Hsanity. inversion Hsanity as [Hst4]. clear Hsanity.
  rewrite <- Hst4 in Hnil. cbn [conflicts add_conflicts] in Hnil.
  apply app_eq_nil in Hnil. destruct Hnil as [Hnilc ->].
  pose proof (blank_done_resolved _ Hnilc Hdone) as Hres.
  destruct (verify_datetimes_sanity_checked _ _ _ _ _ Hres Heq) as (cs' & Hcs' & Hchk).
  assert (cs' = []) as ->.
  { apply (f_equal conflicts) in Hcs'. cbn [conflicts add_conflicts] in Hcs'.
    apply (app_inv_head (conflicts stc)). congruence. }
  cbn [new_facts add_conflicts].
  apply checked_timeline; [exact Hres| |exact (Hchk eq_refl)].
  destruct (prev_and_later_returned _ _ _ _ _ _ Hpl') as (_ & _ & Hstart).
  exact Hstart.
Qed.

(** ** The exceptions of the passes: assertion failure, and overflow in
    the delta pass *)

Lemma pass_only_asserts {S : Type} ongoing_okay ante_fact seqt_fact
    (body : nat -> list FactRef -> S -> M S) (init : option Z -> S) st :
  (forall i s later_facts st1, (i < length (new_facts st1))%nat ->
     wp (body i later_facts s) st1
        (fun _ => same_length (length (new_facts st1))) only_assert) ->
  wp (let* pl := prev_and_later ongoing_okay ante_fact seqt_fact in
      for_new_facts body (snd pl) (init (fst pl)) ;;; ret tt)
     st (fun _ => same_length (length (new_facts st))) only_assert.
Proof.
  intros Hbody.
  destruct (prev_and_later_cases ongoing_okay ante_fact seqt_fact st) as [Hc|[Hpl _]].
  - unfold wp, bind. rewrite Hc. reflexivity.
  - apply (pass_wp _ _ _ body init
             (fun _ _ => same_length (length (new_facts st))) only_assert
             (same_length (length (new_facts st))) st _ Hpl).
    + intros i s st1 Hi Hlen. unfold same_length in Hlen.
      eapply wp_mono; [| |apply Hbody; rewrite Hlen; exact Hi].
      * cbv beta. unfold same_length. intros _ st2 H. congruence.
      * auto.
    + reflexivity.
    + auto.
Qed.

Lemma two_steps_only_assert
    (op : nat -> Which -> option Z -> list FactRef -> M (option Z)) :
  (forall st i f which prev_time later_facts, new_facts st !! i = Some f ->
     exists prev' st' f' cs,
       op i which prev_time later_facts st = Returned prev' st' /\
       step_summary i which f st st' f' cs) ->
  forall i prev_time later_facts st, (i < length (new_facts st))%nat ->
    wp (let* prev_time := op i WStart prev_time later_facts in
        op i WEnd prev_time later_facts) st
       (fun _ => same_length (length (new_facts st))) only_assert.
Proof.
  intros Hop i prev_time later_facts st Hi.
  destruct (lookup_lt_is_Some_2 (new_facts st) i Hi) as [f Hf].
  destruct (Hop st i f WStart prev_time later_facts Hf)
    as (p1 & st1 & f1 & cs1 & Heq1 & Hs1).
  pose proof (step_summary_lookup _ _ _ _ _ _ _ Hs1 Hf) as Hf1.
  destruct (Hop st1 i f1 WEnd p1 later_facts Hf1)
    as (p2 & st2 & f2 & cs2 & Heq2 & Hs2).
  unfold wp. rewrite (bind_eq _ _ _ _ _ Heq1), Heq2. unfold same_length.
  rewrite (step_summary_length _ _ _ _ _ _ _ Hs2).
  apply (step_summary_length _ _ _ _ _ _ _ Hs1).
Qed.

Lemma fix_clock_times_relative_only_asserts nark ongoing_okay ante_fact seqt_fact st :
  wp (fix_clock_times_relative nark ongoing_okay ante_fact seqt_fact) st
     (fun _ => same_length (length (new_facts st))) only_assert.
Proof.
  apply (pass_only_asserts _ _ _ _ (fun p => p)).
  intros i s later_facts st1 Hi.
  apply (two_steps_only_assert (fix_clock_time_relative nark)); [|exact Hi].
  intros. apply fix_clock_time_relative_summary. assumption.
Qed.

Lemma only_assert_weaken e st : only_assert e st -> assert_or_overflow e st.
Proof. unfold only_assert, assert_or_overflow. auto. Qed.

(** The delta pass may moreover overflow the range of [datetime]. *)
Lemma fix_delta_times_relative_raises nark ongoing_okay ante_fact seqt_fact st :
  wp (fix_delta_times_relative nark ongoing_okay ante_fact seqt_fact) st
     (fun _ => same_length (length (new_facts st))) assert_or_overflow.
Proof.
  unfold fix_delta_times_relative.
  destruct (prev_and_later_cases ongoing_okay ante_fact seqt_fact st) as [Hc|[Hpl _]].
  - unfold wp, bind. rewrite Hc. left. reflexivity.
  - apply (pass_wp _ _ _ _ (fun p => p)
             (fun _ _ => same_length (length (new_facts st))) assert_or_overflow
             (same_length (length (new_facts st))) st _ Hpl).
    + intros i p st1 Hi Hlen. unfold same_length in Hlen. cbv beta.
      assert (Hi1 : (i < length (new_facts st1))%nat) by (rewrite Hlen; exact Hi).
      destruct (lookup_lt_is_Some_2 (new_facts st1) i Hi1) as [f Hf].
      set (later := later_from (Datatypes.S i) (length (new_facts st))
                      (seqt_tail seqt_fact)).
      unfold wp, bind.
      destruct (fix_delta_time_relative_summary nark st1 i f WStart p later Hf)
        as [(p1 & st2 & f1 & cs1 & Heq1 & Hs1)|Heq1]; rewrite Heq1;
        [|right; reflexivity].
      pose proof (step_summary_lookup _ _ _ _ _ _ _ Hs1 Hf) as Hf1.
      destruct (fix_delta_time_relative_summary nark st2 i f1 WEnd p1 later Hf1)
        as [(p2 & st3 & f2 & cs2 & Heq2 & Hs2)|Heq2]; rewrite Heq2;
        [|right; reflexivity].
      unfold same_length.
      rewrite (step_summary_length _ _ _ _ _ _ _ Hs2),
        (step_summary_length _ _ _ _ _ _ _ Hs1). exact Hlen.
    + reflexivity.
    + auto.
Qed.

Lemma fix_blank_times_relative_only_asserts controller ongoing_okay ante_fact seqt_fact st :
  wp (fix_blank_times_relative controller ongoing_okay ante_fact seqt_fact) st
     (fun _ => same_length (length (new_facts st))) only_assert.
Proof.
  apply (pass_only_asserts _ _ _ _ (fun p => p)).
  intros i s later_facts st1 Hi.
  destruct (lookup_lt_is_Some_2 (new_facts st1) i Hi) as [f Hf].
  unfold wp.
  rewrite (bind_eq _ _ _ _ _ (read_attr_eq st1 i f WStart Hf)).
  rewrite (bind_eq _ _ _ _ _ (read_attr_eq st1 i f WEnd Hf)).
  destruct (truthy (getattr f WStart) || truthy (getattr f WEnd))%bool;
    [|reflexivity].
  unfold py_assert. unfold bind at 1, ret at 1.
  apply (two_steps_only_assert (fix_blank_time_relative controller)); [|exact Hi].
  intros st0 j g which prev_time later Hg.
  destruct (fix_blank_time_relative_summary controller st0 j g which prev_time later Hg)
    as (p & st' & g' & cs & Heq & Hs & _).
  eauto 8.
Qed.

Lemma verify_fact_sanity_only_asserts st i later_facts s :
  (i < length (new_facts st))%nat ->
  wp (verify_fact_sanity i later_facts s) st
     (fun _ => same_length (length (new_facts st))) only_assert.
Proof.
  intros Hi. destruct (lookup_lt_is_Some_2 (new_facts st) i Hi) as [f Hf].
  destruct st as [facts cs calls], s as [prev_time prev_fact].
  cbn [new_facts conflicts] in *. destruct f as [pk fs fe].
  unfold wp, only_assert, same_length, verify_fact_sanity,
    verify_datetimes_missing_already_caught, next_datetime.
  destruct (find_next_datetime facts later_facts)
    as [[next_time next_fact]|] eqn:Hnext.
  all: destruct fs as [|ts|ss]; cbn [truthy] in *;
    try destruct (String.eqb ss EmptyString) eqn:Hss; cbn [negb] in *.
  all: destruct fe as [|te|se]; cbn [truthy] in *;
    try destruct (String.eqb se EmptyString) eqn:Hse; cbn [negb] in *.
  all: repeat (mrun; rewrite ?Hf, ?Hnext, ?Hss, ?Hse;
               try match goal with
                   | |- context [match ?p with Some _ => _ | None => _ end] =>
                       is_var p; destruct p
                   | |- context [if Z.ltb ?a ?b then _ else _] => destruct (Z.ltb a b)
                   | |- context [if Z.gtb ?a ?b then _ else _] => destruct (Z.gtb a b)
                   | |- context [if Nat.ltb ?a ?b then _ else _] => destruct (Nat.ltb a b)
                   end).
  all: reflexivity.
Qed.

Lemma verify_datetimes_sanity_only_asserts ongoing_okay ante_fact seqt_fact st :
  wp (verify_datetimes_sanity ongoing_okay ante_fact seqt_fact) st
     (fun _ => same_length (length (new_facts st))) only_assert.
Proof.
  apply (pass_only_asserts _ _ _ _ (fun p => (p, option_map RStored ante_fact))).
  intros i s later_facts st1 Hi.
  apply verify_fact_sanity_only_asserts. exact Hi.
Qed.

Lemma four_passes_raises nark controller ongoing_okay ante_fact seqt_fact st e st' :
  four_passes nark controller ongoing_okay ante_fact seqt_fact st = Raised e st' ->
  e = AssertionError \/ e = OverflowError.
Proof.
  intros H.
  assert (Hwp : wp (four_passes nark controller ongoing_okay ante_fact seqt_fact) st
                  (fun _ _ => True) assert_or_overflow).
  { unfold four_passes.
    apply wp_bind.
    eapply wp_mono;
      [| |apply fix_clock_times_relative_only_asserts]; [|apply only_assert_weaken].
    cbv beta. intros _ st1 _. apply wp_bind.
    eapply wp_mono; [| |apply fix_delta_times_relative_raises]; [|auto].
    cbv beta. intros _ st2 _. apply wp_bind.
    eapply wp_mono;
      [| |apply fix_blank_times_relative_only_asserts]; [|apply only_assert_weaken].
    cbv beta. intros _ st3 _.
    eapply wp_mono;
      [| |apply verify_datetimes_sanity_only_asserts]; [auto|apply only_assert_weaken]. }
  exact (wp_raised _ _ _ _ _ _ Hwp H).
Qed.

(** ** C10 and C2: the outcomes of the resolver *)

(** C10. Called with an empty [new_facts], [must_complete_times] returns
    normally; it has made no store call, recorded no conflict and the
    batch is still empty. *)
Theorem C10_empty_batch_returns (nark : Dated) (controller : Controller)
    (ongoing_okay : bool) :
  must_complete_times nark controller ongoing_okay [] =
    Returned tt (mkState [] [] []).
Proof. reflexivity. Qed.

(** On a batch that is not empty the resolver looks up the neighbours,
    which only adds store calls, then runs the passes and reports. *)
Lemma must_complete_times_unfold nark controller ongoing_okay facts :
  facts <> [] ->
  exists ante_fact seqt_fact st1 calls,
    antecedent_fact controller (mkState facts [] []) = Returned ante_fact st1 /\
    subsequent_fact controller st1 = Returned seqt_fact (mkState facts [] calls) /\
    must_complete_times nark controller ongoing_okay facts =
      (four_passes nark controller ongoing_okay ante_fact seqt_fact ;;;
       barf_on_overlapping_facts_new) (mkState facts [] calls).
Proof.
  intros Hne.
  destruct (antecedent_fact_returns controller (mkState facts [] []))
    as (ante & calls1 & Heq1 & _).
  destruct (subsequent_fact_returns controller (add_calls (mkState facts [] []) calls1))
    as (seqt & calls2 & Heq2 & _).
  exists ante, seqt, (add_calls (mkState facts [] []) calls1), (calls1 ++ calls2).
  split; [exact Heq1|]. split.
  - rewrite Heq2. unfold add_calls. cbn. reflexivity.
  - unfold must_complete_times, _must_complete_times.
    unfold bind at 1, gets at 1. cbn [new_facts].
    destruct facts as [|f0 rest]; [congruence|].
    rewrite (bind_eq _ _ _ _ _ Heq1), (bind_eq _ _ _ _ _ Heq2).
    unfold add_calls. cbn. reflexivity.
Qed.

Lemma barf_on_overlapping_facts_new_eq st :
  barf_on_overlapping_facts_new st =
    match conflicts st with
    | [] => Returned tt st
    | _ :: _ => Raised SystemExit st
    end.
Proof.
  unfold barf_on_overlapping_facts_new, bind, gets, ret, barf_and_exit, raise.
  destruct (conflicts st); reflexivity.
Qed.

(** C2, as the code has it. [must_complete_times] ends in one of four
    ways: it returns, and then no conflict was recorded; or it exits
    through [barf_and_exit], and then the state holds every conflict the
    four passes accumulated, together with the facts as the passes left
    them (what they resolved stays written, nothing is rolled back); or
    an assertion failed; or the delta pass raised [OverflowError], when
    a relative delta led out of the range of [datetime].  The store is
    only ever queried. *)
Theorem C2_returns_or_fails_with_all_conflicts (nark : Dated)
    (controller : Controller) (ongoing_okay : bool) (facts : list Fact) :
  (exists st,
     must_complete_times nark controller ongoing_okay facts = Returned tt st /\
     conflicts st = []) \/
  (exists st ante_fact seqt_fact st1 calls,
     must_complete_times nark controller ongoing_okay facts = Raised SystemExit st /\
     conflicts st <> [] /\
     antecedent_fact controller (mkState facts [] []) = Returned ante_fact st1 /\
     subsequent_fact controller st1 = Returned seqt_fact (mkState facts [] calls) /\
     four_passes nark controller ongoing_okay ante_fact seqt_fact
       (mkState facts [] calls) = Returned tt st) \/
  (exists st,
     must_complete_times nark controller ongoing_okay facts = Raised AssertionError st) \/
  (exists st,
     must_complete_times nark controller ongoing_okay facts = Raised OverflowError st).
Proof.
  destruct facts as [|f0 rest] eqn:Hfacts.
  { left. exists (mkState [] [] []). split; reflexivity. }
  rewrite <- Hfacts.
  destruct (must_complete_times_unfold nark controller ongoing_okay facts)
    as (ante & seqt & st1 & calls & Hante & Hseqt & Heq); [congruence|].
  rewrite Heq. unfold bind.
  destruct (four_passes nark controller ongoing_okay ante seqt (mkState facts [] calls))
    as [[] st4|e st4] eqn:Hpasses.
  - rewrite barf_on_overlapping_facts_new_eq.
    destruct (conflicts st4) as [|c cs] eqn:Hcs.
    + left. eauto.
    + right. left. exists st4, ante, seqt, st1, calls.
      rewrite Hcs. repeat split; auto; discriminate.
  - right. right.
    destruct (four_passes_raises _ _ _ _ _ _ _ _ Hpasses) as [-> | ->]; eauto.
Qed.

(** ** C9: an open antecedent before a single new fact *)

(** C9, as the code has it. When [ongoing_okay] is false, the batch is a
    single fact, the antecedent the store returned has no end and there
    is no subsequent fact, the resolver stops on an assertion failure in
    its first pass; no conflict is recorded and the fact is untouched. *)
Theorem C9_open_antecedent_asserts (nark : Dated) (controller : Controller)
    (f : Fact) (ante : StoredFact) (st1 st2 : State) :
  antecedent_fact controller (mkState [f] [] []) = Returned (Some ante) st1 ->
  stored_end ante = None ->
  subsequent_fact controller st1 = Returned None st2 ->
  must_complete_times nark controller false [f] = Raised AssertionError st2 /\
  conflicts st2 = [] /\
  new_facts st2 = [f].
Proof.
  intros Hante Hend Hseqt.
  destruct (must_complete_times_unfold nark controller false [f])
    as (ante' & seqt' & st1' & calls & Hante' & Hseqt' & Heq); [discriminate|].
  rewrite Hante in Hante'. inversion Hante'; subst ante' st1'.
  rewrite Hseqt in Hseqt'. inversion Hseqt'; subst seqt' st2.
  split; [|split; reflexivity].
  rewrite Heq.
  unfold four_passes, fix_clock_times_relative, prev_and_later, bind, gets.
  cbn [new_facts length Nat.eqb negb andb is_none]. rewrite Hend. reflexivity.
Qed.

(** ** C7: a start that is neither a clock time nor a delta *)

Lemma filter_about_start_nil i j which cs :
  Forall (fun c => c_fact c = j /\ c_other c = None /\
                   reason_field (c_reason c) = Some which) cs ->
  j <> i \/ which = WEnd ->
  List.filter (about_start i) cs = [].
Proof.
  intros Hall Hor. induction Hall as [|c cs (Hc & _ & Hr) _ IH]; [reflexivity|].
  cbn [List.filter]. rewrite IH.
  assert (about_start i c = false) as ->; [|reflexivity].
  unfold about_start. destruct Hor as [Hne| ->].
  - rewrite Hc. apply Nat.eqb_neq in Hne. rewrite Hne. reflexivity.
  - destruct (c_reason c) as [? w|? w|? w|w| | |]; try discriminate;
      inversion Hr; subst; cbn; apply andb_false_r.
Qed.

Lemma step_summary_tracked i s X j which f st st' f' cs :
  step_summary j which f st st' f' cs -> new_facts st !! j = Some f ->
  j <> i \/ which = WEnd ->
  tracked i s X st -> tracked i s X st'.
Proof.
  intros Hs Hf Hor [(g & Hg & Hstart) HX].
  pose proof Hs as (Hn & Hc & _ & Hoppo & _ & Hall).
  split.
  - destruct (Nat.eq_dec j i) as [->|Hne].
    + destruct Hor as [Hne| ->]; [congruence|].
      assert (g = f) as -> by congruence.
      exists f'. split; [exact (step_summary_lookup _ _ _ _ _ _ _ Hs Hf)|].
      cbn [opposite getattr] in Hoppo. congruence.
    + exists g. split; [|exact Hstart].
      rewrite (step_summary_other _ _ _ _ _ _ _ _ Hs (not_eq_sym Hne)). exact Hg.
  - rewrite Hc, List.filter_app, HX, (filter_about_start_nil i j which cs Hall Hor).
    apply app_nil_r.
Qed.

Lemma end_step_tracked i s X op j prev_time later_facts st n :
  summarised op ->
  (j < length (new_facts st))%nat -> length (new_facts st) = n ->
  tracked i s X st ->
  wp (op j WEnd prev_time later_facts) st
     (fun _ st' => length (new_facts st') = n /\ tracked i s X st')
     may_raise.
Proof.
  intros Hop Hj Hlen Htr.
  destruct (lookup_lt_is_Some_2 (new_facts st) j Hj) as [f Hf].
  destruct (Hop st j f WEnd prev_time later_facts Hf)
    as [(p2 & st2 & f2 & cs2 & Heq2 & Hs2)|Heq2];
    unfold wp; rewrite Heq2; [|exact I].
  split.
  - rewrite (step_summary_length _ _ _ _ _ _ _ Hs2). exact Hlen.
  - apply (step_summary_tracked _ _ _ _ _ _ _ _ _ _ Hs2 Hf); auto.
Qed.

Lemma two_steps_tracked_other i s X op j prev_time later_facts st :
  summarised op -> j <> i ->
  (j < length (new_facts st))%nat -> tracked i s X st ->
  wp (let* prev_time := op j WStart prev_time later_facts in
      op j WEnd prev_time later_facts) st
     (fun _ st' => length (new_facts st') = length (new_facts st) /\
                   tracked i s X st')
     may_raise.
Proof.
  intros Hop Hne Hj Htr.
  destruct (lookup_lt_is_Some_2 (new_facts st) j Hj) as [f Hf].
  destruct (Hop st j f WStart prev_time later_facts Hf)
    as [(p1 & st1 & f1 & cs1 & Heq1 & Hs1)|Heq1];
    apply wp_bind; unfold wp at 1; rewrite Heq1; [|exact I].
  pose proof (step_summary_length _ _ _ _ _ _ _ Hs1) as Hlen1.
  apply end_step_tracked; [exact Hop|rewrite Hlen1; exact Hj|exact Hlen1|].
  apply (step_summary_tracked _ _ _ _ _ _ _ _ _ _ Hs1 Hf); auto.
Qed.

Lemma two_steps_tracked_skip i s X op prev_time later_facts st :
  summarised op ->
  (forall st f prev_time later_facts, new_facts st !! i = Some f ->
     fact_start f = Text s ->
     op i WStart prev_time later_facts st = Returned prev_time st) ->
  (i < length (new_facts st))%nat -> tracked i s X st ->
  wp (let* prev_time := op i WStart prev_time later_facts in
      op i WEnd prev_time later_facts) st
     (fun _ st' => length (new_facts st') = length (new_facts st) /\
                   tracked i s X st')
     may_raise.
Proof.
  intros Hop Hskip Hi Htr.
  pose proof Htr as [(f & Hf & Hstart) _].
  apply wp_bind. unfold wp at 1. rewrite (Hskip st f prev_time later_facts Hf Hstart).
  apply end_step_tracked; auto.
Qed.

Lemma returning_summarised op : returning op -> summarised op.
Proof. intros Hop st j f which p l Hf. left. exact (Hop st j f which p l Hf). Qed.

Lemma fix_clock_time_relative_returning nark :
  returning (fix_clock_time_relative nark).
Proof. intros st j f which p l Hf. apply fix_clock_time_relative_summary, Hf. Qed.

Lemma fix_blank_time_relative_returning controller :
  returning (fix_blank_time_relative controller).
Proof.
  intros st j f which p l Hf.
  destruct (fix_blank_time_relative_summary controller st j f which p l Hf)
    as (p' & st' & f' & cs & Heq & Hs & _).
  eauto 8.
Qed.

Lemma fix_clock_time_relative_summarised nark :
  summarised (fix_clock_time_relative nark).
Proof. apply returning_summarised, fix_clock_time_relative_returning. Qed.

Lemma fix_delta_time_relative_summarised nark :
  summarised (fix_delta_time_relative nark).
Proof. intros st j f which p l Hf. apply fix_delta_time_relative_summary, Hf. Qed.

Lemma fix_blank_time_relative_summarised controller :
  summarised (fix_blank_time_relative controller).
Proof. apply returning_summarised, fix_blank_time_relative_returning. Qed.

Lemma fix_clock_times_relative_tracked nark ongoing_okay ante_fact seqt_fact
    i s X st st' :
  parse_clock_time nark s = None ->
  tracked i s X st ->
  fix_clock_times_relative nark ongoing_okay ante_fact seqt_fact st = Returned tt st' ->
  tracked i s X st'.
Proof.
  intros Hparse Htr Hret. unfold fix_clock_times_relative in Hret.
  apply (pass_inv _ _ _ _ (fun p => p)
           (fun _ _ st1 => length (new_facts st1) = length (new_facts st) /\
                           tracked i s X st1)
           (tracked i s X) _ _ Hret).
  - intros j p st1 Hj [Hlen Htr1]. cbv beta. rewrite <- Hlen in Hj.
    assert (Hskip : forall st0 f p0 l, new_facts st0 !! i = Some f ->
              fact_start f = Text s ->
              fix_clock_time_relative nark i WStart p0 l st0 = Returned p0 st0).
    { intros st0 f p0 l Hf Hstart.
      rewrite (fix_clock_time_relative_eq _ _ _ _ _ _ _ Hf). cbn [getattr].
      rewrite Hstart, Hparse. reflexivity. }
    pose proof (fix_clock_time_relative_summarised nark) as Hsum.
    eapply wp_mono with
      (Q := fun _ st2 => length (new_facts st2) = length (new_facts st1) /\
                         tracked i s X st2)
      (E := may_raise).
    + cbv beta. intros _ st2 [Hlen2 Htr2]. split; [congruence|exact Htr2].
    + auto.
    + destruct (Nat.eq_dec j i) as [->|Hne].
      * apply two_steps_tracked_skip; auto.
      * apply two_steps_tracked_other; auto.
  - auto.
  - cbv beta. tauto.
Qed.

Lemma fix_delta_times_relative_tracked nark ongoing_okay ante_fact seqt_fact
    i s X st st' :
  fst (parse_relative_minutes nark s) = None ->
  tracked i s X st ->
  fix_delta_times_relative nark ongoing_okay ante_fact seqt_fact st = Returned tt st' ->
  tracked i s X st'.
Proof.
  intros Hparse Htr Hret. unfold fix_delta_times_relative in Hret.
  apply (pass_inv _ _ _ _ (fun p => p)
           (fun _ _ st1 => length (new_facts st1) = length (new_facts st) /\
                           tracked i s X st1)
           (tracked i s X) _ _ Hret).
  - intros j p st1 Hj [Hlen Htr1]. cbv beta. rewrite <- Hlen in Hj.
    assert (Hskip : forall st0 f p0 l, new_facts st0 !! i = Some f ->
              fact_start f = Text s ->
              fix_delta_time_relative nark i WStart p0 l st0 = Returned p0 st0).
    { intros st0 f p0 l Hf Hstart.
      rewrite (fix_delta_time_relative_eq _ _ _ _ _ _ _ Hf). cbn [getattr].
      rewrite Hstart. destruct (parse_relative_minutes nark s) as [[d|] m];
        [discriminate Hparse|reflexivity]. }
    pose proof (fix_delta_time_relative_summarised nark) as Hsum.
    eapply wp_mono with
      (Q := fun _ st2 => length (new_facts st2) = length (new_facts st1) /\
                         tracked i s X st2)
      (E := may_raise).
    + cbv beta. intros _ st2 [Hlen2 Htr2]. split; [congruence|exact Htr2].
    + auto.
    + destruct (Nat.eq_dec j i) as [->|Hne].
      * apply two_steps_tracked_skip; auto.
      * apply two_steps_tracked_other; auto.
  - auto.
  - cbv beta. tauto.
Qed.

Lemma truthy_text s : s <> EmptyString -> truthy (Text s) = true.
Proof.
  intros Hs. cbn. destruct (String.eqb_spec s EmptyString); [contradiction|reflexivity].
Qed.

Lemma about_start_could_not_translate i s :
  about_start i (could_not_translate_start i s) = true.
Proof. unfold about_start. cbn. rewrite Nat.eqb_refl. reflexivity. Qed.

Lemma fix_blank_times_relative_tracked controller ongoing_okay ante_fact seqt_fact
    i s st st' :
  s <> EmptyString ->
  tracked i s [] st ->
  fix_blank_times_relative controller ongoing_okay ante_fact seqt_fact st
    = Returned tt st' ->
  tracked i s [could_not_translate_start i s] st'.
Proof.
  intros Hs Htr Hret. unfold fix_blank_times_relative in Hret.
  assert (Hi : (i < length (new_facts st))%nat).
  { destruct Htr as [(f & Hf & _) _]. apply lookup_lt_is_Some. eauto. }
  pose proof (fix_blank_time_relative_summarised controller) as Hsum.
  apply (pass_inv _ _ _ _ (fun p => p)
           (fun j _ st1 =>
              length (new_facts st1) = length (new_facts st) /\
              tracked i s (if Nat.ltb i j then [could_not_translate_start i s] else [])
                st1)
           (tracked i s [could_not_translate_start i s]) _ _ Hret).
  - intros j p st1 Hj [Hlen Htr1]. cbv beta. rewrite <- Hlen in Hj.
    destruct (lookup_lt_is_Some_2 (new_facts st1) j Hj) as [f Hf].
    unfold wp.
    rewrite (bind_eq _ _ _ _ _ (read_attr_eq st1 j f WStart Hf)).
    rewrite (bind_eq _ _ _ _ _ (read_attr_eq st1 j f WEnd Hf)).
    destruct (truthy (getattr f WStart) || truthy (getattr f WEnd))%bool;
      [|exact I].
    unfold py_assert. unfold bind at 1, ret at 1.
    change (wp (let* prev_time := fix_blank_time_relative controller j WStart p
                                    (later_from (Datatypes.S j) (length (new_facts st))
                                       (seqt_tail seqt_fact)) in
                fix_blank_time_relative controller j WEnd prev_time
                  (later_from (Datatypes.S j) (length (new_facts st))
                     (seqt_tail seqt_fact))) st1
              (fun _ st2 =>
                 length (new_facts st2) = length (new_facts st) /\
                 tracked i s
                   (if Nat.ltb i (Datatypes.S j)
                    then [could_not_translate_start i s] else []) st2)
              may_raise).
    destruct (Nat.eq_dec j i) as [->|Hne].
    + rewrite Nat.ltb_irrefl in Htr1.
      assert (Nat.ltb i (Datatypes.S i) = true) as -> by (apply Nat.ltb_lt; lia).
      pose proof Htr1 as [(g & Hg & Hstart) HX].
      assert (g = f) as -> by congruence.
      apply wp_bind. unfold wp at 1.
      rewrite (fix_blank_time_relative_eq _ _ _ _ _ _ _ Hf). cbn [getattr].
      rewrite Hstart, (truthy_text s Hs).
      apply end_step_tracked; auto.
      split; [exists f; auto|].
      cbn [conflicts add_conflict]. rewrite List.filter_app, HX.
      fold (could_not_translate_start i s). cbn [List.filter app].
      rewrite about_start_could_not_translate. reflexivity.
    + assert (Nat.ltb i (Datatypes.S j) = Nat.ltb i j) as ->.
      { destruct (Nat.ltb_spec i j), (Nat.ltb_spec i (Datatypes.S j)); auto; lia. }
      eapply wp_mono; [| |apply two_steps_tracked_other; eauto].
      * cbv beta. intros _ st2 [Hlen2 Htr2]. split; [congruence|exact Htr2].
      * auto.
  - auto.
  - cbv beta. intros p st1 [_ Htr1].
    assert (Nat.ltb i (length (new_facts st)) = true) as Hlt
      by (apply Nat.ltb_lt; exact Hi).
    rewrite Hlt in Htr1. exact Htr1.
Qed.

Lemma sanity_conflicts_not_about_start i s facts cs :
  (exists f, facts !! i = Some f /\ fact_start f = Text s) ->
  Forall (sanity_conflict facts) cs ->
  List.filter (about_start i) cs = [].
Proof.
  intros (f & Hf & Hstart) Hall.
  induction Hall as [|c cs [Hr Hk] _ IH]; [reflexivity|].
  cbn [List.filter]. rewrite IH.
  assert (about_start i c = false) as ->; [|reflexivity].
  unfold about_start. destruct (Nat.eqb_spec (c_fact c) i) as [Hc|]; [|reflexivity].
  cbn [andb]. destruct Hk as [->|(g & Hg & Hdt)]; [reflexivity|].
  rewrite Hc in Hg. assert (g = f) as -> by congruence.
  rewrite Hstart in Hdt. discriminate.
Qed.

(** C7. A start that holds a non-empty text which neither parser
    accepts makes the resolver fail: it never returns normally, and when
    the four passes complete it exits with exactly one conflict about
    that start, the "could not translate" conflict of the blank-fill
    pass; the sanity pass adds none. *)
Theorem C7_unparsed_start_one_conflict (nark : Dated) (controller : Controller)
    (ongoing_okay : bool) (facts : list Fact) (i : nat) (f : Fact) (s : string) :
  facts !! i = Some f ->
  fact_start f = Text s ->
  s <> EmptyString ->
  parse_clock_time nark s = None ->
  fst (parse_relative_minutes nark s) = None ->
  match must_complete_times nark controller ongoing_okay facts with
  | Returned _ _ => False
  | Raised SystemExit st =>
      List.filter (about_start i) (conflicts st) =
        [mkConflict i None (CouldNotTranslate (Text s) WStart)]
  | Raised _ _ => True
  end.
Proof.
  intros Hf Hstart Hs Hclock Hdelta.
  destruct (must_complete_times_unfold nark controller ongoing_okay facts)
    as (ante & seqt & st1 & calls & _ & _ & Heq).
  { intros ->. discriminate. }
  rewrite Heq. unfold bind.
  destruct (four_passes nark controller ongoing_okay ante seqt (mkState facts [] calls))
    as [[] st4|e st4] eqn:Hpasses.
  2: { destruct (four_passes_raises _ _ _ _ _ _ _ _ Hpasses) as [-> | ->]; exact I. }
  assert (Htr0 : tracked i s [] (mkState facts [] calls)).
  { split; [exists f; auto|reflexivity]. }
  unfold four_passes in Hpasses.
  apply bind_returned in Hpasses. destruct Hpasses as ([] & sta & Hclk & Hpasses).
  apply bind_returned in Hpasses. destruct Hpasses as ([] & stb & Hdlt & Hpasses).
  apply bind_returned in Hpasses. destruct Hpasses as ([] & stc & Hblank & Hsanity).
  pose proof (fix_clock_times_relative_tracked _ _ _ _ _ _ _ _ _ Hclock Htr0 Hclk) as Htra.
  pose proof (fix_delta_times_relative_tracked _ _ _ _ _ _ _ _ _ Hdelta Htra Hdlt) as Htrb.
  pose proof (fix_blank_times_relative_tracked _ _ _ _ _ _ _ _ Hs Htrb Hblank) as Htrc.
  destruct (fix_blank_times_relative_done _ _ _ _ _ _ Hblank) as [Hlen Hdone].
  rewrite <- Hlen in Hdone.
  unfold fix_blank_times_relative in Hblank.
  destruct (pass_returned_prev_and_later _ _ _ _ (fun p => p) _ _ Hblank) as [pl Hpl].
  pose proof (prev_and_later_same_length _ _ _ _ stc _ Hpl Hlen) as Hpl'.
  destruct (verify_datetimes_sanity_returns _ _ _ _ _ Hpl' Hdone) as (cs & Heq4 & Hcs).
  rewrite Heq4 in Hsanity. inversion Hsanity as [Hst4]. clear Hsanity.
  destruct Htrc as [Hfi HX].
  assert (Hfilter : List.filter (about_start i) (conflicts (add_conflicts stc cs)) =
                    [could_not_translate_start i s]).
  { cbn [conflicts add_conflicts]. rewrite List.filter_app, HX.
    rewrite (sanity_conflicts_not_about_start i s _ cs Hfi Hcs). reflexivity. }
  rewrite barf_on_overlapping_facts_new_eq.
  destruct (conflicts (add_conflicts stc cs)) as [|c0 cs0] eqn:Hall.
  - discriminate Hfilter.
  - rewrite Hall. exact Hfilter.
Qed.

(** ** C4 and C5: the two single-fact scenarios *)

(** C4, as the code has it. A single new fact with no start and the
    delta "-15" as its end holds no timestamp, so the store is never
    asked for an antecedent and no cursor exists: the delta pass finds
    no later timestamp for the negative delta and records a conflict,
    the blank-fill pass records that the start cannot be inferred and
    that the end was not translated, and the resolver exits with these
    three conflicts, both fields unresolved. *)
Theorem C4_delta_end_without_anchor (nark : Dated) (controller : Controller)
    (ongoing_okay : bool) :
  parse_clock_time nark "-15" = None ->
  parse_relative_minutes nark "-15" = (Some (-15), Some true) ->
  must_complete_times nark controller ongoing_okay [new_fact Absent (Text "-15")] =
    Raised SystemExit
      (mkState [new_fact Absent (Text "-15")]
         [mkConflict 0 None (CouldNotInferDelta (-15) WEnd);
          mkConflict 0 None (CouldNotInferBlank WStart);
          mkConflict 0 None (CouldNotTranslate (Text "-15") WEnd)]
         []).
Proof.
  intros Hclock Hdelta.
  destruct nark as [pc pr da dp], controller as [an su nw].
  cbn [parse_clock_time parse_relative_minutes] in Hclock, Hdelta.
  cbv -[plus_minutes]. rewrite Hclock. cbv -[plus_minutes]. rewrite Hdelta. reflexivity.
Qed.

Lemma C4_delta_end_witness :
  parse_clock_time NarkModel.dated "-15" = None /\
  parse_relative_minutes NarkModel.dated "-15" = (Some (-15), Some true) /\
  must_complete_times NarkModel.dated scenario_c4_store false
    [new_fact Absent (Text "-15")] =
    Raised SystemExit
      (mkState [new_fact Absent (Text "-15")]
         [mkConflict 0 None (CouldNotInferDelta (-15) WEnd);
          mkConflict 0 None (CouldNotInferBlank WStart);
          mkConflict 0 None (CouldNotTranslate (Text "-15") WEnd)]
         []).
Proof.
  split; [reflexivity|]. split; [reflexivity|].
  apply (C4_delta_end_without_anchor NarkModel.dated scenario_c4_store false);
    reflexivity.
Defined.

(** The scenario of C4 does not end as the claim has it. *)
Lemma C4_counterexample :
  ~ exists st,
      must_complete_times NarkModel.dated scenario_c4_store false
        [new_fact Absent (Text "-15")] = Returned tt st /\
      conflicts st = [] /\
      new_facts st = [new_fact (Datetime (on_2020_01_01 9 0))
                               (Datetime (on_2020_01_01 9 15))].
Proof. intros (st & H & _). vm_compute in H. discriminate H. Qed.

(** C5, as the code has it. A single new fact with the clock time
    "14:00" as its start and no end holds no timestamp, so the store is
    never asked for an antecedent: the clock pass has no anchor and
    records a conflict, the blank-fill pass records that the start was
    not translated and fills the end with the store's [now], and the
    resolver exits with these two conflicts. *)
Theorem C5_clock_start_without_anchor (nark : Dated) (controller : Controller)
    (ongoing_okay : bool) :
  parse_clock_time nark "14:00" = Some (14, 0, 0) ->
  fst (parse_relative_minutes nark "14:00") = None ->
  must_complete_times nark controller ongoing_okay [new_fact (Text "14:00") Absent] =
    Raised SystemExit
      (mkState [new_fact (Text "14:00") (Datetime (now controller))]
         [mkConflict 0 None (CouldNotDecipherClock (14, 0, 0) WStart);
          mkConflict 0 None (CouldNotTranslate (Text "14:00") WStart)]
         [CallNow]).
Proof.
  intros Hclock Hdelta.
  destruct nark as [pc pr da dp], controller as [an su nw].
  cbn [parse_clock_time parse_relative_minutes] in Hclock, Hdelta.
  cbv -[plus_minutes]. rewrite Hclock. cbv -[plus_minutes].
  destruct (pr "14:00") as [[d|] m]; [discriminate Hdelta|]. reflexivity.
Qed.

Lemma C5_clock_start_witness :
  parse_clock_time NarkModel.dated "14:00" = Some (14, 0, 0) /\
  fst (parse_relative_minutes NarkModel.dated "14:00") = None /\
  must_complete_times NarkModel.dated scenario_c5_store true
    [new_fact (Text "14:00") Absent] =
    Raised SystemExit
      (mkState [new_fact (Text "14:00") (Datetime (on_2020_01_01 15 0))]
         [mkConflict 0 None (CouldNotDecipherClock (14, 0, 0) WStart);
          mkConflict 0 None (CouldNotTranslate (Text "14:00") WStart)]
         [CallNow]).
Proof.
  split; [reflexivity|]. split; [reflexivity|].
  apply (C5_clock_start_without_anchor NarkModel.dated scenario_c5_store true);
    reflexivity.
Defined.

(** The scenario of C5 does not end as the claim has it. *)
Lemma C5_counterexample :
  ~ exists st,
      must_complete_times NarkModel.dated scenario_c5_store true
        [new_fact (Text "14:00") Absent] = Returned tt st /\
      new_facts st = [new_fact (Datetime (on_2020_01_01 14 0)) Absent].
Proof. intros (st & H & _). vm_compute in H. discriminate H. Qed.

(** ** The theorems at concrete inputs *)

Lemma in_orderb_sound facts :
  forall prev, in_orderb prev facts = true ->
    resolved_in_order facts /\
    (forall p f s, prev = Some p -> facts !! 0%nat = Some f ->
       fact_start f = Datetime s -> p <= s).
Proof.
  induction facts as [|f rest IH]; intros prev H.
  - repeat split; intros; cbn in *; discriminate.
  - cbn [in_orderb] in H.
    destruct (fact_start f) as [|s|] eqn:Hs; try discriminate.
    destruct (fact_end f) as [|e|] eqn:He; try discriminate.
    apply andb_prop in H. destruct H as [H Hrest].
    apply andb_prop in H. destruct H as [Hprev Hse].
    apply Z.leb_le in Hse.
    destruct (IH (Some e) Hrest) as [[Hres Hord] Hfirst].
    split; [split|].
    + intros [|i] g Hg; cbn in Hg.
      * inversion Hg; subst. exists s, e. unfold two_timestamps. auto.
      * exact (Hres i g Hg).
    + intros [|i] g h e' s' Hg Hh He' Hs'; cbn in Hg, Hh.
      * inversion Hg; subst. assert (e' = e) as -> by congruence.
        exact (Hfirst e h s' eq_refl Hh Hs').
      * exact (Hord i g h e' s' Hg Hh He' Hs').
    + intros p g s' -> Hg Hs'. cbn in Hg. inversion Hg; subst.
      assert (s' = s) as -> by congruence. apply Z.leb_le. exact Hprev.
Qed.

Lemma C1_resolved_batch_witness :
  antecedent_fact scenario_c1_store (mkState scenario_c1_facts [] [])
    = Returned (Some scenario_c1_ante) scenario_c1_st1 /\
  subsequent_fact scenario_c1_store scenario_c1_st1
    = Returned (Some scenario_c1_seqt) scenario_c1_st2 /\
  must_complete_times NarkModel.dated scenario_c1_store false scenario_c1_facts
    = Returned tt scenario_c1_final /\
  conflicts scenario_c1_final = [] /\
  timeline_in_order (Some scenario_c1_ante) (Some scenario_c1_seqt)
    (new_facts scenario_c1_final).
Proof.
  split; [reflexivity|]. split; [reflexivity|]. split; [vm_compute; reflexivity|].
  apply (C1_resolved_batch_is_monotonic NarkModel.dated scenario_c1_store false
           scenario_c1_facts (Some scenario_c1_ante) (Some scenario_c1_seqt)
           scenario_c1_st1 scenario_c1_st2 scenario_c1_final);
    vm_compute; reflexivity.
Defined.


Lemma C6_resolved_batch_witness :
  resolved_in_order scenario_c6_facts /\
  (forall t, antecedent no_neighbours t = None) /\
  (forall t, subsequent no_neighbours t = None) /\
  exists calls,
    must_complete_times NarkModel.dated no_neighbours false scenario_c6_facts =
      Returned tt (mkState scenario_c6_facts [] calls).
Proof.
  split; [exact (proj1 (in_orderb_sound scenario_c6_facts None eq_refl))|].
  split; [reflexivity|]. split; [reflexivity|].
  apply (C6_resolved_batch_unchanged NarkModel.dated no_neighbours false
           scenario_c6_facts).
  - exact (proj1 (in_orderb_sound scenario_c6_facts None eq_refl)).
  - reflexivity.
  - reflexivity.
Defined.

Lemma C7_unparsed_start_witness :
  scenario_c7_facts !! 0%nat
    = Some (new_fact (Text "garbage") (Datetime (on_2020_01_01 12 0))) /\
  parse_clock_time NarkModel.dated "garbage" = None /\
  fst (parse_relative_minutes NarkModel.dated "garbage") = None /\
  must_complete_times NarkModel.dated no_neighbours false scenario_c7_facts =
    Raised SystemExit
      (mkState scenario_c7_facts
         [mkConflict 0 None (CouldNotTranslate (Text "garbage") WStart)]
         [CallAntecedent (on_2020_01_01 12 0); CallSubsequent (on_2020_01_01 12 0)]) /\
  match must_complete_times NarkModel.dated no_neighbours false scenario_c7_facts with
  | Returned _ _ => False
  | Raised SystemExit st =>
      List.filter (about_start 0) (conflicts st) =
        [mkConflict 0 None (CouldNotTranslate (Text "garbage") WStart)]
  | Raised _ _ => True
  end.
Proof.
  split; [reflexivity|]. split; [reflexivity|]. split; [reflexivity|].
  split; [vm_compute; reflexivity|].
  apply (C7_unparsed_start_one_conflict NarkModel.dated no_neighbours false
           scenario_c7_facts 0
           (new_fact (Text "garbage") (Datetime (on_2020_01_01 12 0))) "garbage").
  - reflexivity.
  - reflexivity.
  - discriminate.
  - reflexivity.
  - reflexivity.
Defined.

Lemma C8_missing_field_witness :
  (fix_clock_times_relative NarkModel.dated false None None ;;;
   fix_delta_times_relative NarkModel.dated false None None ;;;
   fix_blank_times_relative no_neighbours false None None) scenario_c8_state
    = Returned tt scenario_c8_after_blank /\
  (forall i f, new_facts scenario_c8_after_blank !! i = Some f ->
     truthy (fact_start f) = false \/ truthy (fact_end f) = false ->
     exists c, In c (conflicts scenario_c8_after_blank) /\ c_fact c = i) /\
  exists cs,
    verify_datetimes_sanity false None None scenario_c8_after_blank
      = Returned tt (add_conflicts scenario_c8_after_blank cs) /\
    Forall (fun c => reason_field (c_reason c) = None) cs.
Proof.
  split; [vm_compute; reflexivity|].
  apply (C8_missing_field_already_caught NarkModel.dated no_neighbours false
           None None scenario_c8_state scenario_c8_after_blank).
  vm_compute. reflexivity.
Defined.

Lemma C9_open_antecedent_witness :
  antecedent_fact scenario_c9_store (mkState [scenario_c9_fact] [] [])
    = Returned (Some open_antecedent) scenario_c9_st1 /\
  stored_end open_antecedent = None /\
  subsequent_fact scenario_c9_store scenario_c9_st1 = Returned None scenario_c9_st2 /\
  must_complete_times NarkModel.dated scenario_c9_store false [scenario_c9_fact]
    = Raised AssertionError scenario_c9_st2 /\
  conflicts scenario_c9_st2 = [] /\
  new_facts scenario_c9_st2 = [scenario_c9_fact].
Proof.
  split; [reflexivity|]. split; [reflexivity|]. split; [reflexivity|].
  apply (C9_open_antecedent_asserts NarkModel.dated scenario_c9_store
           scenario_c9_fact open_antecedent scenario_c9_st1 scenario_c9_st2);
    reflexivity.
Defined.

(** With [ongoing_okay] set, the same call (open antecedent, one new
    fact, no subsequent fact) returns normally. *)
Lemma C9_counterexample :
  antecedent_fact scenario_c9_store (mkState [scenario_c9_fact] [] [])
    = Returned (Some open_antecedent) scenario_c9_st1 /\
  stored_end open_antecedent = None /\
  subsequent_fact scenario_c9_store scenario_c9_st1 = Returned None scenario_c9_st2 /\
  must_complete_times NarkModel.dated scenario_c9_store true [scenario_c9_fact]
    = Returned tt scenario_c9_st2.
Proof. repeat split; vm_compute; reflexivity. Qed.

Lemma C2_counterexample :
  exists st,
    must_complete_times NarkModel.dated no_neighbours false scenario_c2_facts
      = Raised SystemExit st /\
    new_facts st !! 0%nat =
      Some (new_fact (Datetime (on_2020_01_01 10 0)) (Datetime (on_2020_01_01 10 30))) /\
    new_facts st <> scenario_c2_facts.
Proof.
  eexists. split; [vm_compute; reflexivity|].
  split; [reflexivity|]. discriminate.
Qed.

(** ** What every pass preserves, whatever its outcome *)

Lemma for_each_fact_preserves {S : Type} (body : nat -> list FactRef -> S -> M S)
    (R : State -> Prop) :
  (forall i later_facts s st, R st ->
     wp (body i later_facts s) st (fun _ => R) (fun _ => R)) ->
  forall idxs later_facts s st, R st ->
    wp (for_each_fact body idxs later_facts s) st (fun _ => R) (fun _ => R).
Proof.
  intros Hbody idxs. induction idxs as [|i idxs IH]; intros later_facts s st HR.
  - exact HR.
  - cbn [for_each_fact]. destruct later_facts as [|head later']; [exact HR|].
    apply wp_bind. unfold py_assert.
    destruct (is_same i head); [|exact HR].
    unfold wp at 1, ret. apply wp_bind.
    eapply wp_mono; [| |apply Hbody; exact HR].
    + cbv beta. intros s' st' HR'. apply IH. exact HR'.
    + auto.
Qed.

Lemma prev_and_later_state ongoing_okay ante_fact seqt_fact st :
  final_state (prev_and_later ongoing_okay ante_fact seqt_fact st) = st.
Proof.
  destruct (prev_and_later_cases ongoing_okay ante_fact seqt_fact st) as [H|[H _]];
    rewrite H; reflexivity.
Qed.

Lemma pass_preserves {S : Type} ongoing_okay ante_fact seqt_fact
    (body : nat -> list FactRef -> S -> M S) (init : option Z -> S)
    (R : State -> Prop) st :
  (forall i later_facts s st, R st ->
     wp (body i later_facts s) st (fun _ => R) (fun _ => R)) ->
  R st ->
  wp (let* pl := prev_and_later ongoing_okay ante_fact seqt_fact in
      for_new_facts body (snd pl) (init (fst pl)) ;;; ret tt)
     st (fun _ => R) (fun _ => R).
Proof.
  intros Hbody HR. apply wp_bind.
  pose proof (prev_and_later_state ongoing_okay ante_fact seqt_fact st) as Hst.
  unfold wp at 1.
  destruct (prev_and_later ongoing_okay ante_fact seqt_fact st) as [pl st1|e st1];
    cbn [final_state] in Hst; subst st1; [|exact HR].
  apply wp_bind. unfold for_new_facts. apply wp_bind. unfold wp at 1, gets.
  eapply wp_mono; [| |apply for_each_fact_preserves; [exact Hbody|exact HR]].
  - cbv beta. intros s st' HR'. exact HR'.
  - auto.
Qed.

(** Two field steps in a row, when each is summarised by [step_summary]
    and [R] survives a summarised step. *)
Lemma two_steps_preserve (R : State -> Prop) op i prev_time later_facts st :
  summarised op ->
  (forall st, new_facts st !! i = None ->
     forall which p, exists e, op i which p later_facts st = Raised e st) ->
  (forall j which f st st' f' cs, new_facts st !! j = Some f ->
     step_summary j which f st st' f' cs -> R st -> R st') ->
  R st ->
  wp (let* prev_time := op i WStart prev_time later_facts in
      op i WEnd prev_time later_facts) st (fun _ => R) (fun _ => R).
Proof.
  intros Hop Hnone Hstep HR.
  destruct (new_facts st !! i) as [f|] eqn:Hf.
  - destruct (Hop st i f WStart prev_time later_facts Hf)
      as [(p1 & st1 & f1 & cs1 & Heq1 & Hs1)|Heq1];
      apply wp_bind; unfold wp at 1; rewrite Heq1; [|exact HR].
    pose proof (step_summary_lookup _ _ _ _ _ _ _ Hs1 Hf) as Hf1.
    destruct (Hop st1 i f1 WEnd p1 later_facts Hf1)
      as [(p2 & st2 & f2 & cs2 & Heq2 & Hs2)|Heq2];
      unfold wp; rewrite Heq2; eauto.
  - destruct (Hnone st Hf WStart prev_time) as [e He].
    unfold wp, bind. rewrite He. exact HR.
Qed.

Lemma read_attr_none st i which :
  new_facts st !! i = None -> read_attr i which st = Raised IndexError st.
Proof. unfold read_attr. intros ->. reflexivity. Qed.

Lemma fix_clock_time_relative_none nark st i later_facts :
  new_facts st !! i = None ->
  forall which p, exists e,
    fix_clock_time_relative nark i which p later_facts st = Raised e st.
Proof.
  intros Hf which p. exists IndexError.
  unfold fix_clock_time_relative, bind. rewrite (read_attr_none _ _ _ Hf). reflexivity.
Qed.

Lemma fix_delta_time_relative_none nark st i later_facts :
  new_facts st !! i = None ->
  forall which p, exists e,
    fix_delta_time_relative nark i which p later_facts st = Raised e st.
Proof.
  intros Hf which p. exists IndexError.
  unfold fix_delta_time_relative, bind. rewrite (read_attr_none _ _ _ Hf). reflexivity.
Qed.

Lemma fix_blank_time_relative_none controller st i later_facts :
  new_facts st !! i = None ->
  forall which p, exists e,
    fix_blank_time_relative controller i which p later_facts st = Raised e st.
Proof.
  intros Hf which p. exists IndexError.
  unfold fix_blank_time_relative, bind. rewrite (read_attr_none _ _ _ Hf). reflexivity.
Qed.

(** The first three passes, for a predicate that survives every
    summarised field step. *)
Lemma three_passes_preserve nark controller ongoing_okay ante_fact seqt_fact
    (R : State -> Prop) :
  (forall j which f st st' f' cs, new_facts st !! j = Some f ->
     step_summary j which f st st' f' cs -> R st -> R st') ->
  forall st, R st ->
    wp (fix_clock_times_relative nark ongoing_okay ante_fact seqt_fact) st
       (fun _ => R) (fun _ => R) /\
    wp (fix_delta_times_relative nark ongoing_okay ante_fact seqt_fact) st
       (fun _ => R) (fun _ => R) /\
    wp (fix_blank_times_relative controller ongoing_okay ante_fact seqt_fact) st
       (fun _ => R) (fun _ => R).
Proof.
  intros Hstep st HR. split; [|split].
  - apply (pass_preserves _ _ _ _ (fun p => p)); [|exact HR].
    intros i later_facts s st1 HR1.
    apply (two_steps_preserve R (fix_clock_time_relative nark)); auto.
    + apply fix_clock_time_relative_summarised.
    + intros. apply fix_clock_time_relative_none. assumption.
  - apply (pass_preserves _ _ _ _ (fun p => p)); [|exact HR].
    intros i later_facts s st1 HR1.
    apply (two_steps_preserve R (fix_delta_time_relative nark)); auto.
    + apply fix_delta_time_relative_summarised.
    + intros. apply fix_delta_time_relative_none. assumption.
  - apply (pass_preserves _ _ _ _ (fun p => p)); [|exact HR].
    intros i later_facts s st1 HR1.
    unfold wp.
    destruct (new_facts st1 !! i) as [f|] eqn:Hf.
    + rewrite (bind_eq _ _ _ _ _ (read_attr_eq st1 i f WStart Hf)).
      rewrite (bind_eq _ _ _ _ _ (read_attr_eq st1 i f WEnd Hf)).
      destruct (truthy (getattr f WStart) || truthy (getattr f WEnd))%bool;
        [|exact HR1].
      unfold py_assert. unfold bind at 1, ret at 1.
      apply (two_steps_preserve R (fix_blank_time_relative controller)); auto.
      * apply fix_blank_time_relative_summarised.
      * intros. apply fix_blank_time_relative_none. assumption.
    + unfold bind. rewrite (read_attr_none _ _ _ Hf). exact HR1.
Qed.

Lemma conflicts_added_refl st : conflicts_added st st.
Proof. exists []. symmetry. apply add_conflicts_nil. Qed.

Lemma conflicts_added_trans st st1 st2 :
  conflicts_added st st1 -> conflicts_added st1 st2 -> conflicts_added st st2.
Proof.
  intros [cs ->] [cs' ->]. exists (cs ++ cs'). apply add_conflicts_app.
Qed.

(** The sanity check of a fact touches nothing but the conflict list,
    whether it returns or raises. *)
Lemma verify_fact_sanity_frame st i later_facts s :
  wp (verify_fact_sanity i later_facts s) st
     (fun _ st' => conflicts_added st st') (fun _ st' => conflicts_added st st').
Proof.
  destruct st as [facts cs calls], s as [prev_time prev_fact].
  unfold wp, conflicts_added, add_conflicts, verify_fact_sanity,
    verify_datetimes_missing_already_caught, next_datetime.
  cbn [new_facts conflicts store_calls].
  destruct (facts !! i) as [[pk fs fe]|] eqn:Hf.
  2: { mrun. rewrite Hf. exists []. rewrite app_nil_r. reflexivity. }
  destruct (find_next_datetime facts later_facts)
    as [[next_time next_fact]|] eqn:Hnext.
  all: destruct fs as [|ts|ss]; cbn [truthy] in *;
    try destruct (String.eqb ss EmptyString) eqn:Hss; cbn [negb] in *.
  all: destruct fe as [|te|se]; cbn [truthy] in *;
    try destruct (String.eqb se EmptyString) eqn:Hse; cbn [negb] in *.
  all: repeat (mrun; rewrite ?Hf, ?Hnext, ?Hss, ?Hse;
               try match goal with
                   | |- context [match ?p with Some _ => _ | None => _ end] =>
                       is_var p; destruct p
                   | |- context [if Z.ltb ?a ?b then _ else _] => destruct (Z.ltb a b)
                   | |- context [if Z.gtb ?a ?b then _ else _] => destruct (Z.gtb a b)
                   | |- context [if Nat.ltb ?a ?b then _ else _] => destruct (Nat.ltb a b)
                   end).
  all: eexists; rewrite <- ?app_assoc; cbn [app];
    first [reflexivity | rewrite <- (app_nil_r cs) at 1; reflexivity].
Qed.

Lemma verify_datetimes_sanity_preserves ongoing_okay ante_fact seqt_fact
    (R : State -> Prop) :
  (forall st st', conflicts_added st st' -> R st -> R st') ->
  forall st, R st ->
    wp (verify_datetimes_sanity ongoing_okay ante_fact seqt_fact) st
       (fun _ => R) (fun _ => R).
Proof.
  intros Hadd st HR.
  apply (pass_preserves _ _ _ _ (fun p => (p, option_map RStored ante_fact)));
    [|exact HR].
  intros i later_facts s st1 HR1.
  eapply wp_mono; [| |apply verify_fact_sanity_frame]; cbv beta; eauto.
Qed.

(** X1. The sanity pass only reports: whether it returns or stops on an
    assertion, the state it ends in is the state it started from with
    conflicts appended; the facts and the store calls are as before. *)
Theorem X1_sanity_pass_only_appends_conflicts (ongoing_okay : bool)
    (ante_fact seqt_fact : option StoredFact) (st : State) :
  exists cs,
    final_state (verify_datetimes_sanity ongoing_okay ante_fact seqt_fact st)
      = add_conflicts st cs.
Proof.
  pose proof (verify_datetimes_sanity_preserves ongoing_okay ante_fact seqt_fact
                (conflicts_added st)
                (fun st1 st2 H H0 => conflicts_added_trans st st1 st2 H0 H)
                st (conflicts_added_refl st)) as Hwp.
  unfold wp in Hwp.
  destruct (verify_datetimes_sanity ongoing_okay ante_fact seqt_fact st);
    exact Hwp.
Qed.

(** All four passes, for a predicate that survives every summarised
    field step and every addition of conflicts. *)
Lemma four_passes_preserve nark controller ongoing_okay ante_fact seqt_fact
    (R : State -> Prop) :
  (forall j which f st st' f' cs, new_facts st !! j = Some f ->
     step_summary j which f st st' f' cs -> R st -> R st') ->
  (forall st st', conflicts_added st st' -> R st -> R st') ->
  forall st, R st ->
    wp (four_passes nark controller ongoing_okay ante_fact seqt_fact) st
       (fun _ => R) (fun _ => R).
Proof.
  intros Hstep Hadd st HR. unfold four_passes.
  apply wp_bind.
  eapply wp_mono;
    [| |exact (proj1 (three_passes_preserve nark controller ongoing_okay
                        ante_fact seqt_fact R Hstep st HR))]; [|auto].
  cbv beta. intros _ st1 HR1. apply wp_bind.
  eapply wp_mono;
    [| |exact (proj1 (proj2 (three_passes_preserve nark controller ongoing_okay
                               ante_fact seqt_fact R Hstep st1 HR1)))]; [|auto].
  cbv beta. intros _ st2 HR2. apply wp_bind.
  eapply wp_mono;
    [| |exact (proj2 (proj2 (three_passes_preserve nark controller ongoing_okay
                               ante_fact seqt_fact R Hstep st2 HR2)))]; [|auto].
  cbv beta. intros _ st3 HR3.
  apply verify_datetimes_sanity_preserves; assumption.
Qed.

(** The whole resolver, for such a predicate that moreover does not
    look at the store calls. *)
Lemma must_complete_times_preserves nark controller ongoing_okay (R : State -> Prop)
    facts :
  (forall j which f st st' f' cs, new_facts st !! j = Some f ->
     step_summary j which f st st' f' cs -> R st -> R st') ->
  (forall st st', conflicts_added st st' -> R st -> R st') ->
  (forall st calls, R st -> R (add_calls st calls)) ->
  R (mkState facts [] []) ->
  R (final_state (must_complete_times nark controller ongoing_okay facts)).
Proof.
  intros Hstep Hadd Hcalls HR.
  destruct facts as [|f0 rest] eqn:Hfacts; [exact HR|].
  rewrite <- Hfacts in *.
  destruct (must_complete_times_unfold nark controller ongoing_okay facts)
    as (ante & seqt & st1 & calls & _ & _ & Heq); [congruence|].
  rewrite Heq.
  assert (HR2 : R (mkState facts [] calls)).
  { apply (Hcalls (mkState facts [] []) calls) in HR. exact HR. }
  pose proof (four_passes_preserve nark controller ongoing_okay ante seqt R
                Hstep Hadd _ HR2) as Hwp.
  unfold wp in Hwp. unfold bind.
  destruct (four_passes nark controller ongoing_okay ante seqt (mkState facts [] calls))
    as [[] st4|e st4]; [|exact Hwp].
  rewrite barf_on_overlapping_facts_new_eq.
  destruct (conflicts st4); exact Hwp.
Qed.

Lemma keeps_given_refl facts : keeps_given facts facts.
Proof. split; [reflexivity|]. intros i f Hf. exists f. auto. Qed.

Lemma keeps_given_step facts0 j which f st st' f' cs :
  new_facts st !! j = Some f ->
  step_summary j which f st st' f' cs ->
  keeps_given facts0 (new_facts st) -> keeps_given facts0 (new_facts st').
Proof.
  intros Hf Hs [Hlen Hkeep]. split.
  - rewrite (step_summary_length _ _ _ _ _ _ _ Hs). exact Hlen.
  - intros i f0 Hf0. destruct (Hkeep i f0 Hf0) as (g & Hg & Hpk & Hdt).
    destruct (Nat.eq_dec i j) as [->|Hne].
    + assert (g = f) as -> by congruence.
      exists f'. split; [exact (step_summary_lookup _ _ _ _ _ _ _ Hs Hf)|].
      destruct Hs as (_ & _ & Hpk' & Hoppo & Hwhich & _).
      split; [congruence|].
      intros w t Ht. pose proof (Hdt w t Ht) as Hft.
      destruct which, w; cbn [opposite getattr] in *;
        try congruence;
        (destruct Hwhich as [Hsame|[_ Hnot]];
         [congruence | rewrite Hft in Hnot; discriminate]).
    + exists g. split; [|auto].
      rewrite (step_summary_other _ _ _ _ _ _ _ _ Hs Hne). exact Hg.
Qed.

(** X2. Whatever its outcome (return, exit with conflicts, assertion
    failure), [must_complete_times] leaves the batch with as many facts
    as it came with, every fact with its primary key, and every field
    that came as a timestamp with that same timestamp: it only ever
    writes into fields that were not timestamps. *)
Theorem X2_given_timestamps_are_kept (nark : Dated) (controller : Controller)
    (ongoing_okay : bool) (facts : list Fact) :
  keeps_given facts
    (new_facts (final_state (must_complete_times nark controller ongoing_okay facts))).
Proof.
  apply (must_complete_times_preserves nark controller ongoing_okay
           (fun st => keeps_given facts (new_facts st))).
  - intros j which f st st' f' cs Hf Hs. apply (keeps_given_step _ _ _ _ _ _ _ _ Hf Hs).
  - intros st st' [cs ->] H. exact H.
  - intros st calls H. exact H.
  - apply keeps_given_refl.
Qed.

(** ** The store calls of the resolver *)

Lemma antecedent_fact_from_eq controller facts st :
  antecedent_fact_from controller facts st =
    match first_timestamp facts with
    | Some t => Returned (antecedent controller t) (add_calls st [CallAntecedent t])
    | None => Returned None st
    end.
Proof.
  induction facts as [|f rest IH]; [reflexivity|].
  cbn [antecedent_fact_from first_timestamp].
  destruct (fact_start f) as [|t|s]; try reflexivity;
    destruct (fact_end f) as [|t|s']; try reflexivity; exact IH.
Qed.

Lemma subsequent_fact_from_eq controller reversed st :
  subsequent_fact_from controller reversed st =
    match last_timestamp_from reversed with
    | Some t => Returned (subsequent controller t) (add_calls st [CallSubsequent t])
    | None => Returned None st
    end.
Proof.
  induction reversed as [|f rest IH]; [reflexivity|].
  cbn [subsequent_fact_from last_timestamp_from].
  destruct (fact_end f) as [|t|s]; try reflexivity;
    destruct (fact_start f) as [|t|s']; try reflexivity; exact IH.
Qed.

Lemma two_steps_wp (R : State -> Prop)
    (op : nat -> Which -> option Z -> list FactRef -> M (option Z))
    i prev_time later_facts st :
  (forall which p st, R st ->
     wp (op i which p later_facts) st (fun _ => R) (fun _ => R)) ->
  R st ->
  wp (let* prev_time := op i WStart prev_time later_facts in
      op i WEnd prev_time later_facts) st (fun _ => R) (fun _ => R).
Proof.
  intros Hop HR. apply wp_bind.
  eapply wp_mono; [| |apply Hop; exact HR]; cbv beta; auto.
Qed.

Lemma only_now_called_step calls0 st st' :
  only_now_called calls0 st ->
  store_calls st' = store_calls st \/ store_calls st' = store_calls st ++ [CallNow] ->
  only_now_called calls0 st'.
Proof.
  intros (extra & He & Hall) [H|H]; unfold only_now_called; rewrite H, He.
  - exists extra. auto.
  - exists (extra ++ [CallNow]). split; [symmetry; apply app_assoc|].
    apply Forall_app. split; [exact Hall|]. repeat constructor.
Qed.

Lemma fix_clock_time_relative_calls nark calls0 i which p later_facts st :
  only_now_called calls0 st ->
  wp (fix_clock_time_relative nark i which p later_facts) st
     (fun _ => only_now_called calls0) (fun _ => only_now_called calls0).
Proof.
  intros H. unfold wp. destruct (new_facts st !! i) as [f|] eqn:Hf.
  - rewrite (fix_clock_time_relative_eq _ _ _ _ _ _ _ Hf).
    destruct (getattr f which) as [|t|s]; try exact H.
    destruct (parse_clock_time nark s); try exact H.
    destruct (clock_resolution _ _ _ _);
      apply (only_now_called_step calls0 st); auto.
  - destruct (fix_clock_time_relative_none nark st i later_facts Hf which p) as [e ->].
    exact H.
Qed.

Lemma fix_delta_time_relative_calls nark calls0 i which p later_facts st :
  only_now_called calls0 st ->
  wp (fix_delta_time_relative nark i which p later_facts) st
     (fun _ => only_now_called calls0) (fun _ => only_now_called calls0).
Proof.
  intros H. unfold wp. destruct (new_facts st !! i) as [f|] eqn:Hf.
  - rewrite (fix_delta_time_relative_eq _ _ _ _ _ _ _ Hf).
    destruct (getattr f which) as [|t|s]; try exact H.
    destruct (parse_relative_minutes nark s) as [[d|] m]; try exact H.
    destruct (delta_anchor _ _ _ _ _) as [anchor|];
      [destruct (minutes_after anchor d); [|exact H]|];
      apply (only_now_called_step calls0 st); auto.
  - destruct (fix_delta_time_relative_none nark st i later_facts Hf which p) as [e ->].
    exact H.
Qed.

Lemma fix_blank_time_relative_calls controller calls0 i which p later_facts st :
  only_now_called calls0 st ->
  wp (fix_blank_time_relative controller i which p later_facts) st
     (fun _ => only_now_called calls0) (fun _ => only_now_called calls0).
Proof.
  intros H. unfold wp. destruct (new_facts st !! i) as [f|] eqn:Hf.
  - rewrite (fix_blank_time_relative_eq _ _ _ _ _ _ _ Hf).
    destruct (getattr f which) as [|t|s]; cbv beta iota zeta;
      try exact H;
      (destruct (truthy _); [apply (only_now_called_step calls0 st); auto|]);
      (destruct which;
       [destruct p|destruct (find_next_datetime _ _) as [[t' r]|]]);
      apply (only_now_called_step calls0 st); auto.
  - destruct (fix_blank_time_relative_none controller st i later_facts Hf which p)
      as [e ->].
    exact H.
Qed.

Lemma four_passes_calls nark controller ongoing_okay ante_fact seqt_fact calls0 st :
  only_now_called calls0 st ->
  wp (four_passes nark controller ongoing_okay ante_fact seqt_fact) st
     (fun _ => only_now_called calls0) (fun _ => only_now_called calls0).
Proof.
  intros H. unfold four_passes.
  apply wp_bind.
  eapply wp_mono; [| |apply (pass_preserves _ _ _ _ (fun p => p)
                               (only_now_called calls0)); [|exact H]]; [|auto|].
  2: { intros i later_facts s st1 H1. apply two_steps_wp; [|exact H1].
       intros. apply fix_clock_time_relative_calls. assumption. }
  cbv beta. intros _ st1 H1. apply wp_bind.
  eapply wp_mono; [| |apply (pass_preserves _ _ _ _ (fun p => p)
                               (only_now_called calls0)); [|exact H1]]; [|auto|].
  2: { intros i later_facts s st2 H2. apply two_steps_wp; [|exact H2].
       intros. apply fix_delta_time_relative_calls. assumption. }
  cbv beta. intros _ st2 H2. apply wp_bind.
  eapply wp_mono; [| |apply (pass_preserves _ _ _ _ (fun p => p)
                               (only_now_called calls0)); [|exact H2]]; [|auto|].
  2: { intros i later_facts s st3 H3.
       apply wp_bind. unfold wp at 1, read_attr.
       destruct (new_facts st3 !! i) as [f|]; [|exact H3].
       apply wp_bind. unfold wp at 1, read_attr.
       destruct (new_facts st3 !! i) as [f'|]; [|exact H3].
       apply wp_bind. unfold wp at 1, py_assert.
       destruct (truthy _ || truthy _)%bool; [|exact H3].
       unfold ret. apply two_steps_wp; [|exact H3].
       intros. apply fix_blank_time_relative_calls. assumption. }
  cbv beta. intros _ st3 H3.
  apply verify_datetimes_sanity_preserves; [|exact H3].
  intros sta stb [cs ->] Ha. exact Ha.
Qed.

(** X3. The store calls of [must_complete_times], in order: the
    antecedent is looked up at most once, at the first timestamp of the
    batch (starts read before ends); then the subsequent fact at most
    once, at the last timestamp (ends read before starts); every later
    call reads [now].  A batch with no timestamp is resolved without any
    lookup of its neighbours. *)
Theorem X3_store_calls_of_the_resolver (nark : Dated) (controller : Controller)
    (ongoing_okay : bool) (facts : list Fact) :
  exists nows,
    store_calls (final_state (must_complete_times nark controller ongoing_okay facts))
      = neighbour_calls facts ++ nows /\
    Forall (fun c => c = CallNow) nows.
Proof.
  destruct facts as [|f0 rest] eqn:Hfacts.
  { exists []. split; [reflexivity|constructor]. }
  rewrite <- Hfacts. assert (Hne : facts <> []) by congruence. clear Hfacts f0 rest.
  unfold must_complete_times, _must_complete_times.
  unfold bind at 1, gets at 1. cbn [new_facts].
  destruct facts as [|f0 rest] eqn:Hfacts; [congruence|]. rewrite <- Hfacts.
  unfold antecedent_fact, subsequent_fact.
  unfold bind at 1. unfold bind at 1, gets at 1. cbn [new_facts].
  rewrite antecedent_fact_from_eq.
  set (st1 := match first_timestamp facts with
              | Some t => add_calls (mkState facts [] []) [CallAntecedent t]
              | None => mkState facts [] []
              end).
  set (ante := match first_timestamp facts with
               | Some t => antecedent controller t | None => None end).
  assert (Hst1 : match first_timestamp facts with
                 | Some t => Returned (antecedent controller t)
                               (add_calls (mkState facts [] []) [CallAntecedent t])
                 | None => Returned None (mkState facts [] [])
                 end = Returned ante st1).
  { subst st1 ante. destruct (first_timestamp facts); reflexivity. }
  rewrite Hst1.
  unfold bind at 1. unfold bind at 1, gets at 1.
  assert (Hnf1 : new_facts st1 = facts).
  { subst st1. destruct (first_timestamp facts); reflexivity. }
  rewrite Hnf1, subsequent_fact_from_eq. fold (last_timestamp facts).
  set (st2 := match last_timestamp facts with
              | Some t => add_calls st1 [CallSubsequent t]
              | None => st1
              end).
  set (seqt := match last_timestamp facts with
               | Some t => subsequent controller t | None => None end).
  assert (Hst2 : match last_timestamp facts with
                 | Some t => Returned (subsequent controller t)
                               (add_calls st1 [CallSubsequent t])
                 | None => Returned None st1
                 end = Returned seqt st2).
  { subst st2 seqt. destruct (last_timestamp facts); reflexivity. }
  rewrite Hst2.
  assert (Hcalls : store_calls st2 = neighbour_calls facts).
  { subst st2 st1. unfold neighbour_calls.
    destruct (first_timestamp facts), (last_timestamp facts); reflexivity. }
  assert (H0 : only_now_called (neighbour_calls facts) st2).
  { exists []. rewrite app_nil_r. split; [exact Hcalls|constructor]. }
  pose proof (four_passes_calls nark controller ongoing_okay ante seqt _ st2 H0) as Hwp.
  unfold wp in Hwp. unfold bind.
  destruct (four_passes nark controller ongoing_okay ante seqt st2)
    as [[] st4|e st4]; [|exact Hwp].
  rewrite barf_on_overlapping_facts_new_eq.
  destruct (conflicts st4); exact Hwp.
Qed.

(** ** A batch without any timestamp *)

Lemma no_timestamp_first facts : no_timestamp facts -> first_timestamp facts = None.
Proof.
  induction facts as [|f rest IH]; intros H; [reflexivity|].
  cbn [first_timestamp]. destruct (H 0%nat f eq_refl) as [Hs He].
  destruct (fact_start f); try discriminate;
    destruct (fact_end f); try discriminate;
    apply IH; intros i g Hg; exact (H (Datatypes.S i) g Hg).
Qed.

Lemma no_timestamp_last_from reversed :
  no_timestamp reversed -> last_timestamp_from reversed = None.
Proof.
  induction reversed as [|f rest IH]; intros H; [reflexivity|].
  cbn [last_timestamp_from]. destruct (H 0%nat f eq_refl) as [Hs He].
  destruct (fact_end f); try discriminate;
    destruct (fact_start f); try discriminate;
    apply IH; intros i g Hg; exact (H (Datatypes.S i) g Hg).
Qed.

Lemma no_timestamp_last facts : no_timestamp facts -> last_timestamp facts = None.
Proof.
  intros H. apply no_timestamp_last_from. intros i f Hf.
  assert (Hin : In f facts).
  { apply in_rev. apply list_elem_of_In. apply list_elem_of_lookup. eauto. }
  apply list_elem_of_In, list_elem_of_lookup in Hin. destruct Hin as [j Hj].
  exact (H j f Hj).
Qed.

Lemma find_next_datetime_no_timestamp facts later_facts :
  no_timestamp facts -> Forall is_new_ref later_facts ->
  find_next_datetime facts later_facts = None.
Proof.
  intros Hno Hall. induction Hall as [|r later Hr _ IH]; [reflexivity|].
  cbn [find_next_datetime]. destruct r as [i|q]; [|destruct Hr].
  cbn [deref]. destruct (facts !! i) as [f|] eqn:Hf; [|exact IH].
  destruct (Hno i f Hf) as [Hs He].
  destruct (fact_start f); try discriminate;
    destruct (fact_end f); try discriminate; exact IH.
Qed.

Lemma later_from_new k n : Forall is_new_ref (later_from k n []).
Proof.
  unfold later_from. rewrite app_nil_r. apply Forall_forall.
  intros r Hr. apply list_elem_of_In, in_map_iff in Hr.
  destruct Hr as (i & <- & _). exact I.
Qed.

Lemma clock_step_no_timestamp nark st i f which later_facts :
  new_facts st !! i = Some f -> no_timestamp (new_facts st) ->
  Forall is_new_ref later_facts ->
  exists cs,
    fix_clock_time_relative nark i which None later_facts st
      = Returned None (add_conflicts st cs).
Proof.
  intros Hf Hno Hnew.
  rewrite (fix_clock_time_relative_eq _ _ _ _ _ _ _ Hf).
  rewrite (find_next_datetime_no_timestamp _ _ Hno Hnew).
  destruct (Hno i f Hf) as [Hs He].
  assert (Ho : isinstance_datetime (getattr f (opposite which)) = false)
    by (destruct which; assumption).
  assert (Hw : isinstance_datetime (getattr f which) = false)
    by (destruct which; assumption).
  destruct (getattr f which) as [|t|s]; try discriminate;
    try (exists []; rewrite add_conflicts_nil; reflexivity).
  destruct (parse_clock_time nark s) as [ct|];
    [|exists []; rewrite add_conflicts_nil; reflexivity].
  destruct (getattr f (opposite which)); try discriminate;
    cbn; destruct which; eexists; reflexivity.
Qed.

Lemma delta_step_no_timestamp nark st i f which later_facts :
  new_facts st !! i = Some f -> no_timestamp (new_facts st) ->
  Forall is_new_ref later_facts ->
  exists cs,
    fix_delta_time_relative nark i which None later_facts st
      = Returned None (add_conflicts st cs).
Proof.
  intros Hf Hno Hnew.
  rewrite (fix_delta_time_relative_eq _ _ _ _ _ _ _ Hf).
  rewrite (find_next_datetime_no_timestamp _ _ Hno Hnew).
  destruct (Hno i f Hf) as [Hs He].
  assert (Hw : isinstance_datetime (getattr f which) = false)
    by (destruct which; assumption).
  destruct (getattr f which) as [|t|s]; try discriminate;
    try (exists []; rewrite add_conflicts_nil; reflexivity).
  destruct (parse_relative_minutes nark s) as [[d|] m];
    [|exists []; rewrite add_conflicts_nil; reflexivity].
  unfold delta_anchor.
  destruct m as [[|]|], which, (fact_end f); try discriminate;
    cbn; eexists; reflexivity.
Qed.

(** Without a timestamp and without neighbours, the clock pass and the
    delta pass change no fact. *)
Lemma two_steps_no_timestamp
    (op : nat -> Which -> option Z -> list FactRef -> M (option Z)) facts i
    later_facts st (E : Exn -> State -> Prop) :
  (forall st f which, new_facts st !! i = Some f -> no_timestamp (new_facts st) ->
     exists cs, op i which None later_facts st = Returned None (add_conflicts st cs)) ->
  (i < length facts)%nat -> no_timestamp facts -> new_facts st = facts ->
  wp (let* prev_time := op i WStart None later_facts in
      op i WEnd prev_time later_facts) st
     (fun p st' => p = None /\ new_facts st' = facts) E.
Proof.
  intros Hop Hi Hno Hst.
  destruct (lookup_lt_is_Some_2 facts i Hi) as [f Hf].
  destruct (Hop st f WStart) as [cs1 Heq1]; [rewrite Hst; auto..|].
  apply wp_bind. unfold wp at 1. rewrite Heq1.
  destruct (Hop (add_conflicts st cs1) f WEnd) as [cs2 Heq2];
    [cbn; rewrite Hst; auto..|].
  unfold wp. rewrite Heq2. cbn. auto.
Qed.

Lemma fix_clock_times_relative_no_timestamp nark ongoing_okay st st' :
  no_timestamp (new_facts st) ->
  fix_clock_times_relative nark ongoing_okay None None st = Returned tt st' ->
  new_facts st' = new_facts st.
Proof.
  intros Hno Hret. unfold fix_clock_times_relative in Hret.
  apply (pass_inv _ _ _ _ (fun p => p)
           (fun _ p st1 => p = None /\ new_facts st1 = new_facts st)
           (fun st1 => new_facts st1 = new_facts st) _ _ Hret).
  - intros i p st1 Hi [-> Hst1]. cbv beta.
    apply (two_steps_no_timestamp (fix_clock_time_relative nark) (new_facts st));
      auto.
    intros st0 f which Hf Hno0.
    apply (clock_step_no_timestamp nark st0 i f which _ Hf Hno0), later_from_new.
  - auto.
  - cbv beta. tauto.
Qed.

Lemma fix_delta_times_relative_no_timestamp nark ongoing_okay st st' :
  no_timestamp (new_facts st) ->
  fix_delta_times_relative nark ongoing_okay None None st = Returned tt st' ->
  new_facts st' = new_facts st.
Proof.
  intros Hno Hret. unfold fix_delta_times_relative in Hret.
  apply (pass_inv _ _ _ _ (fun p => p)
           (fun _ p st1 => p = None /\ new_facts st1 = new_facts st)
           (fun st1 => new_facts st1 = new_facts st) _ _ Hret).
  - intros i p st1 Hi [-> Hst1]. cbv beta.
    apply (two_steps_no_timestamp (fix_delta_time_relative nark) (new_facts st));
      auto.
    intros st0 f which Hf Hno0.
    apply (delta_step_no_timestamp nark st0 i f which _ Hf Hno0), later_from_new.
  - auto.
  - cbv beta. tauto.
Qed.

(** Without a timestamp and without neighbours the delta pass adds
    nothing to a timestamp, so that it cannot overflow. *)
Lemma fix_delta_times_relative_no_timestamp_asserts nark ongoing_okay st e st' :
  no_timestamp (new_facts st) ->
  fix_delta_times_relative nark ongoing_okay None None st = Raised e st' ->
  e = AssertionError.
Proof.
  intros Hno Hraised. unfold fix_delta_times_relative in Hraised.
  destruct (prev_and_later_cases ongoing_okay None None st) as [Hc|[Hpl _]].
  - unfold bind in Hraised. rewrite Hc in Hraised. congruence.
  - refine (wp_raised _ _ _ only_assert _ _ _ Hraised).
    apply (pass_wp _ _ _ _ (fun p => p)
             (fun _ p st1 => p = None /\ new_facts st1 = new_facts st) only_assert
             (fun _ => True) st _ Hpl).
    + intros i p st1 Hi [-> Hst1]. cbv beta.
      apply (two_steps_no_timestamp (fix_delta_time_relative nark) (new_facts st));
        auto.
      intros st0 f which Hf Hno0.
      apply (delta_step_no_timestamp nark st0 i f which _ Hf Hno0), later_from_new.
    + auto.
    + auto.
Qed.

Lemma four_passes_no_timestamp_asserts nark controller ongoing_okay st e st' :
  no_timestamp (new_facts st) ->
  four_passes nark controller ongoing_okay None None st = Raised e st' ->
  e = AssertionError.
Proof.
  intros Hno Hraised. unfold four_passes, bind in Hraised.
  destruct (fix_clock_times_relative nark ongoing_okay None None st)
    as [[] sta|e1 s1] eqn:Hclk.
  2: { inversion Hraised; subst.
       exact (wp_raised _ _ _ _ _ _
                (fix_clock_times_relative_only_asserts nark ongoing_okay None None st)
                Hclk). }
  assert (Hnoa : no_timestamp (new_facts sta)).
  { rewrite (fix_clock_times_relative_no_timestamp nark ongoing_okay st sta Hno Hclk).
    exact Hno. }
  destruct (fix_delta_times_relative nark ongoing_okay None None sta)
    as [[] stb|e2 s2] eqn:Hdlt.
  2: { inversion Hraised; subst.
       exact (fix_delta_times_relative_no_timestamp_asserts _ _ _ _ _ Hnoa Hdlt). }
  destruct (fix_blank_times_relative controller ongoing_okay None None stb)
    as [[] stc|e3 s3] eqn:Hblank.
  2: { inversion Hraised; subst.
       exact (wp_raised _ _ _ _ _ _
                (fix_blank_times_relative_only_asserts controller ongoing_okay
                   None None stb) Hblank). }
  exact (wp_raised _ _ _ _ _ _
           (verify_datetimes_sanity_only_asserts ongoing_okay None None stc) Hraised).
Qed.

Lemma conflicts_nonempty_step j which f st st' f' cs :
  new_facts st !! j = Some f -> step_summary j which f st st' f' cs ->
  conflicts st <> [] -> conflicts st' <> [].
Proof.
  intros _ (_ & Hc & _) Hne. rewrite Hc. intros H.
  apply app_eq_nil in H. tauto.
Qed.

(** Without a cursor, the blank-fill pass records a conflict for the
    start of the first fact, which is no timestamp. *)
Lemma fix_blank_times_relative_no_timestamp controller ongoing_okay st st' :
  new_facts st <> [] -> no_timestamp (new_facts st) ->
  fix_blank_times_relative controller ongoing_okay None None st = Returned tt st' ->
  conflicts st' <> [].
Proof.
  intros Hne Hno Hret. unfold fix_blank_times_relative in Hret.
  assert (Hlen : (0 < length (new_facts st))%nat).
  { destruct (new_facts st); [congruence|cbn; lia]. }
  apply (pass_inv _ _ _ _ (fun p => p)
           (fun j p st1 =>
              (j = 0%nat -> p = None /\ new_facts st1 = new_facts st) /\
              ((0 < j)%nat -> conflicts st1 <> []))
           (fun st1 => conflicts st1 <> []) _ _ Hret).
  - intros i p st1 Hi [H0 Hpos]. cbv beta.
    assert (Hstep : forall j which f sta stb f' cs, new_facts sta !! j = Some f ->
              step_summary j which f sta stb f' cs ->
              conflicts sta <> [] -> conflicts stb <> [])
      by exact conflicts_nonempty_step.
    assert (Htwo : forall p0 sta, conflicts sta <> [] ->
              wp (let* prev_time := fix_blank_time_relative controller i WStart p0
                                      (later_from (Datatypes.S i) (length (new_facts st))
                                         (seqt_tail None)) in
                  fix_blank_time_relative controller i WEnd prev_time
                    (later_from (Datatypes.S i) (length (new_facts st))
                       (seqt_tail None))) sta
                 (fun _ stb => conflicts stb <> []) may_raise).
    { intros p0 sta Ha.
      eapply wp_mono;
        [| |apply (two_steps_preserve (fun s => conflicts s <> [])
                     (fix_blank_time_relative controller)); auto].
      - cbv beta. auto.
      - intros; exact I.
      - apply fix_blank_time_relative_summarised.
      - intros. apply fix_blank_time_relative_none. assumption. }
    assert (Hgoal : wp
      (let* fact_start := read_attr i WStart in
       let* fact_end := read_attr i WEnd in
       py_assert (truthy fact_start || truthy fact_end) ;;;
       let* prev_time := fix_blank_time_relative controller i WStart p
                           (later_from (Datatypes.S i) (length (new_facts st))
                              (seqt_tail None)) in
       fix_blank_time_relative controller i WEnd prev_time
         (later_from (Datatypes.S i) (length (new_facts st)) (seqt_tail None)))
      st1 (fun _ stb => conflicts stb <> []) may_raise).
    { unfold wp.
      destruct (new_facts st1 !! i) as [f|] eqn:Hf;
        [|unfold bind; rewrite (read_attr_none _ _ _ Hf); exact I].
      rewrite (bind_eq _ _ _ _ _ (read_attr_eq st1 i f WStart Hf)).
      rewrite (bind_eq _ _ _ _ _ (read_attr_eq st1 i f WEnd Hf)).
      destruct (truthy (getattr f WStart) || truthy (getattr f WEnd))%bool;
        [|exact I].
      unfold py_assert. unfold bind at 1, ret at 1.
      destruct i as [|i].
      - destruct (H0 eq_refl) as [-> Hst1].
        rewrite Hst1 in Hf. destruct (Hno 0%nat f Hf) as [Hstart _].
        rewrite <- Hst1 in Hf.
        assert (Hfirst : exists c,
                  fix_blank_time_relative controller 0 WStart None
                    (later_from 1 (length (new_facts st)) (seqt_tail None)) st1
                  = Returned None (add_conflict st1 c)).
        { rewrite (fix_blank_time_relative_eq _ _ _ _ _ _ _ Hf). cbn [getattr].
          destruct (fact_start f) as [|t|s]; try discriminate; cbv beta iota zeta;
            try destruct (truthy (Text s)); eexists; reflexivity. }
        destruct Hfirst as [c Hc].
        fold (wp (let* prev_time := fix_blank_time_relative controller 0 WStart None
                                      (later_from 1 (length (new_facts st))
                                         (seqt_tail None)) in
                  fix_blank_time_relative controller 0 WEnd prev_time
                    (later_from 1 (length (new_facts st)) (seqt_tail None)))
                st1 (fun _ stb => conflicts stb <> []) may_raise).
        apply wp_bind. unfold wp at 1. rewrite Hc.
        destruct (fix_blank_time_relative_returning controller (add_conflict st1 c)
                    0%nat f WEnd None
                    (later_from 1 (length (new_facts st)) (seqt_tail None)) Hf)
          as (p2 & st2 & f2 & cs2 & Heq2 & Hs2).
        unfold wp. rewrite Heq2.
        apply (conflicts_nonempty_step 0%nat WEnd f (add_conflict st1 c) st2 f2 cs2
                 Hf Hs2).
        cbn [conflicts add_conflict]. intros Habs. apply app_eq_nil in Habs.
        destruct Habs as [_ Habs]. discriminate Habs.
      - apply Htwo. apply Hpos. lia. }
    eapply wp_mono; [| |exact Hgoal].
    + cbv beta. intros p' stb Hb. split; [intros Hz; discriminate Hz|auto].
    + auto.
  - split; [auto|intros Hz; inversion Hz].
  - cbv beta. intros p st1 [_ Hpos]. apply Hpos. exact Hlen.
Qed.

(** X4. A batch that is not empty and holds no timestamp at all never
    resolves: the store cannot be asked for neighbours, no cursor
    exists, and [must_complete_times] ends with conflicts (or on an
    assertion when a fact has neither start nor end); it never returns
    normally. *)
Theorem X4_batch_without_timestamp_fails (nark : Dated) (controller : Controller)
    (ongoing_okay : bool) (facts : list Fact) :
  facts <> [] ->
  no_timestamp facts ->
  match must_complete_times nark controller ongoing_okay facts with
  | Returned _ _ => False
  | Raised e _ => e = SystemExit \/ e = AssertionError
  end.
Proof.
  intros Hne Hno.
  unfold must_complete_times, _must_complete_times.
  unfold bind at 1, gets at 1. cbn [new_facts].
  destruct facts as [|f0 rest] eqn:Hfacts; [congruence|]. rewrite <- Hfacts in *.
  unfold antecedent_fact, subsequent_fact.
  unfold bind at 1. unfold bind at 1, gets at 1. cbn [new_facts].
  rewrite antecedent_fact_from_eq, (no_timestamp_first _ Hno).
  unfold bind at 1. unfold bind at 1, gets at 1. cbn [new_facts].
  rewrite subsequent_fact_from_eq. fold (last_timestamp facts).
  rewrite (no_timestamp_last _ Hno).
  set (st := mkState facts [] []). unfold bind.
  destruct (four_passes nark controller ongoing_okay None None st)
    as [[] st4|e st4] eqn:Hpasses.
  2: { right.
       exact (four_passes_no_timestamp_asserts nark controller ongoing_okay st e st4
                Hno Hpasses). }
  unfold four_passes in Hpasses.
  apply bind_returned in Hpasses. destruct Hpasses as ([] & sta & Hclk & Hpasses).
  apply bind_returned in Hpasses. destruct Hpasses as ([] & stb & Hdlt & Hpasses).
  apply bind_returned in Hpasses. destruct Hpasses as ([] & stc & Hblank & Hsanity).
  pose proof (fix_clock_times_relative_no_timestamp nark ongoing_okay st sta
                Hno Hclk) as Ha.
  assert (Hnoa : no_timestamp (new_facts sta)) by (rewrite Ha; exact Hno).
  pose proof (fix_delta_times_relative_no_timestamp _ _ _ _ Hnoa Hdlt) as Hb.
  assert (Hnob : no_timestamp (new_facts stb)) by (rewrite Hb; exact Hnoa).
  assert (Hneb : new_facts stb <> []) by (rewrite Hb, Ha; exact Hne).
  pose proof (fix_blank_times_relative_no_timestamp _ _ _ _ Hneb Hnob Hblank) as Hc.
  pose proof (verify_datetimes_sanity_preserves ongoing_okay None None
                (fun s => conflicts s <> [])) as Hsan.
  specialize (Hsan ltac:(intros s s' [cs ->] H; cbn; intros H';
                         apply app_eq_nil in H'; tauto) stc Hc).
  unfold wp in Hsan. rewrite Hsanity in Hsan.
  rewrite barf_on_overlapping_facts_new_eq.
  destruct (conflicts st4); [congruence|]. left. reflexivity.
Qed.

(** ** A resolved batch between its neighbours *)

Lemma verify_datetimes_sanity_in_order ongoing_okay ante_fact seqt_fact st pl :
  prev_and_later ongoing_okay ante_fact seqt_fact st = Returned pl st ->
  timeline_in_order ante_fact seqt_fact (new_facts st) ->
  verify_datetimes_sanity ongoing_okay ante_fact seqt_fact st = Returned tt st.
Proof.
  intros Hpl ([Hres Hord] & Hante & Hseqt). unfold verify_datetimes_sanity.
  apply (pass_keeps_state ongoing_okay ante_fact seqt_fact verify_fact_sanity
    (fun p => (p, option_map RStored ante_fact))
    (fun j s => forall prev g t, fst s = Some prev -> new_facts st !! j = Some g ->
                  fact_start g = Datetime t -> prev <= t)
    st _ Hpl).
  - intros i [prev_time prev_fact] Hi HJ. cbn [fst] in HJ.
    destruct (lookup_lt_is_Some_2 (new_facts st) i Hi) as [f Hf].
    destruct (Hres i f Hf) as (s & e & Hse & Hle).
    rewrite (verify_fact_sanity_resolved _ _ _ _ _ _ _ _ Hf Hse).
    exists (Some e, Some (RNew i)). split.
    + assert (H1 : starts_before_conflict i prev_time prev_fact s = []).
      { unfold starts_before_conflict. destruct prev_time as [prev|]; [|reflexivity].
        destruct (Z.ltb_spec s prev) as [Hlt|]; [|reflexivity].
        pose proof (HJ prev f s eq_refl Hf (proj1 Hse)). lia. }
      assert (H2 : ends_after_conflict i
                     (find_next_datetime (new_facts st)
                        (later_from (Datatypes.S i) (length (new_facts st))
                           (seqt_tail seqt_fact))) e = []).
      { destruct (Nat.lt_ge_cases (Datatypes.S i) (length (new_facts st))) as [Hlt|Hge].
        - destruct (lookup_lt_is_Some_2 (new_facts st) _ Hlt) as [g Hg].
          destruct (Hres _ g Hg) as (s' & e' & [Hs' He'] & _).
          rewrite (find_next_datetime_here _ _ _ _ g s' Hlt Hg Hs').
          unfold ends_after_conflict.
          destruct (Z.gtb_spec e s') as [Hgt|]; [|reflexivity].
          pose proof (Hord i f g e s' Hf Hg (proj2 Hse) Hs'). lia.
        - rewrite later_from_ge by exact Hge.
          destruct seqt_fact as [seqt|]; [|reflexivity].
          assert (Hlast : last (new_facts st) = Some f).
          { rewrite last_lookup. rewrite <- Hf. f_equal. lia. }
          destruct (Hseqt seqt f e eq_refl Hlast (proj2 Hse)) as (t & Ht & Hle').
          cbn [seqt_tail]. rewrite (find_next_datetime_tail _ _ _ Ht).
          unfold ends_after_conflict.
          destruct (Z.gtb_spec e t); [lia|reflexivity]. }
      assert (H3 : starts_after_conflict i s e = []).
      { unfold starts_after_conflict.
        destruct (Z.gtb_spec s e); [lia | reflexivity]. }
      rewrite H1, H2, H3. cbn [app]. rewrite add_conflicts_nil. reflexivity.
    + cbn [fst]. intros prev g t Hprev Hg Ht. inversion Hprev; subst.
      exact (Hord i f g prev t Hf Hg (proj2 Hse) Ht).
  - cbn [fst]. intros prev g t Hprev Hg Ht.
    destruct ante_fact as [ante|]; [|discriminate Hprev].
    exact (Hante ante prev g t eq_refl Hprev Hg Ht).
Qed.

Lemma timeline_in_order_all_resolved ante_fact seqt_fact facts :
  timeline_in_order ante_fact seqt_fact facts -> all_resolved facts.
Proof. intros [H _]. apply resolved_in_order_all_resolved, H. Qed.

(** The four passes on a state whose facts are resolved and in order
    between the neighbours, once [prev_and_later] returns on it. *)
Lemma four_passes_in_order nark controller ongoing_okay ante_fact seqt_fact st pl :
  prev_and_later ongoing_okay ante_fact seqt_fact st = Returned pl st ->
  timeline_in_order ante_fact seqt_fact (new_facts st) ->
  four_passes nark controller ongoing_okay ante_fact seqt_fact st = Returned tt st.
Proof.
  intros Hpl Hord.
  pose proof (timeline_in_order_all_resolved _ _ _ Hord) as Hres.
  unfold four_passes.
  rewrite (bind_eq _ _ _ _ _
             (fix_clock_times_relative_resolved nark _ _ _ _ _ Hres Hpl)).
  rewrite (bind_eq _ _ _ _ _
             (fix_delta_times_relative_resolved nark _ _ _ _ _ Hres Hpl)).
  rewrite (bind_eq _ _ _ _ _
             (fix_blank_times_relative_resolved controller _ _ _ _ _ Hres Hpl)).
  exact (verify_datetimes_sanity_in_order _ _ _ _ _ Hpl Hord).
Qed.

Lemma prev_and_later_returns ongoing_okay ante_fact seqt_fact st :
  (forall seqt, seqt_fact = Some seqt -> exists t, stored_start seqt = Some t) ->
  (ongoing_okay = true \/ length (new_facts st) <> 1%nat \/ seqt_fact <> None \/
   forall ante, ante_fact = Some ante -> stored_end ante <> None) ->
  exists pl, prev_and_later ongoing_okay ante_fact seqt_fact st = Returned pl st.
Proof.
  intros Hstart Hguard.
  unfold prev_and_later, bind, gets, ret, raise.
  assert (Hg : forall ante, ante_fact = Some ante -> stored_end ante = None ->
            (negb ongoing_okay && Nat.eqb (length (new_facts st)) 1
             && is_none seqt_fact)%bool = false).
  { intros ante Ha He. destruct Hguard as [->|[Hl|[Hs|Hn]]].
    - reflexivity.
    - apply Nat.eqb_neq in Hl. rewrite Hl. apply andb_false_iff. left.
      apply andb_false_r.
    - destruct seqt_fact; [apply andb_false_r|congruence].
    - exfalso. exact (Hn ante Ha He). }
  assert (Htail : forall prev_time : option Z,
            exists pl,
              match seqt_fact with
              | Some seqt =>
                  match stored_start seqt with
                  | None => raise AssertionError
                  | Some _ =>
                      ret (prev_time, all_new (length (new_facts st)) ++ [RStored seqt])
                  end
              | None => ret (prev_time, all_new (length (new_facts st)))
              end st = Returned pl st).
  { intros prev_time. destruct seqt_fact as [seqt|]; [|eexists; reflexivity].
    destruct (Hstart seqt eq_refl) as [t' Ht']. rewrite Ht'.
    eexists; reflexivity. }
  destruct ante_fact as [ante|]; [|apply Htail].
  destruct (stored_end ante) as [t|] eqn:He; [apply Htail|].
  rewrite (Hg ante eq_refl He). apply Htail.
Qed.

Lemma timeline_seqt_start ante_fact seqt_fact facts :
  facts <> [] -> timeline_in_order ante_fact seqt_fact facts ->
  forall seqt, seqt_fact = Some seqt -> exists t, stored_start seqt = Some t.
Proof.
  intros Hne ([Hres _] & _ & Hseqt) seqt Hs.
  destruct (last facts) as [f|] eqn:Hlast.
  - pose proof Hlast as Hl. rewrite last_lookup in Hl.
    destruct (Hres _ f Hl) as (s & e & [_ He] & _).
    destruct (Hseqt seqt f e Hs eq_refl He) as (t & Ht & _). eauto.
  - apply last_None in Hlast. contradiction.
Qed.

(** X5. The converse of monotonicity: a batch whose facts all hold two
    timestamps and that is in order between the neighbours the store
    returns is accepted as it is.  [must_complete_times] returns with no
    conflict, no fact changed and no call of [now], provided the
    open-antecedent assertion does not apply ([ongoing_okay] set, or
    more than one fact, or a subsequent fact, or an antecedent with an
    end). *)
Theorem X5_ordered_timeline_is_accepted (nark : Dated) (controller : Controller)
    (ongoing_okay : bool) (facts : list Fact)
    (ante_fact seqt_fact : option StoredFact) (st1 st2 : State) :
  antecedent_fact controller (mkState facts [] []) = Returned ante_fact st1 ->
  subsequent_fact controller st1 = Returned seqt_fact st2 ->
  timeline_in_order ante_fact seqt_fact facts ->
  (ongoing_okay = true \/ length facts <> 1%nat \/ seqt_fact <> None \/
   forall ante, ante_fact = Some ante -> stored_end ante <> None) ->
  must_complete_times nark controller ongoing_okay facts = Returned tt st2 /\
  new_facts st2 = facts /\ conflicts st2 = [].
Proof.
  intros Hante Hseqt Hord Hguard.
  destruct facts as [|f0 rest] eqn:Hfacts.
  { cbv in Hante. inversion Hante; subst. cbv in Hseqt. inversion Hseqt; subst.
    repeat split. }
  rewrite <- Hfacts in *. assert (Hne : facts <> []) by congruence.
  clear Hfacts f0 rest.
  destruct (must_complete_times_unfold nark controller ongoing_okay facts Hne)
    as (ante' & seqt' & st1' & calls & Hante' & Hseqt' & Heq).
  rewrite Hante in Hante'. inversion Hante'; subst ante' st1'.
  rewrite Hseqt in Hseqt'. inversion Hseqt'; subst seqt' st2.
  split; [|split; reflexivity].
  rewrite Heq.
  destruct (prev_and_later_returns ongoing_okay ante_fact seqt_fact
              (mkState facts [] calls)
              (timeline_seqt_start _ _ _ Hne Hord) Hguard) as [pl Hpl].
  rewrite (bind_eq _ _ _ _ _
             (four_passes_in_order nark controller _ _ _ _ _ Hpl Hord)).
  reflexivity.
Qed.

(** The four passes that returned without conflict left a resolved
    timeline, on which [prev_and_later] returns again. *)
Lemma four_passes_returned_in_order nark controller ongoing_okay ante_fact seqt_fact
    st st' :
  four_passes nark controller ongoing_okay ante_fact seqt_fact st = Returned tt st' ->
  conflicts st' = [] ->
  timeline_in_order ante_fact seqt_fact (new_facts st') /\
  exists pl, prev_and_later ongoing_okay ante_fact seqt_fact st' = Returned pl st'.
Proof.
  intros Hpasses Hnil. unfold four_passes in Hpasses.
  apply bind_returned in Hpasses. destruct Hpasses as ([] & sta & _ & Hpasses).
  apply bind_returned in Hpasses. destruct Hpasses as ([] & stb & _ & Hpasses).
  apply bind_returned in Hpasses. destruct Hpasses as ([] & stc & Hblank & Hsanity).
  destruct (fix_blank_times_relative_done _ _ _ _ _ _ Hblank) as [Hlen Hdone].
  rewrite <- Hlen in Hdone.
  unfold fix_blank_times_relative in Hblank.
  destruct (pass_returned_prev_and_later _ _ _ _ (fun p => p) _ _ Hblank) as [pl Hpl].
  pose proof (prev_and_later_same_length _ _ _ _ stc _ Hpl Hlen) as Hpl'.
  destruct (verify_datetimes_sanity_returns _ _ _ _ _ Hpl' Hdone)
    as (cs & Heq & _).
  rewrite Heq in Hsanity. inversion Hsanity as [Hst4]. clear Hsanity.
  rewrite <- Hst4 in Hnil. cbn [conflicts add_conflicts] in Hnil.
  apply app_eq_nil in Hnil. destruct Hnil as [Hnilc ->].
  pose proof (blank_done_resolved _ Hnilc Hdone) as Hres.
  destruct (verify_datetimes_sanity_checked _ _ _ _ _ Hres Heq) as (cs' & Hcs' & Hchk).
  assert (cs' = []) as ->.
  { apply (f_equal conflicts) in Hcs'. cbn [conflicts add_conflicts] in Hcs'.
    apply (app_inv_head (conflicts stc)). congruence. }
  rewrite add_conflicts_nil in *. subst st'.
  split; [|eauto].
  apply checked_timeline; [exact Hres| |exact (Hchk eq_refl)].
  destruct (prev_and_later_returned _ _ _ _ _ _ Hpl') as (_ & _ & Hstart).
  exact Hstart.
Qed.

(** X6. Resolution is idempotent: when the four passes return with no
    conflict on record, running them again on the state they left, with
    the same neighbours, returns that same state: nothing is resolved
    twice and no conflict appears. *)
Theorem X6_four_passes_idempotent (nark : Dated) (controller : Controller)
    (ongoing_okay : bool) (ante_fact seqt_fact : option StoredFact)
    (st st' : State) :
  four_passes nark controller ongoing_okay ante_fact seqt_fact st = Returned tt st' ->
  conflicts st' = [] ->
  four_passes nark controller ongoing_okay ante_fact seqt_fact st' = Returned tt st'.
Proof.
  intros Hpasses Hnil.
  destruct (four_passes_returned_in_order _ _ _ _ _ _ _ Hpasses Hnil)
    as [Hord [pl Hpl]].
  exact (four_passes_in_order nark controller _ _ _ _ _ Hpl Hord).
Qed.

Lemma no_timestampb_sound facts :
  no_timestampb facts = true -> no_timestamp facts.
Proof.
  unfold no_timestampb, no_timestamp.
  induction facts as [|g rest IH]; intros H i f Hf; [destruct i; discriminate Hf|].
  cbn [forallb] in H. apply andb_prop in H. destruct H as [Hg Hrest].
  destruct i as [|i]; cbn in Hf.
  - inversion Hf; subst. apply andb_prop in Hg. destruct Hg as [H1 H2].
    apply negb_true_iff in H1, H2. auto.
  - exact (IH Hrest i f Hf).
Qed.

Lemma timeline_in_orderb_sound ante_fact seqt_fact facts :
  timeline_in_orderb ante_fact seqt_fact facts = true ->
  timeline_in_order ante_fact seqt_fact facts.
Proof.
  unfold timeline_in_orderb. intros H. apply andb_prop in H. destruct H as [Hord Hlast].
  destruct (in_orderb_sound facts _ Hord) as [Hres Hfirst].
  split; [exact Hres|]. split.
  - intros ante e f s Ha He Hf Hs. subst ante_fact.
    apply (Hfirst e f s); [cbn; exact He | exact Hf | exact Hs].
  - intros seqt f e Hq Hl He. subst seqt_fact. rewrite Hl, He in Hlast.
    destruct (stored_start seqt) as [s|]; [|discriminate].
    exists s. split; [reflexivity|]. apply Z.leb_le. exact Hlast.
Qed.

Lemma X4_batch_without_timestamp_witness :
  [new_fact (Text "14:00") Absent] <> [] /\
  no_timestamp [new_fact (Text "14:00") Absent] /\
  match must_complete_times NarkModel.dated scenario_c5_store true
          [new_fact (Text "14:00") Absent] with
  | Returned _ _ => False
  | Raised e _ => e = SystemExit \/ e = AssertionError
  end.
Proof.
  split; [discriminate|].
  split; [exact (no_timestampb_sound [new_fact (Text "14:00") Absent] eq_refl)|].
  apply (X4_batch_without_timestamp_fails NarkModel.dated scenario_c5_store true
           [new_fact (Text "14:00") Absent]).
  - discriminate.
  - exact (no_timestampb_sound [new_fact (Text "14:00") Absent] eq_refl).
Defined.

Lemma X5_ordered_timeline_witness :
  antecedent_fact scenario_ordered_store (mkState scenario_c6_facts [] [])
    = Returned (Some scenario_ordered_ante)
        (mkState scenario_c6_facts [] [CallAntecedent (on_2020_01_01 9 0)]) /\
  subsequent_fact scenario_ordered_store
      (mkState scenario_c6_facts [] [CallAntecedent (on_2020_01_01 9 0)])
    = Returned (Some scenario_ordered_seqt)
        (mkState scenario_c6_facts [] scenario_ordered_calls) /\
  timeline_in_order (Some scenario_ordered_ante) (Some scenario_ordered_seqt)
    scenario_c6_facts /\
  must_complete_times NarkModel.dated scenario_ordered_store false scenario_c6_facts
    = Returned tt (mkState scenario_c6_facts [] scenario_ordered_calls).
Proof.
  split; [reflexivity|]. split; [reflexivity|].
  split; [exact (timeline_in_orderb_sound (Some scenario_ordered_ante)
             (Some scenario_ordered_seqt) scenario_c6_facts eq_refl)|].
  apply (X5_ordered_timeline_is_accepted NarkModel.dated scenario_ordered_store false
           scenario_c6_facts (Some scenario_ordered_ante) (Some scenario_ordered_seqt)
           (mkState scenario_c6_facts [] [CallAntecedent (on_2020_01_01 9 0)])
           (mkState scenario_c6_facts [] scenario_ordered_calls)).
  - reflexivity.
  - reflexivity.
  - exact (timeline_in_orderb_sound (Some scenario_ordered_ante)
             (Some scenario_ordered_seqt) scenario_c6_facts eq_refl).
  - right. left. cbn. lia.
Defined.

Lemma X6_four_passes_idempotent_witness :
  four_passes NarkModel.dated scenario_c1_store false
      (Some scenario_c1_ante) (Some scenario_c1_seqt) scenario_c1_st2
    = Returned tt scenario_c1_final /\
  conflicts scenario_c1_final = [] /\
  four_passes NarkModel.dated scenario_c1_store false
      (Some scenario_c1_ante) (Some scenario_c1_seqt) scenario_c1_final
    = Returned tt scenario_c1_final.
Proof.
  split; [vm_compute; reflexivity|]. split; [reflexivity|].
  apply (X6_four_passes_idempotent NarkModel.dated scenario_c1_store false
           (Some scenario_c1_ante) (Some scenario_c1_seqt)
           scenario_c1_st2 scenario_c1_final).
  - vm_compute. reflexivity.
  - reflexivity.
Defined.

(** ** A fact with neither start nor end *)

(** A field step of the clock pass or of the delta pass leaves a fact
    with neither start nor end as it is. *)
Lemma blank_fact_step
    (op : nat -> Which -> option Z -> list FactRef -> M (option Z)) i :
  summarised op ->
  (forall st j later_facts, new_facts st !! j = None ->
     forall which p, exists e, op j which p later_facts st = Raised e st) ->
  (forall st f which p later_facts, new_facts st !! i = Some f ->
     getattr f which = Absent -> op i which p later_facts st = Returned p st) ->
  forall j which p later_facts st, blank_fact_at i st ->
    wp (op j which p later_facts) st
       (fun _ => blank_fact_at i) (fun _ => blank_fact_at i).
Proof.
  intros Hop Hnone Hblank j which p later_facts st HR.
  destruct HR as (f & Hf & Hs & He).
  destruct (Nat.eq_dec j i) as [->|Hne].
  - unfold wp. rewrite (Hblank st f which p later_facts Hf).
    + exists f. auto.
    + destruct which; assumption.
  - destruct (new_facts st !! j) as [g|] eqn:Hg.
    + destruct (Hop st j g which p later_facts Hg)
        as [(p' & st' & g' & cs & Heq & Hsum)|Heq];
        unfold wp; rewrite Heq; exists f; [|auto].
      rewrite (step_summary_other _ _ _ _ _ _ _ i Hsum); auto.
    + destruct (Hnone st j later_facts Hg which p) as [e Heq].
      unfold wp. rewrite Heq. exists f. auto.
Qed.

Lemma fix_clock_times_relative_blank_fact nark ongoing_okay ante_fact seqt_fact i st :
  blank_fact_at i st ->
  wp (fix_clock_times_relative nark ongoing_okay ante_fact seqt_fact) st
     (fun _ => blank_fact_at i) (fun _ => blank_fact_at i).
Proof.
  intros HR.
  apply (pass_preserves _ _ _ _ (fun p => p)); [|exact HR].
  intros j later_facts s st1 HR1.
  apply (two_steps_wp (blank_fact_at i) (fix_clock_time_relative nark)); [|exact HR1].
  intros which p st2 HR2.
  apply (blank_fact_step (fix_clock_time_relative nark) i); auto.
  - apply fix_clock_time_relative_summarised.
  - intros. apply fix_clock_time_relative_none. assumption.
  - intros st0 f w p0 lf Hf Hw.
    rewrite (fix_clock_time_relative_eq _ _ _ _ _ _ _ Hf), Hw. reflexivity.
Qed.

Lemma fix_delta_times_relative_blank_fact nark ongoing_okay ante_fact seqt_fact i st :
  blank_fact_at i st ->
  wp (fix_delta_times_relative nark ongoing_okay ante_fact seqt_fact) st
     (fun _ => blank_fact_at i) (fun _ => blank_fact_at i).
Proof.
  intros HR.
  apply (pass_preserves _ _ _ _ (fun p => p)); [|exact HR].
  intros j later_facts s st1 HR1.
  apply (two_steps_wp (blank_fact_at i) (fix_delta_time_relative nark)); [|exact HR1].
  intros which p st2 HR2.
  apply (blank_fact_step (fix_delta_time_relative nark) i); auto.
  - apply fix_delta_time_relative_summarised.
  - intros. apply fix_delta_time_relative_none. assumption.
  - intros st0 f w p0 lf Hf Hw.
    rewrite (fix_delta_time_relative_eq _ _ _ _ _ _ _ Hf), Hw. reflexivity.
Qed.

(** Two field steps on the fact [i], for a predicate that survives the
    summarised steps on that fact. *)
Lemma two_steps_preserve_at (R : State -> Prop) op i prev_time later_facts st :
  summarised op ->
  (forall st, new_facts st !! i = None ->
     forall which p, exists e, op i which p later_facts st = Raised e st) ->
  (forall which f st st' f' cs, new_facts st !! i = Some f ->
     step_summary i which f st st' f' cs -> R st -> R st') ->
  R st ->
  wp (let* prev_time := op i WStart prev_time later_facts in
      op i WEnd prev_time later_facts) st (fun _ => R) (fun _ => R).
Proof.
  intros Hop Hnone Hstep HR.
  destruct (new_facts st !! i) as [f|] eqn:Hf.
  - destruct (Hop st i f WStart prev_time later_facts Hf)
      as [(p1 & st1 & f1 & cs1 & Heq1 & Hs1)|Heq1];
      apply wp_bind; unfold wp at 1; rewrite Heq1; [|exact HR].
    pose proof (step_summary_lookup _ _ _ _ _ _ _ Hs1 Hf) as Hf1.
    destruct (Hop st1 i f1 WEnd p1 later_facts Hf1)
      as [(p2 & st2 & f2 & cs2 & Heq2 & Hs2)|Heq2];
      unfold wp; rewrite Heq2; eauto.
  - destruct (Hnone st Hf WStart prev_time) as [e He].
    unfold wp, bind. rewrite He. exact HR.
Qed.

(** The blank-fill pass does not get past a fact with neither start nor
    end: it asserts that one of the two is there. *)
Lemma fix_blank_times_relative_blank_fact controller ongoing_okay ante_fact seqt_fact
    i st st' :
  blank_fact_at i st ->
  fix_blank_times_relative controller ongoing_okay ante_fact seqt_fact st
    = Returned tt st' ->
  False.
Proof.
  intros HR Hret. unfold fix_blank_times_relative in Hret.
  assert (Hi : (i < length (new_facts st))%nat).
  { destruct HR as (f & Hf & _). apply lookup_lt_is_Some. eauto. }
  apply (pass_inv _ _ _ _ (fun p => p)
           (fun j _ st1 => blank_fact_at i st1 /\ (j <= i)%nat)
           (fun _ => False) _ _ Hret).
  - intros j p st1 Hj [HR1 Hle]. cbv beta.
    destruct (Nat.eq_dec j i) as [->|Hne].
    + destruct HR1 as (f & Hf & Hs & He). unfold wp.
      rewrite (bind_eq _ _ _ _ _ (read_attr_eq st1 i f WStart Hf)).
      rewrite (bind_eq _ _ _ _ _ (read_attr_eq st1 i f WEnd Hf)).
      cbn [getattr]. rewrite Hs, He. cbn. exact I.
    + assert (Hgoal : wp
        (let* fact_start := read_attr j WStart in
         let* fact_end := read_attr j WEnd in
         py_assert (truthy fact_start || truthy fact_end) ;;;
         let* prev_time := fix_blank_time_relative controller j WStart p
                             (later_from (Datatypes.S j) (length (new_facts st))
                                (seqt_tail seqt_fact)) in
         fix_blank_time_relative controller j WEnd prev_time
           (later_from (Datatypes.S j) (length (new_facts st)) (seqt_tail seqt_fact)))
        st1 (fun _ => blank_fact_at i) may_raise).
      { unfold wp.
        destruct (new_facts st1 !! j) as [g|] eqn:Hg;
          [|unfold bind; rewrite (read_attr_none _ _ _ Hg); exact I].
        rewrite (bind_eq _ _ _ _ _ (read_attr_eq st1 j g WStart Hg)).
        rewrite (bind_eq _ _ _ _ _ (read_attr_eq st1 j g WEnd Hg)).
        destruct (truthy (getattr g WStart) || truthy (getattr g WEnd))%bool;
          [|exact I].
        unfold py_assert. unfold bind at 1, ret at 1.
        eapply wp_mono;
          [| |apply (two_steps_preserve_at (blank_fact_at i)
                       (fix_blank_time_relative controller) j); auto].
        - cbv beta. auto.
        - intros; exact I.
        - apply fix_blank_time_relative_summarised.
        - intros. apply fix_blank_time_relative_none. assumption.
        - intros which f sta stb f' cs Hk Hsum (h & Hh & Hhs & Hhe).
          exists h. rewrite (step_summary_other _ _ _ _ _ _ _ i Hsum); auto. }
      eapply wp_mono; [| |exact Hgoal].
      * cbv beta. intros p' stb Hb. split; [exact Hb|lia].
      * auto.
  - split; [exact HR|lia].
  - cbv beta. intros s st1 [_ Hle]. lia.
Qed.

(** X7. A fact that comes with neither start nor end is neither
    resolved nor reported as a conflict: whatever the rest of the batch
    and the store hold, [must_complete_times] is aborted by an
    exception, which is an assertion failure (at the latest the one of
    the blank-fill pass, that a fact has a start or an end) or,
    when a delta of another fact led out of the range of [datetime]
    before that, an [OverflowError]. *)
Theorem X7_fact_without_times_asserts (nark : Dated) (controller : Controller)
    (ongoing_okay : bool) (facts : list Fact) (i : nat) (f : Fact) :
  facts !! i = Some f ->
  fact_start f = Absent -> fact_end f = Absent ->
  exists e st,
    must_complete_times nark controller ongoing_okay facts = Raised e st /\
    (e = AssertionError \/ e = OverflowError).
Proof.
  intros Hf Hs He.
  assert (Hne : facts <> []) by (intros ->; discriminate Hf).
  destruct (must_complete_times_unfold nark controller ongoing_okay facts Hne)
    as (ante & seqt & st1 & calls & _ & _ & Heq).
  rewrite Heq. set (st := mkState facts [] calls).
  assert (HR : blank_fact_at i st) by (exists f; auto).
  destruct (four_passes nark controller ongoing_okay ante seqt st)
    as [[] st4|e st4] eqn:Hpasses.
  - exfalso. unfold four_passes in Hpasses.
    apply bind_returned in Hpasses. destruct Hpasses as ([] & sta & Hclk & Hpasses).
    apply bind_returned in Hpasses. destruct Hpasses as ([] & stb & Hdlt & Hpasses).
    apply bind_returned in Hpasses. destruct Hpasses as ([] & stc & Hblank & _).
    pose proof (fix_clock_times_relative_blank_fact nark ongoing_okay ante seqt i st HR)
      as Ha.
    unfold wp in Ha. rewrite Hclk in Ha.
    pose proof (fix_delta_times_relative_blank_fact nark ongoing_okay ante seqt i sta Ha)
      as Hb.
    unfold wp in Hb. rewrite Hdlt in Hb.
    exact (fix_blank_times_relative_blank_fact _ _ _ _ _ _ _ Hb Hblank).
  - exists e, st4. unfold bind. rewrite Hpasses.
    split; [reflexivity|exact (four_passes_raises _ _ _ _ _ _ _ _ Hpasses)].
Qed.

Lemma X7_fact_without_times_witness :
  [new_fact (Datetime (on_2020_01_01 9 0)) (Datetime (on_2020_01_01 10 0));
   new_fact Absent Absent] !! 1%nat = Some (new_fact Absent Absent) /\
  fact_start (new_fact Absent Absent) = Absent /\
  fact_end (new_fact Absent Absent) = Absent /\
  exists e st,
    must_complete_times NarkModel.dated no_neighbours false
      [new_fact (Datetime (on_2020_01_01 9 0)) (Datetime (on_2020_01_01 10 0));
       new_fact Absent Absent] = Raised e st /\
    (e = AssertionError \/ e = OverflowError).
Proof.
  split; [reflexivity|]. split; [reflexivity|]. split; [reflexivity|].
  apply (X7_fact_without_times_asserts NarkModel.dated no_neighbours false
           [new_fact (Datetime (on_2020_01_01 9 0)) (Datetime (on_2020_01_01 10 0));
            new_fact Absent Absent] 1%nat (new_fact Absent Absent));
    reflexivity.
Defined.

(** ** Relative deltas beside a timestamp of the same fact *)

(** A fact with two timestamps is out of reach of every field step. *)
Lemma resolved_fact_step i f s e j which g st st' g' cs :
  two_timestamps f s e ->
  new_facts st !! j = Some g -> step_summary j which g st st' g' cs ->
  new_facts st !! i = Some f -> new_facts st' !! i = Some f.
Proof.
  intros [Hs He] Hg Hsum Hf.
  destruct (Nat.eq_dec i j) as [->|Hne].
  - rewrite Hg in Hf. inversion Hf; subst g.
    rewrite (step_summary_lookup _ _ _ _ _ _ _ Hsum Hg). f_equal.
    destruct Hsum as (_ & _ & Hpk & Hoppo & Hsame & _).
    assert (Hw : getattr g' which = getattr f which).
    { destruct Hsame as [H|[_ H]]; [exact H|].
      destruct which; cbn [getattr] in H; rewrite ?Hs, ?He in H; discriminate H. }
    destruct f as [pk fs fe], g' as [pk' fs' fe'], which;
      cbn in Hpk, Hoppo, Hw; congruence.
  - rewrite (step_summary_other _ _ _ _ _ _ _ i Hsum); auto.
Qed.

(** A field step that returns with the state it found, whenever it runs
    on the fact [f] at [i], leaves [f] at [i] wherever it runs. *)
Lemma fixed_fact_step
    (op : nat -> Which -> option Z -> list FactRef -> M (option Z)) i f :
  summarised op ->
  (forall st j later_facts, new_facts st !! j = None ->
     forall which p, exists e, op j which p later_facts st = Raised e st) ->
  (forall st which p later_facts, new_facts st !! i = Some f ->
     exists p', op i which p later_facts st = Returned p' st) ->
  forall j which p later_facts st, new_facts st !! i = Some f ->
    wp (op j which p later_facts) st
       (fun _ st' => new_facts st' !! i = Some f)
       (fun _ st' => new_facts st' !! i = Some f).
Proof.
  intros Hop Hnone Hfixed j which p later_facts st Hf.
  destruct (Nat.eq_dec j i) as [->|Hne].
  - destruct (Hfixed st which p later_facts Hf) as [p' Heq].
    unfold wp. rewrite Heq. exact Hf.
  - destruct (new_facts st !! j) as [g|] eqn:Hg.
    + destruct (Hop st j g which p later_facts Hg)
        as [(p' & st' & g' & cs & Heq & Hsum)|Heq];
        unfold wp; rewrite Heq; [|exact Hf].
      rewrite (step_summary_other _ _ _ _ _ _ _ i Hsum); auto.
    + destruct (Hnone st j later_facts Hg which p) as [e Heq].
      unfold wp. rewrite Heq. exact Hf.
Qed.

(** The clock pass leaves alone a fact none of whose fields reads as a
    clock time. *)
Lemma fix_clock_times_relative_keeps nark ongoing_okay ante_fact seqt_fact i f st st' :
  (forall which txt, getattr f which = Text txt -> parse_clock_time nark txt = None) ->
  new_facts st !! i = Some f ->
  fix_clock_times_relative nark ongoing_okay ante_fact seqt_fact st = Returned tt st' ->
  new_facts st' !! i = Some f.
Proof.
  intros Hclock Hf Hret.
  assert (Hwp : wp (fix_clock_times_relative nark ongoing_okay ante_fact seqt_fact) st
                  (fun _ st' => new_facts st' !! i = Some f)
                  (fun _ st' => new_facts st' !! i = Some f)).
  { apply (pass_preserves _ _ _ _ (fun p => p)); [|exact Hf].
    intros j later_facts p st1 Hf1.
    apply (two_steps_wp (fun st => new_facts st !! i = Some f)
             (fix_clock_time_relative nark)); [|exact Hf1].
    intros which p0 st2 Hf2.
    apply (fixed_fact_step (fix_clock_time_relative nark) i f); auto.
    - apply fix_clock_time_relative_summarised.
    - intros. apply fix_clock_time_relative_none. assumption.
    - intros st0 w p1 lf Hf0.
      rewrite (fix_clock_time_relative_eq _ _ _ _ _ _ _ Hf0).
      destruct (getattr f w) as [|t|txt] eqn:Hw; eauto.
      rewrite (Hclock w txt Hw). eauto. }
  exact (wp_returned _ _ _ _ _ _ Hwp Hret).
Qed.

(** The delta pass, when its two steps on the fact [f] at [i] replace it
    by the resolved fact [f']. *)
Lemma fix_delta_times_relative_resolves nark ongoing_okay ante_fact seqt_fact
    i f f' s e st st' :
  two_timestamps f' s e ->
  (forall st1 p later_facts, new_facts st1 !! i = Some f ->
     wp (let* prev_time := fix_delta_time_relative nark i WStart p later_facts in
         fix_delta_time_relative nark i WEnd prev_time later_facts) st1
        (fun _ st2 => new_facts st2 !! i = Some f') may_raise) ->
  new_facts st !! i = Some f ->
  fix_delta_times_relative nark ongoing_okay ante_fact seqt_fact st = Returned tt st' ->
  new_facts st' !! i = Some f'.
Proof.
  intros Hres Hat Hf Hret. unfold fix_delta_times_relative in Hret.
  assert (Hi : (i < length (new_facts st))%nat).
  { apply lookup_lt_is_Some. eauto. }
  apply (pass_inv _ _ _ _ (fun p => p)
           (fun j _ st1 => ((j <= i)%nat -> new_facts st1 !! i = Some f) /\
                           ((i < j)%nat -> new_facts st1 !! i = Some f'))
           (fun st1 => new_facts st1 !! i = Some f') _ _ Hret).
  - intros j p st1 Hj [Hbefore Hafter]. cbv beta.
    destruct (Nat.lt_trichotomy j i) as [Hlt|[->|Hgt]].
    + eapply wp_mono;
        [| |apply (two_steps_preserve_at (fun st => new_facts st !! i = Some f)
                     (fix_delta_time_relative nark) j)].
      * cbv beta. intros p' st2 H2. split; [auto|lia].
      * intros; exact I.
      * apply fix_delta_time_relative_summarised.
      * intros. apply fix_delta_time_relative_none. assumption.
      * intros which g sta stb g' cs Hg Hsum Hfa.
        rewrite (step_summary_other _ _ _ _ _ _ _ i Hsum); [exact Hfa|lia].
      * apply Hbefore. lia.
    + eapply wp_mono;
        [| |exact (Hat st1 p
                     (later_from (Datatypes.S i) (length (new_facts st))
                        (seqt_tail seqt_fact))
                     (Hbefore (Nat.le_refl i)))].
      * cbv beta. intros p' st2 Hf2. split; [lia|auto].
      * auto.
    + eapply wp_mono;
        [| |apply (two_steps_preserve_at (fun st => new_facts st !! i = Some f')
                     (fix_delta_time_relative nark) j)].
      * cbv beta. intros p' st2 H2. split; [lia|auto].
      * intros; exact I.
      * apply fix_delta_time_relative_summarised.
      * intros. apply fix_delta_time_relative_none. assumption.
      * intros which g sta stb g' cs Hg Hsum Hfa.
        exact (resolved_fact_step i f' s e j which g sta stb g' cs Hres Hg Hsum Hfa).
      * apply Hafter. exact Hgt.
  - split; [auto|lia].
  - cbv beta. intros p st1 [_ Hafter]. apply Hafter. exact Hi.
Qed.

(** A resolved fact stays as it is through the blank-fill pass and the
    sanity pass. *)
Lemma resolved_fact_kept controller ongoing_okay ante_fact seqt_fact i f s e st stc st4 :
  two_timestamps f s e ->
  new_facts st !! i = Some f ->
  fix_blank_times_relative controller ongoing_okay ante_fact seqt_fact st
    = Returned tt stc ->
  verify_datetimes_sanity ongoing_okay ante_fact seqt_fact stc = Returned tt st4 ->
  new_facts st4 !! i = Some f.
Proof.
  intros Hres Hf Hblank Hsanity.
  destruct (three_passes_preserve NarkModel.dated controller ongoing_okay
              ante_fact seqt_fact (fun st => new_facts st !! i = Some f)) with (st := st)
    as (_ & _ & Hb); [|exact Hf|].
  { intros j which g sta stb g' cs Hg Hsum Hfa.
    exact (resolved_fact_step i f s e j which g sta stb g' cs Hres Hg Hsum Hfa). }
  pose proof (wp_returned _ _ _ _ _ _ Hb Hblank) as Hc. cbv beta in Hc.
  pose proof (verify_datetimes_sanity_preserves ongoing_okay ante_fact seqt_fact
                (fun st => new_facts st !! i = Some f)) as Hsan.
  specialize (Hsan ltac:(intros sa sb [cs ->] H; exact H) stc Hc).
  exact (wp_returned _ _ _ _ _ _ Hsan Hsanity).
Qed.

(** When the resolver returns or exits with conflicts, the four passes
    have all returned. *)
Lemma must_complete_times_passes nark controller ongoing_okay facts st :
  facts <> [] ->
  must_complete_times nark controller ongoing_okay facts = Returned tt st \/
  must_complete_times nark controller ongoing_okay facts = Raised SystemExit st ->
  exists ante_fact seqt_fact calls,
    four_passes nark controller ongoing_okay ante_fact seqt_fact
      (mkState facts [] calls) = Returned tt st.
Proof.
  intros Hne Hout.
  destruct (must_complete_times_unfold nark controller ongoing_okay facts Hne)
    as (ante & seqt & st1 & calls & _ & _ & Heq).
  exists ante, seqt, calls. rewrite Heq in Hout. unfold bind in Hout.
  destruct (four_passes nark controller ongoing_okay ante seqt (mkState facts [] calls))
    as [[] st4|e st4] eqn:Hpasses.
  - rewrite barf_on_overlapping_facts_new_eq in Hout.
    destruct (conflicts st4); destruct Hout as [H|H]; congruence.
  - destruct (four_passes_raises _ _ _ _ _ _ _ _ Hpasses) as [-> | ->];
      destruct Hout as [H|H]; discriminate H.
Qed.

Lemma delta_resolved_fact nark controller ongoing_okay facts i f f' s e st :
  (forall which txt, getattr f which = Text txt -> parse_clock_time nark txt = None) ->
  two_timestamps f' s e ->
  (forall st1 p later_facts, new_facts st1 !! i = Some f ->
     wp (let* prev_time := fix_delta_time_relative nark i WStart p later_facts in
         fix_delta_time_relative nark i WEnd prev_time later_facts) st1
        (fun _ st2 => new_facts st2 !! i = Some f') may_raise) ->
  facts !! i = Some f ->
  must_complete_times nark controller ongoing_okay facts = Returned tt st \/
  must_complete_times nark controller ongoing_okay facts = Raised SystemExit st ->
  new_facts st !! i = Some f'.
Proof.
  intros Hclock Hres Hat Hf Hout.
  assert (Hne : facts <> []) by (intros ->; discriminate Hf).
  destruct (must_complete_times_passes _ _ _ _ _ Hne Hout)
    as (ante & seqt & calls & Hpasses).
  unfold four_passes in Hpasses.
  apply bind_returned in Hpasses. destruct Hpasses as ([] & sta & Hclk & Hpasses).
  apply bind_returned in Hpasses. destruct Hpasses as ([] & stb & Hdlt & Hpasses).
  apply bind_returned in Hpasses. destruct Hpasses as ([] & stc & Hblank & Hsanity).
  pose proof (fix_clock_times_relative_keeps nark ongoing_okay ante seqt i f
                (mkState facts [] calls) sta Hclock Hf Hclk) as Ha.
  pose proof (fix_delta_times_relative_resolves nark ongoing_okay ante seqt
                i f f' s e sta stb Hres Hat Ha Hdlt) as Hb.
  exact (resolved_fact_kept controller ongoing_okay ante seqt i f' s e stb stc st
           Hres Hb Hblank Hsanity).
Qed.

(** X8. A relative end is a duration: a fact that comes with a timestamp
    for start and, for end, a delta the parser reads as not negative (and
    that it does not read as a clock time) ends [delta_mins] minutes after
    its own start, wherever it stands in the batch and whatever precedes
    it; this holds whenever the resolver returns or exits with
    conflicts. *)
Theorem X8_relative_end_is_a_duration (nark : Dated) (controller : Controller)
    (ongoing_okay : bool) (facts : list Fact) (i : nat) (f : Fact)
    (s : Z) (txt : string) (delta_mins : Z) (st : State) :
  facts !! i = Some f ->
  fact_start f = Datetime s -> fact_end f = Text txt ->
  parse_clock_time nark txt = None ->
  parse_relative_minutes nark txt = (Some delta_mins, Some false) ->
  must_complete_times nark controller ongoing_okay facts = Returned tt st \/
  must_complete_times nark controller ongoing_okay facts = Raised SystemExit st ->
  new_facts st !! i = Some (with_attr f WEnd (Datetime (s + 60 * delta_mins))).
Proof.
  intros Hf Hs He Hclock Hdelta Hout.
  apply (delta_resolved_fact nark controller ongoing_okay facts i f
           (with_attr f WEnd (Datetime (s + 60 * delta_mins)))
           s (s + 60 * delta_mins) st); auto.
  - intros which t Hw. destruct which; cbn [getattr] in Hw; congruence.
  - destruct f; cbn in *. split; [exact Hs|reflexivity].
  - intros st1 p later_facts Hf1. unfold wp.
    rewrite (bind_eq _ _ _ (Some s) st1).
    + rewrite (fix_delta_time_relative_eq _ _ _ _ _ _ _ Hf1).
      cbn [getattr]. rewrite He, Hdelta. cbn [delta_anchor].
      destruct (minutes_after s delta_mins) as [dt|] eqn:Hdt; [|exact I].
      rewrite (minutes_after_some _ _ _ Hdt).
      cbn. apply list_lookup_insert_eq. apply lookup_lt_is_Some. eauto.
    + rewrite (fix_delta_time_relative_eq _ _ _ _ _ _ _ Hf1).
      cbn [getattr]. rewrite Hs. reflexivity.
Qed.

(** X9. A relative start counts back from the end: a fact that comes
    with a timestamp for end and, for start, a delta the parser does not
    read as positive (nor as a clock time) starts at its own end plus the
    parsed minutes (a negative number for a delta written with a minus),
    whatever precedes or follows it; this holds whenever the resolver
    returns or exits with conflicts. *)
Theorem X9_relative_start_counts_back (nark : Dated) (controller : Controller)
    (ongoing_okay : bool) (facts : list Fact) (i : nat) (f : Fact)
    (e : Z) (txt : string) (delta_mins : Z) (delta_minus : option bool) (st : State) :
  facts !! i = Some f ->
  fact_start f = Text txt -> fact_end f = Datetime e ->
  parse_clock_time nark txt = None ->
  parse_relative_minutes nark txt = (Some delta_mins, delta_minus) ->
  delta_minus <> Some false ->
  must_complete_times nark controller ongoing_okay facts = Returned tt st \/
  must_complete_times nark controller ongoing_okay facts = Raised SystemExit st ->
  new_facts st !! i = Some (with_attr f WStart (Datetime (e + 60 * delta_mins))).
Proof.
  intros Hf Hs He Hclock Hdelta Hminus Hout.
  apply (delta_resolved_fact nark controller ongoing_okay facts i f
           (with_attr f WStart (Datetime (e + 60 * delta_mins)))
           (e + 60 * delta_mins) e st); auto.
  - intros which t Hw. destruct which; cbn [getattr] in Hw; congruence.
  - destruct f; cbn in *. split; [reflexivity|exact He].
  - intros st1 p later_facts Hf1.
    set (f' := with_attr f WStart (Datetime (e + 60 * delta_mins))).
    assert (Hf' : new_facts (set_fact st1 i f') !! i = Some f').
    { cbn. apply list_lookup_insert_eq. apply lookup_lt_is_Some. eauto. }
    assert (Hanchor : delta_anchor WStart delta_minus (fact_end f) p
                        (fst <$> find_next_datetime (new_facts st1) later_facts)
                      = Some e).
    { unfold delta_anchor. rewrite He.
      destruct delta_minus as [[|]|]; try congruence; reflexivity. }
    unfold wp, bind.
    rewrite (fix_delta_time_relative_eq _ _ _ _ _ _ _ Hf1).
    cbn [getattr]. rewrite Hs, Hdelta, Hanchor.
    destruct (minutes_after e delta_mins) as [dt|] eqn:Hdt; [|exact I].
    rewrite (minutes_after_some _ _ _ Hdt). fold f'.
    rewrite (fix_delta_time_relative_eq _ _ _ _ _ _ _ Hf').
    subst f'. destruct f; cbn in *. rewrite He. cbn.
    apply list_lookup_insert_eq. apply lookup_lt_is_Some. eauto.
Qed.

Lemma X8_relative_end_witness :
  [scenario_duration_fact] !! 0%nat = Some scenario_duration_fact /\
  parse_clock_time NarkModel.dated "+30" = None /\
  parse_relative_minutes NarkModel.dated "+30" = (Some 30, Some false) /\
  must_complete_times NarkModel.dated no_neighbours false [scenario_duration_fact]
    = Returned tt scenario_duration_final /\
  new_facts scenario_duration_final !! 0%nat
    = Some (with_attr scenario_duration_fact WEnd
              (Datetime (on_2020_01_01 10 0 + 60 * 30))).
Proof.
  split; [reflexivity|]. split; [reflexivity|]. split; [reflexivity|].
  split; [vm_compute; reflexivity|].
  apply (X8_relative_end_is_a_duration NarkModel.dated no_neighbours false
           [scenario_duration_fact] 0%nat scenario_duration_fact
           (on_2020_01_01 10 0) "+30" 30 scenario_duration_final);
    try reflexivity.
  left. vm_compute. reflexivity.
Defined.

Lemma X9_relative_start_witness :
  [scenario_count_back_fact] !! 0%nat = Some scenario_count_back_fact /\
  parse_clock_time NarkModel.dated "-15" = None /\
  parse_relative_minutes NarkModel.dated "-15" = (Some (-15), Some true) /\
  must_complete_times NarkModel.dated no_neighbours false [scenario_count_back_fact]
    = Returned tt scenario_count_back_final /\
  new_facts scenario_count_back_final !! 0%nat
    = Some (with_attr scenario_count_back_fact WStart
              (Datetime (on_2020_01_01 10 0 + 60 * -15))).
Proof.
  split; [reflexivity|]. split; [reflexivity|]. split; [reflexivity|].
  split; [vm_compute; reflexivity|].
  apply (X9_relative_start_counts_back NarkModel.dated no_neighbours false
           [scenario_count_back_fact] 0%nat scenario_count_back_fact
           (on_2020_01_01 10 0) "-15" (-15) (Some true) scenario_count_back_final);
    try reflexivity.
  - discriminate.
  - left. vm_compute. reflexivity.
Defined.

(** ** Filling one fact from a time hint *)

Lemma setattr_eq st i f which t :
  new_facts st !! i = Some f ->
  setattr i which t st = Returned tt (set_fact st i (with_attr f which (Datetime t))).
Proof. intros Hf. unfold setattr. rewrite Hf. reflexivity. Qed.

Lemma set_fact_same st i f : new_facts st !! i = Some f -> set_fact st i f = st.
Proof.
  intros Hf. unfold set_fact. rewrite (list_insert_id _ _ _ Hf). destruct st; reflexivity.
Qed.

(** [new_fact_fill_now] on a fact that is there: the checks of each hint
    come before its one write. *)
Lemma new_fact_fill_now_eq st i f time_hint now_ :
  new_facts st !! i = Some f ->
  new_fact_fill_now i time_hint now_ st =
    if String.eqb time_hint "verify_none" then
      if negb (truthy (fact_start f)) && negb (truthy (fact_end f))
      then Returned true (set_fact st i (with_attr f WStart (Datetime now_)))
      else Raised AssertionError st
    else if String.eqb time_hint "verify_both" then
      if truthy (fact_start f) && truthy (fact_end f)
      then Returned false st else Raised AssertionError st
    else if String.eqb time_hint "verify_start" then
      if truthy (fact_end f) then Raised AssertionError st
      else if truthy (fact_start f) then Returned true st
      else Returned true (set_fact st i (with_attr f WStart (Datetime now_)))
    else if String.eqb time_hint "verify_end" then
      if truthy (fact_start f) then Raised AssertionError st
      else if truthy (fact_end f) then Returned false st
      else Returned false (set_fact st i (with_attr f WEnd (Datetime now_)))
    else Returned false st.
Proof.
  intros Hf. unfold new_fact_fill_now.
  destruct (String.eqb time_hint "verify_none");
    [|destruct (String.eqb time_hint "verify_both");
      [|destruct (String.eqb time_hint "verify_start");
        [|destruct (String.eqb time_hint "verify_end"); [|reflexivity]]]];
    rewrite (bind_eq _ _ _ _ _ (read_attr_eq st i f _ Hf)); cbn [getattr];
    destruct (truthy (fact_start f)) eqn:Hs, (truthy (fact_end f)) eqn:He;
    unfold py_assert, bind, ret, raise; cbn [negb andb];
    rewrite ?(read_attr_eq st i f _ Hf); cbn [getattr negb];
    rewrite ?Hs, ?He; cbn [negb];
    rewrite ?(setattr_eq st i f _ _ Hf); reflexivity.
Qed.

(** X10. [new_fact_fill_now] never overwrites a value the fact came
    with.  Whatever the hint and the outcome, it touches nothing but the
    one fact, whose primary key stays, and each field of that fact is as
    it was or was empty and now holds [now]. *)
Theorem X10_fill_now_keeps_given_values (st : State) (fact : nat) (f : Fact)
    (time_hint : string) (now_ : Z) :
  new_facts st !! fact = Some f ->
  exists f',
    final_state (new_fact_fill_now fact time_hint now_ st) = set_fact st fact f' /\
    fact_pk f' = fact_pk f /\
    forall which,
      getattr f' which = getattr f which \/
      truthy (getattr f which) = false /\ getattr f' which = Datetime now_.
Proof.
  intros Hf. rewrite (new_fact_fill_now_eq _ _ _ _ _ Hf).
  assert (Hsame : exists f',
            st = set_fact st fact f' /\ fact_pk f' = fact_pk f /\
            forall which,
              getattr f' which = getattr f which \/
              truthy (getattr f which) = false /\ getattr f' which = Datetime now_).
  { exists f. rewrite (set_fact_same _ _ _ Hf). auto. }
  assert (Hset : forall w, truthy (getattr f w) = false ->
            exists f',
              set_fact st fact (with_attr f w (Datetime now_)) = set_fact st fact f' /\
              fact_pk f' = fact_pk f /\
              forall which,
                getattr f' which = getattr f which \/
                truthy (getattr f which) = false /\ getattr f' which = Datetime now_).
  { intros w Hw. exists (with_attr f w (Datetime now_)).
    split; [reflexivity|]. split; [destruct w; reflexivity|].
    intros which. destruct w, which; cbn in *; auto. }
  destruct (String.eqb time_hint "verify_none");
    [|destruct (String.eqb time_hint "verify_both");
      [|destruct (String.eqb time_hint "verify_start");
        [|destruct (String.eqb time_hint "verify_end")]]];
    destruct (truthy (fact_start f)) eqn:Hs, (truthy (fact_end f)) eqn:He;
    cbn [negb andb final_state];
    first [exact Hsame | exact (Hset WStart Hs) | exact (Hset WEnd He)].
Qed.

(** X11. What the hint guarantees when [new_fact_fill_now] returns under
    one of its four hints: the flag it returns tells that the end is
    still empty, and the fact has a start, except under [verify_end],
    where it has an end and no start. *)
Theorem X11_fill_now_leave_open_iff_no_end (st st' : State) (fact : nat) (f : Fact)
    (time_hint : string) (now_ : Z) (leave_open : bool) :
  new_facts st !! fact = Some f ->
  In time_hint known_hints ->
  new_fact_fill_now fact time_hint now_ st = Returned leave_open st' ->
  exists f',
    new_facts st' !! fact = Some f' /\
    leave_open = negb (truthy (fact_end f')) /\
    truthy (fact_start f') = negb (String.eqb time_hint "verify_end") /\
    leave_open = existsb (String.eqb time_hint) open_hints.
Proof.
  intros Hf Hin Hret. rewrite (new_fact_fill_now_eq _ _ _ _ _ Hf) in Hret.
  assert (Hi : (fact < length (new_facts st))%nat)
    by (apply lookup_lt_is_Some; eauto).
  assert (Hlookup : forall g, new_facts (set_fact st fact g) !! fact = Some g).
  { intros g. cbn. apply list_lookup_insert_eq. exact Hi. }
  unfold known_hints in Hin. cbn [In] in Hin.
  destruct Hin as [<-|[<-|[<-|[<-|[]]]]]; cbn in Hret;
    destruct (truthy (fact_start f)) eqn:Hs, (truthy (fact_end f)) eqn:He;
    cbn in Hret; inversion Hret; subst;
    first [ exists f; rewrite Hs, He; repeat split; solve [auto]
          | eexists; split; [apply Hlookup|]; cbn; rewrite ?Hs, ?He;
            repeat split; reflexivity ].
Qed.

(** X12. [new_fact_fill_now] on a fact that is there fails only under
    one of its four hints, only on an assertion, and before it has
    written anything: the state is as it was. *)
Theorem X12_fill_now_fails_before_writing (st st' : State) (fact : nat) (f : Fact)
    (time_hint : string) (now_ : Z) (e : Exn) :
  new_facts st !! fact = Some f ->
  new_fact_fill_now fact time_hint now_ st = Raised e st' ->
  e = AssertionError /\ st' = st /\ In time_hint known_hints.
Proof.
  intros Hf Hret. rewrite (new_fact_fill_now_eq _ _ _ _ _ Hf) in Hret.
  unfold known_hints.
  destruct (String.eqb_spec time_hint "verify_none") as [->|_];
    [|destruct (String.eqb_spec time_hint "verify_both") as [->|_];
      [|destruct (String.eqb_spec time_hint "verify_start") as [->|_];
        [|destruct (String.eqb_spec time_hint "verify_end") as [->|_];
          [|discriminate Hret]]]];
    destruct (truthy (fact_start f)), (truthy (fact_end f));
    cbn [negb andb] in Hret; inversion Hret; subst;
    repeat split; cbn [In]; auto.
Qed.

(** X13. Under the hints [verify_none] and [verify_start] the fact is
    left open: whenever [mend_facts_times] returns, the end of the fact
    is [None], whatever [insert_forcefully] and
    [validate_start_end_range] did in between. *)
Theorem X13_mend_leaves_fact_open (Conflicts : Type) (controller : Controller)
    (insert_forcefully : nat -> M Conflicts)
    (validate_start_end_range : TimeVal * TimeVal -> M unit)
    (st st' : State) (fact : nat) (f : Fact) (time_hint : string)
    (found : Conflicts) :
  new_facts st !! fact = Some f ->
  In time_hint open_hints ->
  mend_facts_times Conflicts controller insert_forcefully validate_start_end_range
    fact time_hint st = Returned found st' ->
  exists f', new_facts st' !! fact = Some f' /\ fact_end f' = Absent.
Proof.
  intros Hf Hin Hret. unfold mend_facts_times, _mend_facts_times in Hret.
  apply bind_returned in Hret. destruct Hret as (leave_open & st1 & Hfill & Hret).
  assert (Hopen : leave_open = true).
  { rewrite (new_fact_fill_now_eq _ _ _ _ _ Hf) in Hfill.
    unfold open_hints in Hin. cbn [In] in Hin.
    destruct Hin as [<-|[<-|[]]]; cbn in Hfill;
      destruct (truthy (fact_start f)), (truthy (fact_end f));
      cbn in Hfill; congruence. }
  subst leave_open.
  apply bind_returned in Hret. destruct Hret as (found' & st2 & _ & Hret).
  apply bind_returned in Hret. destruct Hret as (s & st3 & _ & Hret).
  apply bind_returned in Hret. destruct Hret as (e & st4 & _ & Hret).
  apply bind_returned in Hret. destruct Hret as ([] & st5 & _ & Hret).
  apply bind_returned in Hret. destruct Hret as ([] & st6 & Hset & Hret).
  unfold ret in Hret. inversion Hret; subst. clear Hret.
  unfold setattr_none in Hset.
  destruct (new_facts st5 !! fact) as [g|] eqn:Hg; [|discriminate Hset].
  inversion Hset; subst. cbn [new_facts].
  exists (with_attr g WEnd Absent). split; [|reflexivity].
  apply list_lookup_insert_eq. apply lookup_lt_is_Some. eauto.
Qed.

Lemma X10_fill_now_witness :
  new_facts scenario_mend_state !! 0%nat
    = Some (new_fact (Datetime (on_2020_01_01 9 0)) Absent) /\
  exists f',
    final_state (new_fact_fill_now 0 "verify_end" (on_2020_01_01 10 0)
                   scenario_mend_state)
      = set_fact scenario_mend_state 0 f' /\
    fact_pk f' = fact_pk (new_fact (Datetime (on_2020_01_01 9 0)) Absent) /\
    forall which,
      getattr f' which = getattr (new_fact (Datetime (on_2020_01_01 9 0)) Absent) which \/
      truthy (getattr (new_fact (Datetime (on_2020_01_01 9 0)) Absent) which) = false /\
      getattr f' which = Datetime (on_2020_01_01 10 0).
Proof.
  split; [reflexivity|].
  apply (X10_fill_now_keeps_given_values scenario_mend_state 0
           (new_fact (Datetime (on_2020_01_01 9 0)) Absent) "verify_end"
           (on_2020_01_01 10 0)).
  reflexivity.
Defined.

Lemma X11_fill_now_witness :
  new_facts scenario_mend_state !! 0%nat
    = Some (new_fact (Datetime (on_2020_01_01 9 0)) Absent) /\
  In "verify_start" known_hints /\
  new_fact_fill_now 0 "verify_start" (on_2020_01_01 10 0) scenario_mend_state
    = Returned true scenario_mend_state /\
  exists f',
    new_facts scenario_mend_state !! 0%nat = Some f' /\
    true = negb (truthy (fact_end f')) /\
    truthy (fact_start f') = negb (String.eqb "verify_start" "verify_end") /\
    true = existsb (String.eqb "verify_start") open_hints.
Proof.
  split; [reflexivity|].
  split; [cbn; auto|].
  split; [reflexivity|].
  apply (X11_fill_now_leave_open_iff_no_end scenario_mend_state scenario_mend_state 0
           (new_fact (Datetime (on_2020_01_01 9 0)) Absent) "verify_start"
           (on_2020_01_01 10 0) true).
  - reflexivity.
  - cbn. auto.
  - reflexivity.
Defined.

Lemma X12_fill_now_witness :
  new_facts scenario_mend_state !! 0%nat
    = Some (new_fact (Datetime (on_2020_01_01 9 0)) Absent) /\
  new_fact_fill_now 0 "verify_none" (on_2020_01_01 10 0) scenario_mend_state
    = Raised AssertionError scenario_mend_state /\
  AssertionError = AssertionError /\ scenario_mend_state = scenario_mend_state /\
  In "verify_none" known_hints.
Proof.
  split; [reflexivity|]. split; [reflexivity|].
  apply (X12_fill_now_fails_before_writing scenario_mend_state scenario_mend_state 0
           (new_fact (Datetime (on_2020_01_01 9 0)) Absent) "verify_none"
           (on_2020_01_01 10 0) AssertionError); reflexivity.
Defined.

Lemma X13_mend_witness :
  new_facts scenario_mend_state !! 0%nat
    = Some (new_fact (Datetime (on_2020_01_01 9 0)) Absent) /\
  In "verify_start" open_hints /\
  mend_facts_times (list Conflict) no_neighbours accept_forcefully start_before_end
    0 "verify_start" scenario_mend_state = Returned [] scenario_mend_state /\
  exists f', new_facts scenario_mend_state !! 0%nat = Some f' /\ fact_end f' = Absent.
Proof.
  split; [reflexivity|].
  split; [cbn; auto|].
  split; [reflexivity|].
  apply (X13_mend_leaves_fact_open (list Conflict) no_neighbours accept_forcefully
           start_before_end scenario_mend_state scenario_mend_state 0
           (new_fact (Datetime (on_2020_01_01 9 0)) Absent) "verify_start" []).
  - reflexivity.
  - cbn. auto.
  - reflexivity.
Defined.

(** ** The table helpers *)

Lemma string_length_append (s1 s2 : string) :
  String.length (s1 ++ s2) = (String.length s1 + String.length s2)%nat.
Proof. induction s1 as [|c s1 IH]; cbn; [reflexivity|rewrite IH; reflexivity]. Qed.

Lemma string_length_prefix (n : nat) (s : string) :
  (n <= String.length s)%nat -> String.length (substring 0 n s) = n.
Proof.
  revert s. induction n as [|n IH]; intros s Hn.
  - destruct s; reflexivity.
  - destruct s as [|c s]; cbn in Hn; [lia|].
    cbn. rewrite IH; [reflexivity|lia].
Qed.

Lemma len_truncated (w : Z) (s : string) :
  0 <= w -> w <= len s -> len (substring 0 (Z.to_nat w) s ++ "...") = w + 3.
Proof.
  unfold len. intros H0 Hw. rewrite string_length_append, string_length_prefix; [|lia].
  cbn [String.length]. lia.
Qed.

Lemma py_position_lt (n : nat) (k : Z) (i : nat) :
  py_position n k = Some i -> (i < n)%nat.
Proof.
  unfold py_position. intros H.
  destruct (Z.leb_spec 0 k).
  - destruct (Z.ltb_spec k (Z.of_nat n)); inversion H; lia.
  - destruct (Z.leb_spec (- Z.of_nat n) k); inversion H; lia.
Qed.

(** What the loop body makes of a row when it does not raise. *)
Lemma truncate_row_ok (row trow : list Cell) (trunccol : Z) (max_width : Z) :
  truncate_row row (Some trunccol) max_width = Ok trow ->
  exists k cell,
    py_position (length row) trunccol = Some k /\ row !! k = Some cell /\
    (trow = row /\
     (max_width < 0 \/
      exists s, (if cell_truthy cell then cell else CStr EmptyString) = CStr s /\
                len s < max_width) \/
     exists s, (if cell_truthy cell then cell else CStr EmptyString) = CStr s /\
               0 <= max_width <= len s /\
               trow = <[k := CStr (substring 0 (Z.to_nat max_width) s ++ "...")]> row).
Proof.
  unfold truncate_row. intros H.
  destruct (py_position (length row) trunccol) as [k|] eqn:Hk; [|discriminate H].
  destruct (row !! k) as [cell|] eqn:Hcell; [|discriminate H].
  exists k, cell. split; [reflexivity|]. split; [exact Hcell|].
  destruct (Z.leb_spec 0 max_width) as [H0|H0].
  - destruct (if cell_truthy cell then cell else CStr EmptyString) as [|s|n] eqn:Hv;
      try discriminate H.
    destruct (Z.leb_spec max_width (len s)) as [Hw|Hw]; inversion H; subst.
    + right. exists s. auto.
    + left. split; [reflexivity|]. right. exists s. auto.
  - inversion H; subst. left. split; [reflexivity|]. left. lia.
Qed.

Lemma truncate_cell_values_lookup rows trows trunccol max_width :
  _generate_table_truncate_cell_values rows trunccol max_width = Ok trows ->
  length trows = length rows /\
  forall i row, rows !! i = Some row ->
    exists trow, trows !! i = Some trow /\
                 truncate_row row trunccol max_width = Ok trow.
Proof.
  revert trows. induction rows as [|row0 rest IH]; intros trows H; cbn in H.
  - inversion H; subst. split; [reflexivity|]. intros i row Hi. discriminate Hi.
  - destruct (truncate_row row0 trunccol max_width) as [trow0|e] eqn:H0;
      [|discriminate H].
    destruct (_generate_table_truncate_cell_values rest trunccol max_width)
      as [trest|e] eqn:Hrest; [|discriminate H].
    inversion H; subst. destruct (IH trest eq_refl) as [Hlen Hall].
    split; [cbn; rewrite Hlen; reflexivity|].
    intros [|i] row Hi; cbn in Hi.
    + inversion Hi; subst. exists trow0. auto.
    + exact (Hall i row Hi).
Qed.

(** X14. [generate_table] called without [trunccol] (its default,
    [None]) fails on every table that has a row, before anything is
    displayed: on the assertion of [_generate_table_max_width] when
    truncating, and otherwise on a [TypeError] from indexing the first
    row with [None]. *)
Theorem X14_table_without_trunccol_fails (term_width : Z) (rows : list (list Cell))
    (headers : list string) (table_type : string) (truncate : bool) :
  rows <> [] ->
  generate_table term_width rows headers table_type truncate None
    = Err (if truncate then TableAssertionError else TableTypeError).
Proof.
  intros Hne. destruct rows as [|row0 rest]; [congruence|].
  destruct truncate; reflexivity.
Qed.

(** X15. What truncation does to a table, when it returns for a
    [max_width] that is not negative: the table keeps its rows and every
    row its cells; only the cell of the elastic column may change.  Its
    text [s] (the empty text for an empty cell) is left as it is when
    shorter than [max_width]; otherwise the cell becomes the first
    [max_width] characters of [s] followed by three dots, [max_width + 3]
    characters in all, also when [s] was exactly [max_width] long. *)
Theorem X15_truncation_of_the_elastic_column (rows trows : list (list Cell))
    (trunccol max_width : Z) :
  0 <= max_width ->
  _generate_table_truncate_cell_values rows (Some trunccol) max_width = Ok trows ->
  length trows = length rows /\
  forall i row, rows !! i = Some row ->
    exists trow k cell s,
      trows !! i = Some trow /\
      py_position (length row) trunccol = Some k /\ row !! k = Some cell /\
      (if cell_truthy cell then cell else CStr EmptyString) = CStr s /\
      length trow = length row /\
      (forall j, j <> k -> trow !! j = row !! j) /\
      (len s < max_width /\ trow !! k = Some cell \/
       max_width <= len s /\
       trow !! k = Some (CStr (substring 0 (Z.to_nat max_width) s ++ "...")) /\
       len (substring 0 (Z.to_nat max_width) s ++ "...") = max_width + 3).
Proof.
  intros H0 H. destruct (truncate_cell_values_lookup _ _ _ _ H) as [Hlen Hall].
  split; [exact Hlen|]. intros i row Hi.
  destruct (Hall i row Hi) as (trow & Htrow & Hrow).
  destruct (truncate_row_ok _ _ _ _ Hrow) as (k & cell & Hk & Hcell & Hcases).
  pose proof (py_position_lt _ _ _ Hk) as Hlt.
  destruct Hcases as [[-> [Hneg|(s & Hs & Hshort)]]|(s & Hs & Hw & ->)].
  - lia.
  - exists row, k, cell, s. repeat split; auto.
  - exists (<[k := CStr (substring 0 (Z.to_nat max_width) s ++ "...")]> row), k, cell, s.
    repeat split; auto.
    + apply length_insert.
    + intros j Hj. apply list_lookup_insert_ne. auto.
    + right. split; [lia|]. split.
      * apply list_lookup_insert_eq. exact Hlt.
      * apply len_truncated; lia.
Qed.

Lemma truncate_row_off (row : list Cell) (trunccol max_width : Z) :
  max_width < 0 ->
  truncate_row row (Some trunccol) max_width =
    match py_position (length row) trunccol with
    | Some _ => Ok row
    | None => Err TableIndexError
    end.
Proof.
  intros Hneg. unfold truncate_row.
  destruct (py_position (length row) trunccol) as [k|] eqn:Hk; [|reflexivity].
  destruct (lookup_lt_is_Some_2 row k (py_position_lt _ _ _ Hk)) as [cell ->].
  destruct (Z.leb_spec 0 max_width); [lia|reflexivity].
Qed.

(** X16. Without [truncate], [generate_table] hands the rows to the
    display as they came, whatever the cells hold and however wide the
    terminal is, provided [trunccol] is a position of every row; if it
    is out of range for some row, the call fails with an [IndexError]
    although nothing was to be truncated. *)
Theorem X16_table_untouched_without_truncate (term_width : Z)
    (rows : list (list Cell)) (headers : list string) (table_type : string)
    (trunccol : Z) :
  generate_table term_width rows headers table_type false (Some trunccol) =
    if forallb (fun row => bool_decide (is_Some (py_position (length row) trunccol)))
         rows
    then Ok rows else Err TableIndexError.
Proof.
  unfold generate_table. cbn [_generate_table_max_width].
  induction rows as [|row rest IH]; [reflexivity|].
  cbn [_generate_table_truncate_cell_values forallb].
  rewrite truncate_row_off by lia.
  destruct (py_position (length row) trunccol) as [k|] eqn:Hk.
  - rewrite bool_decide_eq_true_2 by eauto. cbn [andb]. rewrite IH.
    destruct (forallb _ rest); reflexivity.
  - rewrite bool_decide_eq_false_2 by (intros [x Hx]; discriminate Hx). reflexivity.
Qed.

(** X17. Truncation makes the table fit.  When [generate_table]
    truncates and the terminal leaves the elastic column at least the
    room it is always granted (the header less three, and zero), every
    text the elastic column shows is short enough for the layout the
    code computes: borders, the other columns and that text together are
    no wider than the terminal. *)
Theorem X17_truncated_table_fits_the_terminal (term_width : Z)
    (row0 : list Cell) (rest trows : list (list Cell)) (headers : list string)
    (header : string) (table_type : string) (trunccol column_width_used : Z) :
  let rows := row0 :: rest in
  _generate_table_width_content rows (length row0) trunccol = Ok column_width_used ->
  py_index headers trunccol = Some header ->
  Z.max 0 (len header - 3)
    <= term_width - table_width rows (length row0) table_type column_width_used 3 ->
  generate_table term_width rows headers table_type true (Some trunccol) = Ok trows ->
  forall i trow k s,
    trows !! i = Some trow ->
    py_position (length trow) trunccol = Some k ->
    trow !! k = Some (CStr s) ->
    table_width rows (length row0) table_type column_width_used (len s) <= term_width.
Proof.
  intros rows Hcontent Hheader Hroom Hgen i trow k s Htrow Hk Hs.
  unfold generate_table in Hgen. subst rows.
  cbn [_generate_table_max_width] in Hgen. rewrite Hcontent, Hheader in Hgen.
  cbv zeta in Hgen. unfold table_width in *.
  set (border := _generate_table_width_border (row0 :: rest) (length row0) table_type)
    in *.
  set (w := Z.max 0 (Z.max (len header - 3)
                       (term_width - (border + column_width_used + 3)))) in *.
  assert (Hw : w = term_width - (border + column_width_used + 3)) by lia.
  assert (H0 : 0 <= w) by lia.

  destruct (truncate_cell_values_lookup _ _ _ _ Hgen) as [Hlen Hall].
  assert (Hi : (i < length (row0 :: rest))%nat).
  { rewrite <- Hlen. apply lookup_lt_is_Some. eauto. }
  destruct (lookup_lt_is_Some_2 _ _ Hi) as [row Hrow].
  destruct (Hall i row Hrow) as (trow' & Htrow' & Htr).
  rewrite Htrow in Htrow'. inversion Htrow'; subst trow'. clear Htrow'.
  destruct (truncate_row_ok _ _ _ _ Htr) as (k' & cell & Hk' & Hcell & Hcases).
  pose proof (py_position_lt _ _ _ Hk') as Hlt.
  destruct Hcases as [[-> [Hneg|(s' & Hs' & Hshort)]]|(s' & Hs' & Hwle & ->)].
  - lia.
  - rewrite Hk in Hk'. inversion Hk'; subst k'.
    rewrite Hs in Hcell. inversion Hcell; subst cell.
    destruct (cell_truthy (CStr s)) eqn:Ht.
    + inversion Hs'; subst s'. lia.
    + cbn in Ht. apply negb_false_iff, String.eqb_eq in Ht. subst s.
      unfold len. cbn. lia.
  - rewrite length_insert in Hk. rewrite Hk in Hk'. inversion Hk'; subst k'.
    rewrite list_lookup_insert_eq in Hs by exact Hlt.
    inversion Hs; subst s. rewrite len_truncated by lia. lia.
Qed.

Lemma X14_table_without_trunccol_witness :
  scenario_tag_rows <> [] /\
  generate_table 30 scenario_tag_rows scenario_tag_headers "friendly" false None
    = Err TableTypeError.
Proof.
  split; [discriminate|].
  apply (X14_table_without_trunccol_fails 30 scenario_tag_rows scenario_tag_headers
           "friendly" false).
  discriminate.
Defined.

Lemma X15_truncation_witness :
  0 <= 17 /\
  _generate_table_truncate_cell_values scenario_tag_rows (Some 0) 17
    = Ok scenario_tag_truncated /\
  length scenario_tag_truncated = length scenario_tag_rows /\
  forall i row, scenario_tag_rows !! i = Some row ->
    exists trow k cell s,
      scenario_tag_truncated !! i = Some trow /\
      py_position (length row) 0 = Some k /\ row !! k = Some cell /\
      (if cell_truthy cell then cell else CStr EmptyString) = CStr s /\
      length trow = length row /\
      (forall j, j <> k -> trow !! j = row !! j) /\
      (len s < 17 /\ trow !! k = Some cell \/
       17 <= len s /\
       trow !! k = Some (CStr (substring 0 (Z.to_nat 17) s ++ "...")) /\
       len (substring 0 (Z.to_nat 17) s ++ "...") = 17 + 3).
Proof.
  split; [lia|]. split; [reflexivity|].
  apply (X15_truncation_of_the_elastic_column scenario_tag_rows scenario_tag_truncated
           0 17).
  - lia.
  - reflexivity.
Defined.

Lemma X17_truncated_table_witness :
  _generate_table_width_content scenario_tag_rows 2 0 = Ok 2 /\
  py_index scenario_tag_headers 0 = Some "Name" /\
  Z.max 0 (len "Name" - 3)
    <= 30 - table_width scenario_tag_rows 2 "friendly" 2 3 /\
  generate_table 30 scenario_tag_rows scenario_tag_headers "friendly" true (Some 0)
    = Ok scenario_tag_truncated /\
  scenario_tag_truncated !! 0%nat = Some [CStr "a-rather-long-tag..."; CInt 12] /\
  table_width scenario_tag_rows 2 "friendly" 2 (len "a-rather-long-tag...") <= 30.
Proof.
  split; [reflexivity|]. split; [reflexivity|]. split; [vm_compute; discriminate|].
  split; [vm_compute; reflexivity|]. split; [reflexivity|].
  apply (X17_truncated_table_fits_the_terminal 30
           [CStr "a-rather-long-tag-name"; CInt 12]
           [[CStr "short"; CInt 3]; [CNone; CInt 0]]
           scenario_tag_truncated scenario_tag_headers "Name" "friendly" 0 2
           eq_refl eq_refl
           ltac:(vm_compute; discriminate)
           ltac:(vm_compute; reflexivity)
           0%nat [CStr "a-rather-long-tag..."; CInt 12] 0%nat "a-rather-long-tag...");
    reflexivity.
Defined.

(** ** Blank fields between two facts *)

Lemma field_is_other j w g st st' g' cs i which v :
  step_summary j w g st st' g' cs -> i <> j ->
  field_is i which v st -> field_is i which v st'.
Proof.
  intros Hsum Hne (f & Hf & Hv). exists f.
  rewrite (step_summary_other _ _ _ _ _ _ _ i Hsum); auto.
Qed.

Lemma field_is_opposite j w g st st' g' cs v :
  new_facts st !! j = Some g -> step_summary j w g st st' g' cs ->
  field_is j (opposite w) v st -> field_is j (opposite w) v st'.
Proof.
  intros Hg Hsum (f & Hf & Hv). rewrite Hg in Hf. inversion Hf; subst f.
  exists g'. split; [exact (step_summary_lookup _ _ _ _ _ _ _ Hsum Hg)|].
  destruct Hsum as (_ & _ & _ & Hoppo & _). congruence.
Qed.

(** A field that holds a timestamp holds it after any field step. *)
Lemma datetime_field_step i which t j w g st st' g' cs :
  new_facts st !! j = Some g -> step_summary j w g st st' g' cs ->
  field_is i which (Datetime t) st -> field_is i which (Datetime t) st'.
Proof.
  intros Hg Hsum Hfield.
  destruct (Nat.eq_dec i j) as [->|Hne]; [|exact (field_is_other _ _ _ _ _ _ _ _ _ _ Hsum Hne Hfield)].
  assert (Hcase : which = w \/ which = opposite w) by (destruct which, w; auto).
  destruct Hcase as [->| ->]; [|exact (field_is_opposite _ _ _ _ _ _ _ _ Hg Hsum Hfield)].
  destruct Hfield as (f & Hf & Hv). rewrite Hg in Hf. inversion Hf; subst f.
  exists g'. split; [exact (step_summary_lookup _ _ _ _ _ _ _ Hsum Hg)|].
  destruct Hsum as (_ & _ & _ & _ & [Hsame|[_ Hno]] & _); [congruence|].
  rewrite Hv in Hno. discriminate Hno.
Qed.

(** A field that is [None] is [None] after any field step of a pass
    whose step passes over [None]. *)
Lemma absent_field_step
    (op : nat -> Which -> option Z -> list FactRef -> M (option Z)) i which :
  summarised op ->
  (forall st j later_facts, new_facts st !! j = None ->
     forall w p, exists e, op j w p later_facts st = Raised e st) ->
  (forall st f p later_facts, new_facts st !! i = Some f ->
     getattr f which = Absent -> op i which p later_facts st = Returned p st) ->
  forall j w p later_facts st, field_is i which Absent st ->
    wp (op j w p later_facts) st
       (fun _ => field_is i which Absent) (fun _ => field_is i which Absent).
Proof.
  intros Hop Hnone Habsent j w p later_facts st Hfield.
  destruct (new_facts st !! j) as [g|] eqn:Hg.
  - destruct (Nat.eq_dec i j) as [->|Hne].
    + assert (Hcase : which = w \/ which = opposite w) by (destruct which, w; auto).
      destruct Hcase as [->| ->].
      * destruct Hfield as (f & Hf & Hv). unfold wp.
        rewrite (Habsent st f p later_facts Hf Hv). exists f. auto.
      * destruct (Hop st j g w p later_facts Hg)
          as [(p' & st' & g' & cs & Heq & Hsum)|Heq];
          unfold wp; rewrite Heq; [|exact Hfield].
        exact (field_is_opposite _ _ _ _ _ _ _ _ Hg Hsum Hfield).
    + destruct (Hop st j g w p later_facts Hg)
        as [(p' & st' & g' & cs & Heq & Hsum)|Heq];
        unfold wp; rewrite Heq; [|exact Hfield].
      exact (field_is_other _ _ _ _ _ _ _ _ _ _ Hsum Hne Hfield).
  - destruct (Hnone st j later_facts Hg w p) as [e Heq].
    unfold wp. rewrite Heq. exact Hfield.
Qed.

Lemma fix_clock_times_relative_absent nark ongoing_okay ante_fact seqt_fact
    i which st st' :
  field_is i which Absent st ->
  fix_clock_times_relative nark ongoing_okay ante_fact seqt_fact st = Returned tt st' ->
  field_is i which Absent st'.
Proof.
  intros HR Hret.
  assert (Hwp : wp (fix_clock_times_relative nark ongoing_okay ante_fact seqt_fact) st
                  (fun _ => field_is i which Absent)
                  (fun _ => field_is i which Absent)).
  { apply (pass_preserves _ _ _ _ (fun p => p)); [|exact HR].
    intros j later_facts s st1 HR1.
    apply (two_steps_wp (field_is i which Absent) (fix_clock_time_relative nark));
      [|exact HR1].
    intros w p st2 HR2.
    apply (absent_field_step (fix_clock_time_relative nark) i which); auto.
    - apply fix_clock_time_relative_summarised.
    - intros. apply fix_clock_time_relative_none. assumption.
    - intros st0 f p0 lf Hf Hw.
      rewrite (fix_clock_time_relative_eq _ _ _ _ _ _ _ Hf), Hw. reflexivity. }
  exact (wp_returned _ _ _ _ _ _ Hwp Hret).
Qed.

Lemma fix_delta_times_relative_absent nark ongoing_okay ante_fact seqt_fact
    i which st st' :
  field_is i which Absent st ->
  fix_delta_times_relative nark ongoing_okay ante_fact seqt_fact st = Returned tt st' ->
  field_is i which Absent st'.
Proof.
  intros HR Hret.
  assert (Hwp : wp (fix_delta_times_relative nark ongoing_okay ante_fact seqt_fact) st
                  (fun _ => field_is i which Absent)
                  (fun _ => field_is i which Absent)).
  { apply (pass_preserves _ _ _ _ (fun p => p)); [|exact HR].
    intros j later_facts s st1 HR1.
    apply (two_steps_wp (field_is i which Absent) (fix_delta_time_relative nark));
      [|exact HR1].
    intros w p st2 HR2.
    apply (absent_field_step (fix_delta_time_relative nark) i which); auto.
    - apply fix_delta_time_relative_summarised.
    - intros. apply fix_delta_time_relative_none. assumption.
    - intros st0 f p0 lf Hf Hw.
      rewrite (fix_delta_time_relative_eq _ _ _ _ _ _ _ Hf), Hw. reflexivity. }
  exact (wp_returned _ _ _ _ _ _ Hwp Hret).
Qed.

(** The body of the blank-fill loop, from its two field steps. *)
Lemma blank_body_wp controller i p later_facts st (Q : option Z -> State -> Prop) :
  (forall f, new_facts st !! i = Some f ->
     wp (let* prev_time := fix_blank_time_relative controller i WStart p later_facts in
         fix_blank_time_relative controller i WEnd prev_time later_facts)
        st Q may_raise) ->
  wp (let* fact_start := read_attr i WStart in
      let* fact_end := read_attr i WEnd in
      py_assert (truthy fact_start || truthy fact_end) ;;;
      let* prev_time := fix_blank_time_relative controller i WStart p later_facts in
      fix_blank_time_relative controller i WEnd prev_time later_facts)
     st Q may_raise.
Proof.
  intros Htwo. unfold wp at 1.
  destruct (new_facts st !! i) as [f|] eqn:Hf;
    [|unfold bind; rewrite (read_attr_none _ _ _ Hf); exact I].
  rewrite (bind_eq _ _ _ _ _ (read_attr_eq st i f WStart Hf)).
  rewrite (bind_eq _ _ _ _ _ (read_attr_eq st i f WEnd Hf)).
  destruct (truthy (getattr f WStart) || truthy (getattr f WEnd))%bool; [|exact I].
  unfold py_assert. unfold bind at 1, ret at 1.
  exact (Htwo f eq_refl).
Qed.

(** The two blank-fill steps on a fact, for a predicate that survives
    the summarised steps on that fact. *)
Lemma blank_steps_preserve controller (R : State -> Prop) j p later_facts st :
  (forall which f st st' f' cs, new_facts st !! j = Some f ->
     step_summary j which f st st' f' cs -> R st -> R st') ->
  R st ->
  wp (let* prev_time := fix_blank_time_relative controller j WStart p later_facts in
      fix_blank_time_relative controller j WEnd prev_time later_facts)
     st (fun _ => R) may_raise.
Proof.
  intros Hstep HR.
  eapply wp_mono;
    [| |apply (two_steps_preserve_at R (fix_blank_time_relative controller) j);
        [apply fix_blank_time_relative_summarised
        |intros; apply fix_blank_time_relative_none; assumption
        |exact Hstep|exact HR]].
  - cbv beta. auto.
  - intros; exact I.
Qed.

(** The blank-fill pass gives a missing end the start of the next fact,
    when that start is a timestamp. *)
Lemma fix_blank_times_relative_end_meets controller ongoing_okay ante_fact seqt_fact
    i s st st' :
  field_is i WEnd Absent st ->
  field_is (Datatypes.S i) WStart (Datetime s) st ->
  fix_blank_times_relative controller ongoing_okay ante_fact seqt_fact st
    = Returned tt st' ->
  field_is i WEnd (Datetime s) st'.
Proof.
  intros Hend Hnext Hret. unfold fix_blank_times_relative in Hret.
  assert (Hn : (Datatypes.S i < length (new_facts st))%nat).
  { destruct Hnext as (g & Hg & _). apply lookup_lt_is_Some. eauto. }
  apply (pass_inv _ _ _ _ (fun p => p)
           (fun j _ st1 =>
              field_is (Datatypes.S i) WStart (Datetime s) st1 /\
              ((j <= i)%nat -> field_is i WEnd Absent st1) /\
              ((i < j)%nat -> field_is i WEnd (Datetime s) st1))
           (fun st1 => field_is i WEnd (Datetime s) st1) _ _ Hret).
  - intros j p st1 Hj (Hnext1 & Hbefore & Hafter). cbv beta.
    apply blank_body_wp. intros f Hf.
    destruct (Nat.lt_trichotomy j i) as [Hlt|[->|Hgt]].
    + eapply wp_mono;
        [| |apply (blank_steps_preserve controller
                     (fun st => field_is (Datatypes.S i) WStart (Datetime s) st /\
                                field_is i WEnd Absent st))].
      * cbv beta. intros p' st2 [H1 H2]. split; [exact H1|]. split; [auto|lia].
      * auto.
      * intros which g sta stb g' cs Hg Hsum [H1 H2]. split.
        -- apply (field_is_other _ _ _ _ _ _ _ _ _ _ Hsum); [lia|exact H1].
        -- apply (field_is_other _ _ _ _ _ _ _ _ _ _ Hsum); [lia|exact H2].
      * split; [exact Hnext1|apply Hbefore; lia].
    + destruct (fix_blank_time_relative_returning controller st1 i f WStart p
                  (later_from (Datatypes.S i) (length (new_facts st))
                     (seqt_tail seqt_fact)) Hf)
        as (p1 & st2 & f1 & cs1 & Heq1 & Hsum1).
      apply wp_bind. unfold wp at 1. rewrite Heq1.
      pose proof (step_summary_lookup _ _ _ _ _ _ _ Hsum1 Hf) as Hf1.
      assert (Hnext2 : field_is (Datatypes.S i) WStart (Datetime s) st2).
      { apply (field_is_other _ _ _ _ _ _ _ _ _ _ Hsum1); [lia|exact Hnext1]. }
      assert (Hend2 : field_is i WEnd Absent st2).
      { exact (field_is_opposite i WStart f st1 st2 f1 cs1 Absent Hf Hsum1
                 (Hbefore (Nat.le_refl i))). }
      destruct Hend2 as (f1' & Hf1' & He1). rewrite Hf1 in Hf1'.
      inversion Hf1'; subst f1'. cbn [getattr] in He1.
      destruct Hnext2 as (g & Hg & Hgs). cbn [getattr] in Hgs.
      unfold wp. rewrite (fix_blank_time_relative_eq _ _ _ _ _ _ _ Hf1).
      cbn [getattr]. rewrite He1. cbn [truthy].
      rewrite (find_next_datetime_here _ _ _ _ g s Hn Hg Hgs).
      assert (Hi : (i < length (new_facts st2))%nat)
        by (apply lookup_lt_is_Some; eauto).
      split; [|split; [lia|]].
      * exists g. split; [|exact Hgs]. cbn.
        rewrite list_lookup_insert_ne by lia. exact Hg.
      * intros _. exists (with_attr f1 WEnd (Datetime s)). split; [|reflexivity].
        cbn. apply list_lookup_insert_eq. exact Hi.
    + eapply wp_mono;
        [| |apply (blank_steps_preserve controller
                     (fun st => field_is (Datatypes.S i) WStart (Datetime s) st /\
                                field_is i WEnd (Datetime s) st))].
      * cbv beta. intros p' st2 [H1 H2]. split; [exact H1|]. split; [lia|auto].
      * auto.
      * intros which g sta stb g' cs Hg Hsum [H1 H2]. split.
        -- exact (datetime_field_step _ _ _ _ _ _ _ _ _ _ Hg Hsum H1).
        -- exact (datetime_field_step _ _ _ _ _ _ _ _ _ _ Hg Hsum H2).
      * split; [exact Hnext1|apply Hafter; exact Hgt].
  - split; [exact Hnext|]. split; [auto|lia].
  - cbv beta. intros p st1 (_ & _ & Hafter). apply Hafter. lia.
Qed.

(** A field that holds a timestamp holds it after each pass that
    returns. *)
Lemma datetime_field_kept nark controller ongoing_okay ante_fact seqt_fact
    i which t st :
  field_is i which (Datetime t) st ->
  (forall st', fix_clock_times_relative nark ongoing_okay ante_fact seqt_fact st
                 = Returned tt st' -> field_is i which (Datetime t) st') /\
  (forall st', fix_delta_times_relative nark ongoing_okay ante_fact seqt_fact st
                 = Returned tt st' -> field_is i which (Datetime t) st') /\
  (forall st', fix_blank_times_relative controller ongoing_okay ante_fact seqt_fact st
                 = Returned tt st' -> field_is i which (Datetime t) st') /\
  (forall st', verify_datetimes_sanity ongoing_okay ante_fact seqt_fact st
                 = Returned tt st' -> field_is i which (Datetime t) st').
Proof.
  intros HR.
  destruct (three_passes_preserve nark controller ongoing_okay ante_fact seqt_fact
              (field_is i which (Datetime t))) with (st := st) as (Hc & Hd & Hb);
    [|exact HR|].
  { intros j w g sta stb g' cs Hg Hsum H.
    exact (datetime_field_step _ _ _ _ _ _ _ _ _ _ Hg Hsum H). }
  pose proof (verify_datetimes_sanity_preserves ongoing_okay ante_fact seqt_fact
                (field_is i which (Datetime t))
                ltac:(intros sa sb [cs ->] H; exact H) st HR) as Hs.
  repeat split; intros st' Hret.
  - exact (wp_returned _ _ _ _ _ _ Hc Hret).
  - exact (wp_returned _ _ _ _ _ _ Hd Hret).
  - exact (wp_returned _ _ _ _ _ _ Hb Hret).
  - exact (wp_returned _ _ _ _ _ _ Hs Hret).
Qed.

(** X18. A missing end meets the next start: a fact that comes without
    an end, followed in the batch by a fact whose start is a timestamp,
    ends at that timestamp, whatever else the batch and the store hold;
    this holds whenever the resolver returns or exits with conflicts. *)
Theorem X18_missing_end_meets_next_start (nark : Dated) (controller : Controller)
    (ongoing_okay : bool) (facts : list Fact) (i : nat) (f g : Fact) (s : Z)
    (st : State) :
  facts !! i = Some f -> fact_end f = Absent ->
  facts !! Datatypes.S i = Some g -> fact_start g = Datetime s ->
  must_complete_times nark controller ongoing_okay facts = Returned tt st \/
  must_complete_times nark controller ongoing_okay facts = Raised SystemExit st ->
  exists f', new_facts st !! i = Some f' /\ fact_end f' = Datetime s.
Proof.
  intros Hf He Hg Hs Hout.
  assert (Hne : facts <> []) by (intros ->; discriminate Hf).
  destruct (must_complete_times_passes _ _ _ _ _ Hne Hout)
    as (ante & seqt & calls & Hpasses).
  unfold four_passes in Hpasses.
  apply bind_returned in Hpasses. destruct Hpasses as ([] & sta & Hclk & Hpasses).
  apply bind_returned in Hpasses. destruct Hpasses as ([] & stb & Hdlt & Hpasses).
  apply bind_returned in Hpasses. destruct Hpasses as ([] & stc & Hblank & Hsanity).
  set (st0 := mkState facts [] calls) in *.
  assert (Hend0 : field_is i WEnd Absent st0) by (exists f; auto).
  assert (Hnext0 : field_is (Datatypes.S i) WStart (Datetime s) st0) by (exists g; auto).
  pose proof (fix_clock_times_relative_absent _ _ _ _ _ _ _ _ Hend0 Hclk) as Henda.
  pose proof (proj1 (datetime_field_kept nark controller ongoing_okay ante seqt
                       _ _ _ st0 Hnext0) sta Hclk) as Hnexta.
  pose proof (fix_delta_times_relative_absent _ _ _ _ _ _ _ _ Henda Hdlt) as Hendb.
  pose proof (proj1 (proj2 (datetime_field_kept nark controller ongoing_okay ante seqt
                              _ _ _ sta Hnexta)) stb Hdlt) as Hnextb.
  pose proof (fix_blank_times_relative_end_meets _ _ _ _ _ _ _ _ Hendb Hnextb Hblank)
    as Hendc.
  exact (proj2 (proj2 (proj2 (datetime_field_kept nark controller ongoing_okay ante seqt
                                _ _ _ stc Hendc))) st Hsanity).
Qed.

(** The cursor after the blank-fill step on an end: when the end holds
    a timestamp afterwards, the cursor is that timestamp. *)
Lemma blank_end_step_cursor controller i f p later_facts st p' st' :
  new_facts st !! i = Some f ->
  fix_blank_time_relative controller i WEnd p later_facts st = Returned p' st' ->
  forall e, field_is i WEnd (Datetime e) st' -> p' = Some e.
Proof.
  intros Hf Heq e (f' & Hf' & He').
  assert (Hi : (i < length (new_facts st))%nat) by (apply lookup_lt_is_Some; eauto).
  rewrite (fix_blank_time_relative_eq _ _ _ _ _ _ _ Hf) in Heq.
  cbn [getattr] in *.
  destruct (fact_end f) as [|t|txt] eqn:Hend.
  - cbn [truthy] in Heq.
    destruct (find_next_datetime (new_facts st) later_facts) as [[dt r]|];
      inversion Heq; subst; cbn in Hf';
      rewrite list_lookup_insert_eq in Hf' by exact Hi;
      inversion Hf'; subst f'; cbn in He'; congruence.
  - inversion Heq; subst. rewrite Hf in Hf'. inversion Hf'; subst f'. congruence.
  - destruct (truthy (Text txt)).
    + inversion Heq; subst. cbn in Hf'. rewrite Hf in Hf'.
      inversion Hf'; subst f'. congruence.
    + destruct (find_next_datetime (new_facts st) later_facts) as [[dt r]|];
        inversion Heq; subst; cbn in Hf';
        rewrite list_lookup_insert_eq in Hf' by exact Hi;
        inversion Hf'; subst f'; cbn in He'; congruence.
Qed.

(** The blank-fill pass gives a missing start the end of the fact
    before, when that end is a timestamp by then. *)
Lemma fix_blank_times_relative_start_meets controller ongoing_okay ante_fact seqt_fact
    i st st' :
  field_is (Datatypes.S i) WStart Absent st ->
  fix_blank_times_relative controller ongoing_okay ante_fact seqt_fact st
    = Returned tt st' ->
  forall e, field_is i WEnd (Datetime e) st' ->
    field_is (Datatypes.S i) WStart (Datetime e) st'.
Proof.
  intros Hstart Hret. unfold fix_blank_times_relative in Hret.
  assert (Hn : (Datatypes.S i < length (new_facts st))%nat).
  { destruct Hstart as (g & Hg & _). apply lookup_lt_is_Some. eauto. }
  apply (pass_inv _ _ _ _ (fun p => p)
           (fun j p st1 =>
              ((j <= Datatypes.S i)%nat -> field_is (Datatypes.S i) WStart Absent st1) /\
              (j = Datatypes.S i ->
               forall e, field_is i WEnd (Datetime e) st1 -> p = Some e) /\
              ((Datatypes.S i < j)%nat ->
               forall e, field_is i WEnd (Datetime e) st1 ->
                 field_is (Datatypes.S i) WStart (Datetime e) st1))
           (fun st1 => forall e, field_is i WEnd (Datetime e) st1 ->
                         field_is (Datatypes.S i) WStart (Datetime e) st1) _ _ Hret).
  - intros j p st1 Hj (Hbefore & Hat & Hafter). cbv beta.
    apply blank_body_wp. intros f Hf.
    set (later := later_from (Datatypes.S j) (length (new_facts st)) (seqt_tail seqt_fact)).
    destruct (Nat.lt_trichotomy j i) as [Hlt|[->|Hgt]].
    + (* before the pair *)
      eapply wp_mono;
        [| |apply (blank_steps_preserve controller
                     (field_is (Datatypes.S i) WStart Absent))].
      * cbv beta. intros p' st2 H1. split; [auto|]. split; intros; lia.
      * auto.
      * intros which g sta stb g' cs Hg Hsum H1.
        apply (field_is_other _ _ _ _ _ _ _ _ _ _ Hsum); [lia|exact H1].
      * apply Hbefore. lia.
    + (* the fact before: its end sets the cursor *)
      destruct (fix_blank_time_relative_returning controller st1 i f WStart p later Hf)
        as (p1 & st2 & f1 & cs1 & Heq1 & Hsum1).
      apply wp_bind. unfold wp at 1. rewrite Heq1.
      pose proof (step_summary_lookup _ _ _ _ _ _ _ Hsum1 Hf) as Hf1.
      destruct (fix_blank_time_relative_returning controller st2 i f1 WEnd p1 later Hf1)
        as (p2 & st3 & f2 & cs2 & Heq2 & Hsum2).
      unfold wp. rewrite Heq2. split; [|split].
      * intros _.
        apply (field_is_other _ _ _ _ _ _ _ _ _ _ Hsum2); [lia|].
        apply (field_is_other _ _ _ _ _ _ _ _ _ _ Hsum1); [lia|].
        apply Hbefore. lia.
      * intros _ e He. exact (blank_end_step_cursor _ _ _ _ _ _ _ _ Hf1 Heq2 e He).
      * intros Habs. lia.
    + destruct (Nat.eq_dec j (Datatypes.S i)) as [->|Hne].
      * (* the fact itself: its start takes the cursor *)
        assert (Hsame : forall which g sta stb g' cs,
                  new_facts sta !! Datatypes.S i = Some g ->
                  step_summary (Datatypes.S i) which g sta stb g' cs ->
                  new_facts stb !! i = new_facts sta !! i).
        { intros which g sta stb g' cs _ Hsum.
          apply (step_summary_other _ _ _ _ _ _ _ i Hsum). lia. }
        destruct (Hbefore (Nat.le_refl _)) as (g & Hg & Hgs).
        rewrite Hf in Hg. inversion Hg; subst g. cbn [getattr] in Hgs.
        destruct (fix_blank_time_relative_returning controller st1 (Datatypes.S i)
                    f WStart p later Hf)
          as (p1 & st2 & f1 & cs1 & Heq1 & Hsum1).
        apply wp_bind. unfold wp at 1. rewrite Heq1.
        pose proof (step_summary_lookup _ _ _ _ _ _ _ Hsum1 Hf) as Hf1.
        destruct (fix_blank_time_relative_returning controller st2 (Datatypes.S i)
                    f1 WEnd p1 later Hf1)
          as (p2 & st3 & f2 & cs2 & Heq2 & Hsum2).
        unfold wp. rewrite Heq2. split; [intros; lia|]. split; [intros; lia|].
        intros _ e (h & Hh & He).
        rewrite (Hsame _ _ _ _ _ _ Hf1 Hsum2), (Hsame _ _ _ _ _ _ Hf Hsum1) in Hh.
        assert (Hp : p = Some e) by (apply (Hat eq_refl); exists h; auto).
        subst p.
        apply (field_is_opposite (Datatypes.S i) WEnd f1 st2 st3 f2 cs2 _ Hf1 Hsum2).
        rewrite (fix_blank_time_relative_eq _ _ _ _ _ _ _ Hf) in Heq1.
        cbn [getattr] in Heq1. rewrite Hgs in Heq1. cbn [truthy] in Heq1.
        inversion Heq1; subst. exists (with_attr f WStart (Datetime e)).
        split; [|reflexivity]. cbn. apply list_lookup_insert_eq.
        apply lookup_lt_is_Some. eauto.
      * (* after the pair *)
        set (X := new_facts st1 !! i). set (Y := new_facts st1 !! Datatypes.S i).
        eapply wp_mono;
          [| |apply (blank_steps_preserve controller
                       (fun st => new_facts st !! i = X /\
                                  new_facts st !! Datatypes.S i = Y))].
        -- cbv beta. intros p' st2 [H1 H2]. split; [intros; lia|].
           split; [intros; lia|]. intros _ e (h & Hh & He).
           rewrite H1 in Hh.
           destruct (Hafter ltac:(lia) e) as (g & Hg & Hgs); [exists h; auto|].
           exists g. rewrite H2. auto.
        -- auto.
        -- intros which g sta stb g' cs Hg Hsum [H1 H2].
           rewrite !(step_summary_other _ _ _ _ _ _ _ _ Hsum) by lia. auto.
        -- auto.
  - split; [auto|]. split; [intros H; discriminate H|intros; lia].
  - cbv beta. intros p st1 (_ & _ & Hafter). apply Hafter. lia.
Qed.

(** X19. A missing start meets the previous end: when a fact comes
    without a start, and the fact before it in the batch ends up with a
    timestamp for end (given, resolved or filled in), the fact starts at
    that timestamp; this holds whenever the resolver returns or exits
    with conflicts. *)
Theorem X19_missing_start_meets_previous_end (nark : Dated) (controller : Controller)
    (ongoing_okay : bool) (facts : list Fact) (i : nat) (g f' : Fact) (e : Z)
    (st : State) :
  facts !! Datatypes.S i = Some g -> fact_start g = Absent ->
  must_complete_times nark controller ongoing_okay facts = Returned tt st \/
  must_complete_times nark controller ongoing_okay facts = Raised SystemExit st ->
  new_facts st !! i = Some f' -> fact_end f' = Datetime e ->
  exists g', new_facts st !! Datatypes.S i = Some g' /\ fact_start g' = Datetime e.
Proof.
  intros Hg Hs Hout Hf' He.
  assert (Hne : facts <> []) by (intros ->; discriminate Hg).
  destruct (must_complete_times_passes _ _ _ _ _ Hne Hout)
    as (ante & seqt & calls & Hpasses).
  unfold four_passes in Hpasses.
  apply bind_returned in Hpasses. destruct Hpasses as ([] & sta & Hclk & Hpasses).
  apply bind_returned in Hpasses. destruct Hpasses as ([] & stb & Hdlt & Hpasses).
  apply bind_returned in Hpasses. destruct Hpasses as ([] & stc & Hblank & Hsanity).
  set (st0 := mkState facts [] calls) in *.
  assert (H0 : field_is (Datatypes.S i) WStart Absent st0) by (exists g; auto).
  pose proof (fix_clock_times_relative_absent _ _ _ _ _ _ _ _ H0 Hclk) as Ha.
  pose proof (fix_delta_times_relative_absent _ _ _ _ _ _ _ _ Ha Hdlt) as Hb.
  pose proof (fix_blank_times_relative_start_meets _ _ _ _ _ _ _ Hb Hblank) as Hc.
  assert (Hfacts : new_facts st = new_facts stc).
  { pose proof (verify_datetimes_sanity_preserves ongoing_okay ante seqt
                  (fun s => new_facts s = new_facts stc)
                  ltac:(intros sa sb [cs ->] H; exact H) stc eq_refl) as Hsan.
    exact (wp_returned _ _ _ _ _ _ Hsan Hsanity). }
  rewrite Hfacts in *.
  exact (Hc e ltac:(exists f'; auto)).
Qed.

Lemma X18_missing_end_witness :
  scenario_gap_end_facts !! 0%nat
    = Some (new_fact (Datetime (on_2020_01_01 9 0)) Absent) /\
  scenario_gap_end_facts !! 1%nat
    = Some (new_fact (Datetime (on_2020_01_01 10 0)) (Datetime (on_2020_01_01 11 0))) /\
  must_complete_times NarkModel.dated no_neighbours false scenario_gap_end_facts
    = Returned tt scenario_gap_end_final /\
  exists f', new_facts scenario_gap_end_final !! 0%nat = Some f' /\
             fact_end f' = Datetime (on_2020_01_01 10 0).
Proof.
  split; [reflexivity|]. split; [reflexivity|]. split; [vm_compute; reflexivity|].
  apply (X18_missing_end_meets_next_start NarkModel.dated no_neighbours false
           scenario_gap_end_facts 0%nat
           (new_fact (Datetime (on_2020_01_01 9 0)) Absent)
           (new_fact (Datetime (on_2020_01_01 10 0)) (Datetime (on_2020_01_01 11 0)))
           (on_2020_01_01 10 0) scenario_gap_end_final); try reflexivity.
  left. vm_compute. reflexivity.
Defined.

Lemma X19_missing_start_witness :
  scenario_gap_start_facts !! 1%nat
    = Some (new_fact Absent (Datetime (on_2020_01_01 11 0))) /\
  must_complete_times NarkModel.dated no_neighbours false scenario_gap_start_facts
    = Returned tt scenario_gap_start_final /\
  new_facts scenario_gap_start_final !! 0%nat
    = Some (new_fact (Datetime (on_2020_01_01 9 0)) (Datetime (on_2020_01_01 9 45))) /\
  exists g', new_facts scenario_gap_start_final !! 1%nat = Some g' /\
             fact_start g' = Datetime (on_2020_01_01 9 45).
Proof.
  split; [reflexivity|]. split; [vm_compute; reflexivity|]. split; [reflexivity|].
  apply (X19_missing_start_meets_previous_end NarkModel.dated no_neighbours false
           scenario_gap_start_facts 0%nat
           (new_fact Absent (Datetime (on_2020_01_01 11 0)))
           (new_fact (Datetime (on_2020_01_01 9 0)) (Datetime (on_2020_01_01 9 45)))
           (on_2020_01_01 9 45) scenario_gap_start_final); try reflexivity.
  left. vm_compute. reflexivity.
Defined.

(** ** Clock times beside a timestamp of the same fact *)

(** The clock pass, when its two steps on the fact [f] at [i] replace it
    by the resolved fact [f']. *)
Lemma fix_clock_times_relative_resolves nark ongoing_okay ante_fact seqt_fact
    i f f' s e st st' :
  two_timestamps f' s e ->
  (forall st1 p later_facts, new_facts st1 !! i = Some f ->
     exists p' st2,
       (let* prev_time := fix_clock_time_relative nark i WStart p later_facts in
        fix_clock_time_relative nark i WEnd prev_time later_facts) st1
         = Returned p' st2 /\
       new_facts st2 !! i = Some f') ->
  new_facts st !! i = Some f ->
  fix_clock_times_relative nark ongoing_okay ante_fact seqt_fact st = Returned tt st' ->
  new_facts st' !! i = Some f'.
Proof.
  intros Hres Hat Hf Hret. unfold fix_clock_times_relative in Hret.
  assert (Hi : (i < length (new_facts st))%nat).
  { apply lookup_lt_is_Some. eauto. }
  apply (pass_inv _ _ _ _ (fun p => p)
           (fun j _ st1 => ((j <= i)%nat -> new_facts st1 !! i = Some f) /\
                           ((i < j)%nat -> new_facts st1 !! i = Some f'))
           (fun st1 => new_facts st1 !! i = Some f') _ _ Hret).
  - intros j p st1 Hj [Hbefore Hafter]. cbv beta.
    destruct (Nat.lt_trichotomy j i) as [Hlt|[->|Hgt]].
    + eapply wp_mono;
        [| |apply (two_steps_preserve_at (fun st => new_facts st !! i = Some f)
                     (fix_clock_time_relative nark) j)].
      * cbv beta. intros p' st2 H2. split; [auto|lia].
      * intros; exact I.
      * apply fix_clock_time_relative_summarised.
      * intros. apply fix_clock_time_relative_none. assumption.
      * intros which g sta stb g' cs Hg Hsum Hfa.
        rewrite (step_summary_other _ _ _ _ _ _ _ i Hsum); [exact Hfa|lia].
      * apply Hbefore. lia.
    + destruct (Hat st1 p
                  (later_from (Datatypes.S i) (length (new_facts st)) (seqt_tail seqt_fact))
                  (Hbefore (Nat.le_refl i))) as (p' & st2 & Heq & Hf2).
      unfold wp. rewrite Heq. split; [lia|auto].
    + eapply wp_mono;
        [| |apply (two_steps_preserve_at (fun st => new_facts st !! i = Some f')
                     (fix_clock_time_relative nark) j)].
      * cbv beta. intros p' st2 H2. split; [lia|auto].
      * intros; exact I.
      * apply fix_clock_time_relative_summarised.
      * intros. apply fix_clock_time_relative_none. assumption.
      * intros which g sta stb g' cs Hg Hsum Hfa.
        exact (resolved_fact_step i f' s e j which g sta stb g' cs Hres Hg Hsum Hfa).
      * apply Hafter. exact Hgt.
  - split; [auto|lia].
  - cbv beta. intros p st1 [_ Hafter]. apply Hafter. exact Hi.
Qed.

Lemma clock_resolved_fact nark controller ongoing_okay facts i f f' s e st :
  two_timestamps f' s e ->
  (forall st1 p later_facts, new_facts st1 !! i = Some f ->
     exists p' st2,
       (let* prev_time := fix_clock_time_relative nark i WStart p later_facts in
        fix_clock_time_relative nark i WEnd prev_time later_facts) st1
         = Returned p' st2 /\
       new_facts st2 !! i = Some f') ->
  facts !! i = Some f ->
  must_complete_times nark controller ongoing_okay facts = Returned tt st \/
  must_complete_times nark controller ongoing_okay facts = Raised SystemExit st ->
  new_facts st !! i = Some f'.
Proof.
  intros Hres Hat Hf Hout.
  assert (Hne : facts <> []) by (intros ->; discriminate Hf).
  destruct (must_complete_times_passes _ _ _ _ _ Hne Hout)
    as (ante & seqt & calls & Hpasses).
  unfold four_passes in Hpasses.
  apply bind_returned in Hpasses. destruct Hpasses as ([] & sta & Hclk & Hpasses).
  apply bind_returned in Hpasses. destruct Hpasses as ([] & stb & Hdlt & Hpasses).
  apply bind_returned in Hpasses. destruct Hpasses as ([] & stc & Hblank & Hsanity).
  pose proof (fix_clock_times_relative_resolves nark ongoing_okay ante seqt
                i f f' s e (mkState facts [] calls) sta Hres Hat Hf Hclk) as Ha.
  destruct (three_passes_preserve nark controller ongoing_okay ante seqt
              (fun st => new_facts st !! i = Some f')) with (st := sta)
    as (_ & Hd & _); [|exact Ha|].
  { intros j which g s1 s2 g' cs Hg Hsum Hfa.
    exact (resolved_fact_step i f' s e j which g s1 s2 g' cs Hres Hg Hsum Hfa). }
  pose proof (wp_returned _ _ _ _ _ _ Hd Hdlt) as Hb. cbv beta in Hb.
  exact (resolved_fact_kept controller ongoing_okay ante seqt i f' s e stb stc st
           Hres Hb Hblank Hsanity).
Qed.

(** X20. A clock time for end is taken after the fact's own start: a
    fact that comes with a timestamp for start and a clock time for end
    ends at what [datetime_from_clock_after] makes of that start and
    clock time, when it makes a timestamp of them; the previous facts,
    the later ones and the store play no part.  This holds whenever the
    resolver returns or exits with conflicts. *)
Theorem X20_clock_end_follows_own_start (nark : Dated) (controller : Controller)
    (ongoing_okay : bool) (facts : list Fact) (i : nat) (f : Fact)
    (s dt : Z) (txt : string) (clock_time : ClockTime) (st : State) :
  facts !! i = Some f ->
  fact_start f = Datetime s -> fact_end f = Text txt ->
  parse_clock_time nark txt = Some clock_time ->
  datetime_from_clock_after nark s clock_time = Some dt ->
  must_complete_times nark controller ongoing_okay facts = Returned tt st \/
  must_complete_times nark controller ongoing_okay facts = Raised SystemExit st ->
  new_facts st !! i = Some (with_attr f WEnd (Datetime dt)).
Proof.
  intros Hf Hs He Hclock Hafter Hout.
  apply (clock_resolved_fact nark controller ongoing_okay facts i f
           (with_attr f WEnd (Datetime dt)) s dt st); auto.
  - destruct f; cbn in *. split; [exact Hs|reflexivity].
  - intros st1 p later_facts Hf1.
    exists (Some dt), (set_fact st1 i (with_attr f WEnd (Datetime dt))).
    split.
    + rewrite (bind_eq _ _ _ (Some s) st1).
      * rewrite (fix_clock_time_relative_eq _ _ _ _ _ _ _ Hf1).
        cbn [getattr opposite]. rewrite He, Hclock, Hs. cbn [clock_anchor clock_resolution].
        rewrite Hafter. reflexivity.
      * rewrite (fix_clock_time_relative_eq _ _ _ _ _ _ _ Hf1).
        cbn [getattr]. rewrite Hs. reflexivity.
    + cbn. apply list_lookup_insert_eq. apply lookup_lt_is_Some. eauto.
Qed.

(** X21. A clock time for start is taken before the fact's own end: a
    fact that comes with a clock time for start and a timestamp for end
    starts at what [datetime_from_clock_prior] makes of that end and
    clock time, when it makes a timestamp of them, even though a cursor
    from the previous fact is at hand.  This holds whenever the resolver
    returns or exits with conflicts. *)
Theorem X21_clock_start_precedes_own_end (nark : Dated) (controller : Controller)
    (ongoing_okay : bool) (facts : list Fact) (i : nat) (f : Fact)
    (e dt : Z) (txt : string) (clock_time : ClockTime) (st : State) :
  facts !! i = Some f ->
  fact_start f = Text txt -> fact_end f = Datetime e ->
  parse_clock_time nark txt = Some clock_time ->
  datetime_from_clock_prior nark e clock_time = Some dt ->
  must_complete_times nark controller ongoing_okay facts = Returned tt st \/
  must_complete_times nark controller ongoing_okay facts = Raised SystemExit st ->
  new_facts st !! i = Some (with_attr f WStart (Datetime dt)).
Proof.
  intros Hf Hs He Hclock Hprior Hout.
  apply (clock_resolved_fact nark controller ongoing_okay facts i f
           (with_attr f WStart (Datetime dt)) dt e st); auto.
  - destruct f; cbn in *. split; [reflexivity|exact He].
  - intros st1 p later_facts Hf1.
    set (f' := with_attr f WStart (Datetime dt)).
    assert (Hf' : new_facts (set_fact st1 i f') !! i = Some f').
    { cbn. apply list_lookup_insert_eq. apply lookup_lt_is_Some. eauto. }
    exists (Some e), (set_fact st1 i f').
    split; [|exact Hf'].
    rewrite (bind_eq _ _ _ (Some dt) (set_fact st1 i f')).
    + rewrite (fix_clock_time_relative_eq _ _ _ _ _ _ _ Hf').
      subst f'. destruct f; cbn in *. rewrite He. reflexivity.
    + rewrite (fix_clock_time_relative_eq _ _ _ _ _ _ _ Hf1).
      cbn [getattr opposite]. rewrite Hs, Hclock, He.
      cbn [clock_anchor clock_resolution]. rewrite Hprior. reflexivity.
Qed.

Lemma X20_clock_end_witness :
  [scenario_clock_end_fact] !! 0%nat = Some scenario_clock_end_fact /\
  parse_clock_time NarkModel.dated "14:00" = Some (14, 0, 0) /\
  datetime_from_clock_after NarkModel.dated (on_2020_01_01 9 0) (14, 0, 0)
    = Some (on_2020_01_01 14 0) /\
  must_complete_times NarkModel.dated no_neighbours false [scenario_clock_end_fact]
    = Returned tt scenario_clock_end_final /\
  new_facts scenario_clock_end_final !! 0%nat
    = Some (with_attr scenario_clock_end_fact WEnd (Datetime (on_2020_01_01 14 0))).
Proof.
  split; [reflexivity|]. split; [reflexivity|]. split; [reflexivity|].
  split; [vm_compute; reflexivity|].
  apply (X20_clock_end_follows_own_start NarkModel.dated no_neighbours false
           [scenario_clock_end_fact] 0%nat scenario_clock_end_fact
           (on_2020_01_01 9 0) (on_2020_01_01 14 0) "14:00" (14, 0, 0)
           scenario_clock_end_final);
    try reflexivity.
  left. vm_compute. reflexivity.
Defined.

Lemma X21_clock_start_witness :
  [scenario_clock_start_fact] !! 0%nat = Some scenario_clock_start_fact /\
  parse_clock_time NarkModel.dated "08:30" = Some (8, 30, 0) /\
  datetime_from_clock_prior NarkModel.dated (on_2020_01_01 9 0) (8, 30, 0)
    = Some (on_2020_01_01 8 30) /\
  must_complete_times NarkModel.dated no_neighbours false [scenario_clock_start_fact]
    = Returned tt scenario_clock_start_final /\
  new_facts scenario_clock_start_final !! 0%nat
    = Some (with_attr scenario_clock_start_fact WStart (Datetime (on_2020_01_01 8 30))).
Proof.
  split; [reflexivity|]. split; [reflexivity|]. split; [reflexivity|].
  split; [vm_compute; reflexivity|].
  apply (X21_clock_start_precedes_own_end NarkModel.dated no_neighbours false
           [scenario_clock_start_fact] 0%nat scenario_clock_start_fact
           (on_2020_01_01 9 0) (on_2020_01_01 8 30) "08:30" (8, 30, 0)
           scenario_clock_start_final);
    try reflexivity.
  left. vm_compute. reflexivity.
Defined.

(** ** The open end of the last fact *)

(** As [must_complete_times_passes], with where the neighbours come
    from. *)
Lemma must_complete_times_passes_from nark controller ongoing_okay facts st :
  facts <> [] ->
  must_complete_times nark controller ongoing_okay facts = Returned tt st \/
  must_complete_times nark controller ongoing_okay facts = Raised SystemExit st ->
  exists ante_fact seqt_fact calls,
    (ante_fact = None \/ exists t, ante_fact = antecedent controller t) /\
    (seqt_fact = None \/ exists t, seqt_fact = subsequent controller t) /\
    four_passes nark controller ongoing_okay ante_fact seqt_fact
      (mkState facts [] calls) = Returned tt st.
Proof.
  intros Hne Hout.
  destruct (antecedent_fact_returns controller (mkState facts [] []))
    as (ante & calls1 & Heq1 & Hante).
  destruct (subsequent_fact_returns controller (add_calls (mkState facts [] []) calls1))
    as (seqt & calls2 & Heq2 & Hseqt).
  exists ante, seqt, (calls1 ++ calls2). split; [exact Hante|]. split; [exact Hseqt|].
  assert (Heq : must_complete_times nark controller ongoing_okay facts =
                (four_passes nark controller ongoing_okay ante seqt ;;;
                 barf_on_overlapping_facts_new) (mkState facts [] (calls1 ++ calls2))).
  { unfold must_complete_times, _must_complete_times.
    unfold bind at 1, gets at 1. cbn [new_facts].
    destruct facts as [|f0 rest]; [congruence|].
    rewrite (bind_eq _ _ _ _ _ Heq1), (bind_eq _ _ _ _ _ Heq2).
    unfold add_calls. cbn. reflexivity. }
  rewrite Heq in Hout. unfold bind in Hout.
  destruct (four_passes nark controller ongoing_okay ante seqt
              (mkState facts [] (calls1 ++ calls2)))
    as [[] st4|e st4] eqn:Hpasses.
  - rewrite barf_on_overlapping_facts_new_eq in Hout.
    destruct (conflicts st4); destruct Hout as [H|H]; congruence.
  - destruct (four_passes_raises _ _ _ _ _ _ _ _ Hpasses) as [-> | ->];
      destruct Hout as [H|H]; discriminate H.
Qed.

(** Without a subsequent fact, the blank-fill pass gives the missing end
    of the last fact the time it is. *)
Lemma fix_blank_times_relative_end_now controller ongoing_okay ante_fact i st st' :
  field_is i WEnd Absent st ->
  length (new_facts st) = Datatypes.S i ->
  fix_blank_times_relative controller ongoing_okay ante_fact None st
    = Returned tt st' ->
  field_is i WEnd (Datetime (now controller)) st'.
Proof.
  intros Hend Hlast Hret. unfold fix_blank_times_relative in Hret.
  apply (pass_inv _ _ _ _ (fun p => p)
           (fun j _ st1 =>
              ((j <= i)%nat -> field_is i WEnd Absent st1) /\
              ((i < j)%nat -> field_is i WEnd (Datetime (now controller)) st1))
           (fun st1 => field_is i WEnd (Datetime (now controller)) st1) _ _ Hret).
  - intros j p st1 Hj (Hbefore & Hafter). cbv beta.
    apply blank_body_wp. intros f Hf.
    destruct (Nat.lt_trichotomy j i) as [Hlt|[->|Hgt]]; [| |lia].
    + eapply wp_mono;
        [| |apply (blank_steps_preserve controller (field_is i WEnd Absent))].
      * cbv beta. intros p' st2 H1. split; [auto|lia].
      * auto.
      * intros which g sta stb g' cs Hg Hsum H1.
        apply (field_is_other _ _ _ _ _ _ _ _ _ _ Hsum); [lia|exact H1].
      * apply Hbefore. lia.
    + rewrite Hlast. rewrite later_from_ge by lia. cbn [seqt_tail].
      destruct (fix_blank_time_relative_returning controller st1 i f WStart p [] Hf)
        as (p1 & st2 & f1 & cs1 & Heq1 & Hsum1).
      apply wp_bind. unfold wp at 1. rewrite Heq1.
      pose proof (step_summary_lookup _ _ _ _ _ _ _ Hsum1 Hf) as Hf1.
      assert (Hend2 : field_is i WEnd Absent st2).
      { exact (field_is_opposite i WStart f st1 st2 f1 cs1 Absent Hf Hsum1
                 (Hbefore (Nat.le_refl i))). }
      destruct Hend2 as (f1' & Hf1' & He1). rewrite Hf1 in Hf1'.
      inversion Hf1'; subst f1'. cbn [getattr] in He1.
      unfold wp. rewrite (fix_blank_time_relative_eq _ _ _ _ _ _ _ Hf1).
      cbn [getattr]. rewrite He1. cbn [truthy find_next_datetime].
      split; [lia|]. intros _.
      exists (with_attr f1 WEnd (Datetime (now controller))). split; [|reflexivity].
      cbn. apply list_lookup_insert_eq. apply lookup_lt_is_Some. eauto.
  - split; [auto|lia].
  - cbv beta. intros p st1 (_ & Hafter). apply Hafter. lia.
Qed.

(** X22. The last fact is never left open: when the last fact of the
    batch comes without an end and the store knows no fact after the
    batch, its end is filled with the store's [now], also when
    [ongoing_okay] is set; this holds whenever the resolver returns or
    exits with conflicts. *)
Theorem X22_last_missing_end_is_now (nark : Dated) (controller : Controller)
    (ongoing_okay : bool) (facts : list Fact) (f : Fact) (st : State) :
  last facts = Some f -> fact_end f = Absent ->
  (forall t, subsequent controller t = None) ->
  must_complete_times nark controller ongoing_okay facts = Returned tt st \/
  must_complete_times nark controller ongoing_okay facts = Raised SystemExit st ->
  exists f', last (new_facts st) = Some f' /\
             fact_end f' = Datetime (now controller).
Proof.
  intros Hlast He Hnone Hout.
  assert (Hne : facts <> []) by (intros ->; discriminate Hlast).
  destruct (must_complete_times_passes_from _ _ _ _ _ Hne Hout)
    as (ante & seqt & calls & _ & Hseqt & Hpasses).
  assert (seqt = None) as ->.
  { destruct Hseqt as [H|[t H]]; [exact H|rewrite H; apply Hnone]. }
  unfold four_passes in Hpasses.
  apply bind_returned in Hpasses. destruct Hpasses as ([] & sta & Hclk & Hpasses).
  apply bind_returned in Hpasses. destruct Hpasses as ([] & stb & Hdlt & Hpasses).
  apply bind_returned in Hpasses. destruct Hpasses as ([] & stc & Hblank & Hsanity).
  set (st0 := mkState facts [] calls) in *.
  set (i := Init.Nat.pred (length facts)).
  assert (Hlen : length facts = Datatypes.S i).
  { subst i. destruct facts; [congruence|reflexivity]. }
  assert (Hend0 : field_is i WEnd Absent st0).
  { exists f. split; [|exact He]. rewrite last_lookup in Hlast. exact Hlast. }
  assert (Hkeep : forall R : State -> Prop,
            (forall j which g s1 s2 g' cs, new_facts s1 !! j = Some g ->
               step_summary j which g s1 s2 g' cs -> R s1 -> R s2) ->
            forall s1, R s1 ->
              (forall s2, fix_clock_times_relative nark ongoing_okay ante None s1
                            = Returned tt s2 -> R s2) /\
              (forall s2, fix_delta_times_relative nark ongoing_okay ante None s1
                            = Returned tt s2 -> R s2)).
  { intros R HR s1 H1.
    destruct (three_passes_preserve nark controller ongoing_okay ante None R HR s1 H1)
      as (Hc & Hd & _).
    split; intros s2 Hret;
      [exact (wp_returned _ _ _ _ _ _ Hc Hret)|exact (wp_returned _ _ _ _ _ _ Hd Hret)]. }
  assert (Hsame : forall j which g s1 s2 g' cs n, new_facts s1 !! j = Some g ->
            step_summary j which g s1 s2 g' cs ->
            length (new_facts s1) = n -> length (new_facts s2) = n).
  { intros j which g s1 s2 g' cs n _ Hsum H.
    rewrite (step_summary_length _ _ _ _ _ _ _ Hsum). exact H. }
  pose proof (proj1 (Hkeep (fun s => length (new_facts s) = Datatypes.S i)
                       ltac:(intros; eapply Hsame; eauto) st0 Hlen) sta Hclk) as Hlena.
  pose proof (proj2 (Hkeep (fun s => length (new_facts s) = Datatypes.S i)
                       ltac:(intros; eapply Hsame; eauto) sta Hlena) stb Hdlt) as Hlenb.
  pose proof (fix_clock_times_relative_absent _ _ _ _ _ _ _ _ Hend0 Hclk) as Henda.
  pose proof (fix_delta_times_relative_absent _ _ _ _ _ _ _ _ Henda Hdlt) as Hendb.
  pose proof (fix_blank_times_relative_end_now _ _ _ _ _ _ Hendb Hlenb Hblank) as Hendc.
  assert (Hlenc : length (new_facts stc) = Datatypes.S i).
  { destruct (fix_blank_times_relative_done _ _ _ _ _ _ Hblank) as [H _]. congruence. }
  assert (Hfacts : new_facts st = new_facts stc).
  { pose proof (verify_datetimes_sanity_preserves ongoing_okay ante None
                  (fun s => new_facts s = new_facts stc)
                  ltac:(intros sa sb [cs ->] H; exact H) stc eq_refl) as Hsan.
    exact (wp_returned _ _ _ _ _ _ Hsan Hsanity). }
  destruct Hendc as (f' & Hf' & He').
  exists f'. split; [|exact He'].
  rewrite Hfacts, last_lookup, Hlenc. exact Hf'.
Qed.

Lemma X22_last_missing_end_witness :
  last (new_facts scenario_mend_state)
    = Some (new_fact (Datetime (on_2020_01_01 9 0)) Absent) /\
  (forall t, subsequent no_neighbours t = None) /\
  must_complete_times NarkModel.dated no_neighbours true (new_facts scenario_mend_state)
    = Returned tt scenario_open_end_final /\
  exists f', last (new_facts scenario_open_end_final) = Some f' /\
             fact_end f' = Datetime (now no_neighbours).
Proof.
  split; [reflexivity|]. split; [reflexivity|]. split; [vm_compute; reflexivity|].
  apply (X22_last_missing_end_is_now NarkModel.dated no_neighbours true
           (new_facts scenario_mend_state)
           (new_fact (Datetime (on_2020_01_01 9 0)) Absent) scenario_open_end_final).
  - reflexivity.
  - reflexivity.
  - reflexivity.
  - left. vm_compute. reflexivity.
Defined.

(** ** The search description *)

Lemma string_append_assoc (a b c : string) :
  ((a ++ b) ++ c = a ++ (b ++ c))%string.
Proof. induction a as [|x a IH]; cbn; [reflexivity|rewrite IH; reflexivity]. Qed.

(** X23. [search] looks for the conjunction of all it is given: with at
    least one positional term, the description handed to [search_facts]
    is the [--description] option, when there is one and it is not
    empty, and the terms in their order, joined by [" AND "]; no
    [" AND "] is put before the first condition. *)
Theorem X23_search_terms_are_conjoined (description : option string)
    (search_term : list string) :
  search_term <> [] ->
  search_description description search_term
    = Some (String.concat " AND " (given_description description ++ search_term)).
Proof.
  intros Hne. destruct search_term as [|term rest]; [congruence|].
  unfold search_description, given_description.
  destruct description as [s|]; [|reflexivity].
  destruct (String.eqb_spec s EmptyString) as [->|Hs]; [reflexivity|].
  destruct (String.eqb_spec s EmptyString) as [Habs|_]; [contradiction|].
  cbn [app]. f_equal.
  change (String.concat " AND " (s :: term :: rest))
    with (s ++ " AND " ++ String.concat " AND " (term :: rest))%string.
  apply string_append_assoc.
Qed.

Lemma X23_search_terms_witness :
  ["coffee"; "tea"] <> [] /\
  search_description (Some "break") ["coffee"; "tea"]
    = Some (String.concat " AND " (given_description (Some "break") ++ ["coffee"; "tea"])).
Proof.
  split; [discriminate|].
  apply (X23_search_terms_are_conjoined (Some "break") ["coffee"; "tea"]).
  discriminate.
Defined.

(** ** C3: the clock-time pass resolves by priority *)






(** ** C1 and C2 at concrete inputs *)

(** With [ongoing_okay] set, the resolver accepts without conflict a
    fact from 11:00 to 12:00 after an antecedent that started at 10:00
    and has no end: the pair of the antecedent and the first fact is not
    ordered as the claim has it. *)
Lemma C1_counterexample :
  ~ (forall ante_fact seqt_fact st1 st2 st,
       antecedent_fact scenario_c9_store (mkState [scenario_c9_fact] [] [])
         = Returned ante_fact st1 ->
       subsequent_fact scenario_c9_store st1 = Returned seqt_fact st2 ->
       must_complete_times NarkModel.dated scenario_c9_store true [scenario_c9_fact]
         = Returned tt st ->
       conflicts st = [] /\
       timeline_in_order_as_claimed ante_fact seqt_fact (new_facts st)).
Proof.
  intros H.
  destruct (H (Some open_antecedent) None scenario_c9_st1 scenario_c9_st2
              scenario_c9_st2 eq_refl eq_refl ltac:(vm_compute; reflexivity))
    as (_ & _ & Hante & _).
  destruct (Hante open_antecedent scenario_c9_fact (on_2020_01_01 11 0)
              eq_refl eq_refl eq_refl) as (e & He & _).
  discriminate He.
Qed.

(** A delta that leads past the year 9999 aborts the resolver with an
    [OverflowError]: no conflict is reported. *)
Lemma overflow_outcome :
  must_complete_times NarkModel.dated no_neighbours false
    [new_fact (Datetime (on_2020_01_01 10 0)) (Text "+9999999999")]
  = Raised OverflowError
      (mkState [new_fact (Datetime (on_2020_01_01 10 0)) (Text "+9999999999")] []
         [CallAntecedent (on_2020_01_01 10 0); CallSubsequent (on_2020_01_01 10 0)]).
Proof. vm_compute. reflexivity. Qed.
